(** * MicroPezzottoMet: a shallow embedding of [utils.py] and [main_micromet.py]

    The development follows the two Python modules of the repository:

    - Python values read from the JSON configuration are the inductive
      type [json]; dictionaries are finite maps ([gmap string json]).
    - Exceptions are the constructors of [exn]; a computation that may
      raise returns a [result].
    - Code that touches the outside world (file system, standard output,
      the downscaling operators of [downscaling_variables]) is written in
      a state-and-exception monad [M W A := W -> result A * W].
    - Rasters are lists of rows of cells; a cell is [None] for NaN and
      [Some v] for a number. Arithmetic is exact: numbers are elements of
      the quadratic field Q(sqrt 2), because the stencil divides by
      [np.sqrt(2.0)]; the rounding of binary floating point and the
      infinities are not modelled. *)

From Stdlib Require Import Ascii String ZArith QArith Qround Qabs Qreals Reals Lra Lia Psatz.
From stdpp Require Import base option list strings gmap.

Open Scope string_scope.

(** ** Python values, exceptions and the monad *)

#[local] Unset Elimination Schemes.
Inductive json : Type :=
  | JNull
  | JBool (b : bool)
  | JNum (q : Q)
  | JStr (s : string)
  | JArr (l : list json)
  | JObj (m : gmap string json).
#[local] Set Elimination Schemes.

Inductive exn : Type :=
  | ValueError (msg : string)
  | KeyError (key : string)
  | IndexError
  | AttributeError
  | ZeroDivisionError
  | TypeError
  | FileExistsError (path : string)
  | FileNotFoundError (path : string)
  | IsADirectoryError (path : string)
  | RasterioIOError (path : string).

Inductive result (A : Type) : Type :=
  | Ok (a : A)
  | Raise (e : exn).
Arguments Ok {A} a.
Arguments Raise {A} e.

Definition rbind {A B} (r : result A) (k : A -> result B) : result B :=
  match r with
  | Ok a => k a
  | Raise e => Raise e
  end.

Definition M (W A : Type) : Type := W -> result A * W.

Definition ret {W A} (a : A) : M W A := fun w => (Ok a, w).
Definition throw {W A} (e : exn) : M W A := fun w => (Raise e, w).
Definition bind {W A B} (m : M W A) (k : A -> M W B) : M W B :=
  fun w => match m w with
           | (Ok a, w') => k a w'
           | (Raise e, w') => (Raise e, w')
           end.
Definition lift {W A} (r : result A) : M W A := fun w => (r, w).

Declare Scope py_scope.
Delimit Scope py_scope with py.
Notation "x <- m ;; k" := (bind m (fun x => k))
  (at level 90, m at next level, right associativity) : py_scope.
Notation "m ;;; k" := (bind m (fun _ => k))
  (at level 90, right associativity) : py_scope.

(** ** String helpers: [str.split], [os.path.basename], [os.path.join] *)

Definition slash : ascii := "/"%char.
Definition underscore : ascii := "_"%char.

(** [s.split(c)] for a one-character separator. *)
Fixpoint split_on (c : ascii) (s : string) : list string :=
  match s with
  | EmptyString => [EmptyString]
  | String a s' =>
      if Ascii.eqb a c then EmptyString :: split_on c s'
      else match split_on c s' with
           | h :: t => String a h :: t
           | [] => [String a EmptyString]
           end
  end.

Definition basename (p : string) : string :=
  List.last (split_on slash p) EmptyString.

Fixpoint ends_with_slash (s : string) : bool :=
  match s with
  | EmptyString => false
  | String a EmptyString => Ascii.eqb a slash
  | String _ s' => ends_with_slash s'
  end.

Definition starts_with_slash (s : string) : bool :=
  match s with
  | String a _ => Ascii.eqb a slash
  | EmptyString => false
  end.

(** [os.path.join(a, b)] on POSIX. *)
Definition path_join (a b : string) : string :=
  if starts_with_slash b then b
  else if (String.eqb a EmptyString || ends_with_slash a)%bool then a ++ b
  else a ++ "/" ++ b.

Definition path_join3 (a b c : string) : string :=
  path_join (path_join a b) c.

(** ** [utils.parse_yes_no_flag] *)

(** Python's [value == "y"] for a value read from JSON. *)
Definition py_eq_str (value : json) (s : string) : bool :=
  match value with
  | JStr v => String.eqb v s
  | _ => false
  end.

Definition repr_json (value : json) : string :=
  match value with
  | JStr v => v
  | JNull => "None"
  | JBool true => "True"
  | JBool false => "False"
  | _ => "<value>"
  end.

Definition parse_yes_no_flag (value : json) (var_name : string) : result bool :=
  if py_eq_str value "y" then Ok true
  else if py_eq_str value "n" then Ok false
  else Raise (ValueError ("Invalid value for '" ++ var_name ++ "': "
                            ++ repr_json value ++ ". Expected 'y' or 'n'.")).

(** [d.get(k, default)]; anything that is not a dictionary has no [get]. *)
Definition dict_get (d : json) (k : string) (dflt : json) : result json :=
  match d with
  | JObj m => Ok (default dflt (m !! k))
  | _ => Raise AttributeError
  end.

(** [custom_lapse_rates.get(key, {}).get("monthly")] *)
Definition monthly_override (custom_lapse_rates : json) (key : string) : result json :=
  rbind (dict_get custom_lapse_rates key (JObj ∅))
        (fun inner => dict_get inner "monthly" JNull).

(** ** [main_micromet.run_month] *)

Section RunMonth.
(** The five operators live in [downscaling_variables], which is not part
    of the two modules modelled here: they are arbitrary effectful
    procedures on an arbitrary world. *)
Context {W : Type}.
Variable downscale_Temperature :
  string -> string -> string -> json -> json -> M W unit.
Variable downscale_SW :
  string -> string -> string -> Q -> Q -> json -> json -> M W unit.
Variable downscale_RH :
  string -> string -> string -> json -> json -> M W unit.
Variable downscale_Precipitation :
  string -> string -> string -> json -> json -> M W unit.
Variable downscale_Wind :
  string -> string -> string -> Q -> json -> M W unit.

(** [lst[i]] with a non-negative index. *)
Definition py_index {A} (l : list A) (i : nat) : result A :=
  match l !! i with
  | Some x => Ok x
  | None => Raise IndexError
  end.

Definition flag_enabled (variables_to_downscale : json) (name : string)
  : result bool :=
  rbind (dict_get variables_to_downscale name (JStr "n"))
        (fun v => parse_yes_no_flag v name).

Local Open Scope py_scope.

Definition run_month (curr_climate_file dem_path working_directory : string)
    (variables_to_downscale custom_lapse_rates dem_nodata : json) : M W unit :=
  month <- lift (py_index (split_on underscore (basename curr_climate_file)) 2);;
  year <- lift (py_index (split_on underscore (basename curr_climate_file)) 1);;
  (* Air Temperature *)
  t_air <- lift (flag_enabled variables_to_downscale "t_air");;
  (if t_air : bool then
     let output_folder_T := path_join3 working_directory "outputs" "Temperature" in
     lr <- lift (monthly_override custom_lapse_rates "temperature");;
     downscale_Temperature dem_path curr_climate_file output_folder_T lr dem_nodata
   else ret tt);;;
  (* Shortwave Radiation *)
  sw <- lift (flag_enabled variables_to_downscale "sw_radiation");;
  (if sw : bool then
     let output_folder_SW := path_join3 working_directory "outputs" "SW" in
     lr <- lift (monthly_override custom_lapse_rates "temperature");;
     downscale_SW dem_path curr_climate_file output_folder_SW 3000 1370 lr dem_nodata
   else ret tt);;;
  (* Relative Humidity *)
  rh <- lift (flag_enabled variables_to_downscale "relative_humidity");;
  (if rh : bool then
     let output_folder_RH := path_join3 working_directory "outputs" "RH" in
     lr <- lift (monthly_override custom_lapse_rates "temperature");;
     downscale_RH dem_path curr_climate_file output_folder_RH lr dem_nodata
   else ret tt);;;
  (* Precipitation *)
  p <- lift (flag_enabled variables_to_downscale "precipitation");;
  (if p : bool then
     let output_folder_P := path_join3 working_directory "outputs" "P" in
     g <- lift (monthly_override custom_lapse_rates "precipitation");;
     downscale_Precipitation dem_path curr_climate_file output_folder_P g dem_nodata
   else ret tt);;;
  (* Wind *)
  wind <- lift (flag_enabled variables_to_downscale "wind");;
  (if wind : bool then
     let output_folder_W := path_join3 working_directory "outputs" "Wind" in
     downscale_Wind dem_path curr_climate_file output_folder_W (1 # 2) dem_nodata
   else ret tt).

End RunMonth.

(** ** Numbers: the field Q(sqrt 2)

    [np.sqrt(2.0)] enters the stencil, so the values of the curvature raster
    are of the form [a + b * sqrt 2] with [a], [b] rational. The pair
    [(a, b)] is the executable representation; [toR] is its meaning. *)

Module QS2.

Record t : Type := mk { rat : Q; irr : Q }.

Definition of_Q (q : Q) : t := mk (Qred q) 0.
Definition zero : t := of_Q 0.
Definition sqrt2 : t := mk 0 1.

Definition add (x y : t) : t :=
  mk (Qred (rat x + rat y)) (Qred (irr x + irr y)).
Definition opp (x : t) : t := mk (Qred (- rat x)) (Qred (- irr x)).
Definition sub (x y : t) : t :=
  mk (Qred (rat x - rat y)) (Qred (irr x - irr y)).
Definition mul (x y : t) : t :=
  mk (Qred (rat x * rat y + 2 * (irr x * irr y)))
     (Qred (rat x * irr y + irr x * rat y)).

(** The field norm [a^2 - 2 b^2]; it vanishes only at zero. *)
Definition norm (x : t) : Q := rat x * rat x - 2 * (irr x * irr x).
Definition inv (x : t) : t :=
  mk (Qred (rat x / norm x)) (Qred (- irr x / norm x)).
Definition div (x y : t) : t := mul x (inv y).

(** Sign of [a + b * sqrt 2], decided on the rational components. *)
Definition nonneg (x : t) : bool :=
  if Qle_bool 0 (rat x) then
    if Qle_bool 0 (irr x) then true
    else Qle_bool (2 * (irr x * irr x)) (rat x * rat x)
  else
    if Qle_bool 0 (irr x) then Qle_bool (rat x * rat x) (2 * (irr x * irr x))
    else false.

Definition leb (x y : t) : bool := nonneg (sub y x).
Definition ltb (x y : t) : bool := negb (leb y x).
Definition eqb (x y : t) : bool :=
  Qeq_bool (rat x) (rat y) && Qeq_bool (irr x) (irr y).
Definition abs (x : t) : t := if nonneg x then x else opp x.

(** Equality of values (the components up to [Qeq]). *)
Definition eq (x y : t) : Prop := rat x == rat y /\ irr x == irr y.

Definition toR (x : t) : R := (Q2R (rat x) + Q2R (irr x) * sqrt 2)%R.

End QS2.

Abbreviation num := QS2.t.

(** A raster cell: [None] is NaN. *)
Abbreviation cell := (option QS2.t).
Abbreviation array := (list (list (option QS2.t))).

(** ** NumPy on lists *)

(** Python's resolution of one slice bound against a length. *)
Definition norm_index (len : nat) (i : Z) : nat :=
  if (i <? 0)%Z then Z.to_nat (Z.max 0 (i + Z.of_nat len))
  else Z.to_nat (Z.min i (Z.of_nat len)).

(** [l[start:stop]] *)
Definition py_slice {A} (start stop : Z) (l : list A) : list A :=
  let s := norm_index (length l) start in
  let e := norm_index (length l) stop in
  take (e - s) (drop s l).

(** [a[r0:r1, c0:c1]] *)
Definition py_slice2 {A} (r0 r1 c0 c1 : Z) (a : list (list A)) : list (list A) :=
  map (py_slice c0 c1) (py_slice r0 r1 a).

Definition ncols {A} (a : list (list A)) : nat :=
  match a with
  | [] => 0
  | r :: _ => length r
  end.

(** [a.shape] of a two-dimensional array *)
Definition shape {A} (a : list (list A)) : nat * nat := (length a, ncols a).

(** [np.pad(l, n, mode='edge')] along one axis *)
Definition pad_edge1 {A} (n : nat) (l : list A) : list A :=
  match l with
  | [] => []
  | x :: _ => replicate n x ++ l ++ replicate n (List.last l x)
  end.

(** [np.pad(a, n, mode='edge')] *)
Definition pad_edge {A} (n : nat) (a : list (list A)) : list (list A) :=
  pad_edge1 n (map (pad_edge1 n) a).

(** Element-wise lifting; NaN is absorbing. *)
Definition cell_op2 (f : num -> num -> num) (x y : cell) : cell :=
  match x, y with
  | Some a, Some b => Some (f a b)
  | _, _ => None
  end.

Definition arr_zip (f : cell -> cell -> cell) (a b : array) : array :=
  zip_with (zip_with f) a b.
Definition arr_map (f : cell -> cell) (a : array) : array := map (map f) a.

Definition arr_sub : array -> array -> array := arr_zip (cell_op2 QS2.sub).
Definition arr_add : array -> array -> array := arr_zip (cell_op2 QS2.add).
(** [k * a] and [a / k] for a scalar [k] *)
Definition arr_scale (k : num) : array -> array :=
  arr_map (option_map (QS2.mul k)).
Definition arr_div (a : array) (k : num) : array :=
  arr_map (option_map (fun v => QS2.div v k)) a.
Definition arr_abs : array -> array := arr_map (option_map QS2.abs).

Definition isnan (c : cell) : bool :=
  match c with
  | None => true
  | Some _ => false
  end.

(** [a[np.isnan(z)] = np.nan] *)
Definition mask_nan (a z : array) : array :=
  arr_zip (fun c zc => if isnan zc then None else c) a z.

(** [a[a == v] = np.nan] *)
Definition mask_value (a : array) (v : num) : array :=
  arr_map (fun c => match c with
                    | Some x => if QS2.eqb x v then None else Some x
                    | None => None
                    end) a.

(** Python's [max(a, b)] on numbers: [b] wins only when [b > a]. *)
Definition py_max (a b : num) : num := if QS2.ltb a b then b else a.

(** [np.nanmax(a)]: the largest defined cell; NaN ([None]) when there is
    none. *)
Definition nanmax (a : array) : cell :=
  foldr (fun c acc =>
           match c, acc with
           | Some v, Some m => Some (if QS2.ltb m v then v else m)
           | Some v, None => Some v
           | None, _ => acc
           end) None (concat a).

(** [np.full_like(a, np.nan)] *)
Definition full_nan {A} (a : list (list A)) : array :=
  map (fun r => replicate (length r) None) a.

(** [dst[r0:r1, c0:c1] = src] with NumPy's broadcasting rule: along each
    axis the source length equals the target length or is one. *)
Definition broadcastable (src tgt : nat) : bool :=
  (src =? tgt)%nat || (src =? 1)%nat.

Definition assign_block (dst : array) (r0 r1 c0 c1 : Z) (src : array)
  : result array :=
  let '(ny, nx) := shape dst in
  let rs := norm_index ny r0 in let re := norm_index ny r1 in
  let cs := norm_index nx c0 in let ce := norm_index nx c1 in
  let '(sr, sc) := shape src in
  if broadcastable sr (re - rs) && broadcastable sc (ce - cs) then
    Ok (imap (fun i row =>
                if (rs <=? i)%nat && (i <? re)%nat then
                  imap (fun j x =>
                          if (cs <=? j)%nat && (j <? ce)%nat then
                            default None
                              (src !! (if (sr =? 1)%nat then O else i - rs)
                                 ≫= (fun r => r !! (if (sc =? 1)%nat then O else j - cs)))
                          else x) row
                else row) dst)
  else Raise (ValueError "could not broadcast input array").

(** Python's [round] (ties go to the even integer). *)
Definition py_round (q : Q) : Z :=
  let f := Qfloor q in
  match ((q - inject_Z f) ?= (1 # 2))%Q with
  | Lt => f
  | Gt => (f + 1)%Z
  | Eq => if Z.even f then f else (f + 1)%Z
  end.

(** ** Rasters *)

(** [rasterio]'s affine transform: [a] is the pixel width, [e] the (signed)
    pixel height, [(c, f)] the origin. *)
Record affine : Type := mkAffine {
  aff_a : Q; aff_b : Q; aff_c : Q;
  aff_d : Q; aff_e : Q; aff_f : Q
}.

Record raster : Type := mkRaster {
  band1 : array;
  transform : affine;
  crs : string
}.

(** ** [utils.compute_topographic_curvature]: the numerical part *)

(** Lines 141-144: the sample offset. [L / deltaxy] raises on a zero
    divisor. The quotient is the exact rational; the rounding of the
    binary64 division is not modelled. *)
Definition compute_inc (L : Q) (tr : affine) : result Z :=
  let deltax := aff_a tr in
  let deltay := (- aff_e tr)%Q in
  let deltaxy := ((1 # 2) * (deltax + deltay))%Q in
  if Qeq_bool deltaxy 0 then Raise ZeroDivisionError
  else Ok (Z.max 1 (py_round (L / deltaxy)%Q)).

Definition min_shape (shapes : list (nat * nat)) : nat * nat :=
  match shapes with
  | [] => (O, O)
  | s :: rest =>
      foldl (fun acc x => (Nat.min acc.1 x.1, Nat.min acc.2 x.2)) s rest
  end.

(** Lines 137-178: from the band read from the DEM to [full_curv]. *)
Definition curvature_array (dem0 : array) (tr : affine) (L : Q)
    (dem_nodata : option Q) : result array :=
  let dem := match dem_nodata with
             | Some nd => mask_value dem0 (QS2.of_Q nd)
             | None => dem0
             end in
  let '(ny, nx) := shape dem in
  let deltax := aff_a tr in
  let deltay := (- aff_e tr)%Q in
  let deltaxy := ((1 # 2) * (deltax + deltay))%Q in
  rbind (compute_inc L tr) (fun inc =>
  if ((ny =? 0)%nat || (nx =? 0)%nat)%bool
  then Raise (ValueError "can't extend empty axis using modes other than 'constant' or 'empty'")
  else
  let dem_pad := pad_edge (Z.to_nat inc) dem in
  (* Prepare shifted arrays *)
  let z   := py_slice2 inc (- inc) inc (- inc) dem_pad in
  let zW  := py_slice2 inc (- inc) (inc - inc) (- 2 * inc) dem_pad in
  let zE  := py_slice2 inc (- inc) (inc + inc) (2 * inc + inc) dem_pad in
  let zS  := py_slice2 (inc + inc) (2 * inc + inc) inc (- inc) dem_pad in
  let zN  := py_slice2 (inc - inc) (- 2 * inc) inc (- inc) dem_pad in
  let zSW := py_slice2 (inc + inc) (2 * inc + inc) (inc - inc) (- 2 * inc) dem_pad in
  let zNE := py_slice2 (inc - inc) (- 2 * inc) (inc + inc) (2 * inc + inc) dem_pad in
  let zNW := py_slice2 (inc - inc) (- 2 * inc) (inc - inc) (- 2 * inc) dem_pad in
  let zSE := py_slice2 (inc + inc) (2 * inc + inc) (inc + inc) (2 * inc + inc) dem_pad in
  (* Align shapes *)
  let common_shape := min_shape (map shape [z; zW; zE; zS; zN; zSW; zNE; zNW; zSE]) in
  let crop (arr : array) : array :=
    py_slice2 0 (Z.of_nat common_shape.1) 0 (Z.of_nat common_shape.2) arr in
  let z := crop z in let zW := crop zW in let zE := crop zE in
  let zS := crop zS in let zN := crop zN in
  let zSW := crop zSW in let zNE := crop zNE in
  let zNW := crop zNW in let zSE := crop zSE in
  (* Compute curvature *)
  let four := QS2.of_Q 4 in
  let c_diag :=
    arr_div (arr_sub (arr_sub (arr_sub (arr_sub (arr_scale four z) zSW) zNE) zNW) zSE)
            (QS2.mul (QS2.mul (QS2.mul QS2.sqrt2 (QS2.of_Q 16)) (QS2.of_Q (inject_Z inc)))
                     (QS2.of_Q deltaxy)) in
  let c_cross :=
    arr_div (arr_sub (arr_sub (arr_sub (arr_sub (arr_scale four z) zW) zE) zN) zS)
            (QS2.of_Q (16 * inject_Z inc * deltaxy)%Q) in
  let curvature := arr_add c_diag c_cross in
  let curvature := mask_nan curvature z in
  let curve_max :=
    match nanmax (arr_abs curvature) with
    | Some m => py_max (QS2.of_Q (1 # 1000)) m
    | None => QS2.of_Q (1 # 1000)
    end in
  let curvature := arr_div curvature (QS2.mul (QS2.of_Q 2) curve_max) in
  (* Embed curvature into full DEM shape *)
  let full_curv := full_nan dem in
  let valid_shape := shape curvature in
  assign_block full_curv inc (inc + Z.of_nat valid_shape.1)
                         inc (inc + Z.of_nat valid_shape.2) curvature).

(** ** The outside world: files, directories, standard output *)

(** An [xarray.DataArray] with named dimensions, coordinates and
    attributes; the data is time-major. *)
Record DataArray : Type := mkDataArray {
  da_data : list array;
  da_dims : list string;
  da_time : list Z;
  da_y : list Q;
  da_x : list Q;
  da_attrs : gmap string string
}.

Record Dataset : Type := mkDataset {
  ds_vars : gmap string DataArray;
  ds_transform : option affine;
  ds_crs : option string
}.

Inductive file : Type :=
  | RasterFile (r : raster)
  | NetCDFFile (ds : Dataset)
  | JsonFile (j : json)
  | OtherFile.

Record World : Type := mkWorld {
  files : gmap string file;
  dirs : gset string;
  stdout : list string
}.

Definition print (line : string) : M World unit :=
  fun w => (Ok tt, mkWorld (files w) (dirs w) (stdout w ++ [line])).

(** [os.path.exists] *)
Definition path_exists (p : string) (w : World) : bool :=
  bool_decide (is_Some (files w !! p)) || bool_decide (p ∈ dirs w).

(** [os.makedirs(p, exist_ok=True)]: an existing regular file at [p] is an
    error; the empty path is an error. Only [p] itself is looked at and
    recorded: the model agrees with [os.makedirs] on success and failure in
    the worlds where no regular file stands on the way to [p], and it does
    not record the parent directories that are created with [p]. *)
Definition makedirs (p : string) : M World unit :=
  fun w =>
    if String.eqb p "" then (Raise (FileNotFoundError p), w)
    else match files w !! p with
         | Some _ => (Raise (FileExistsError p), w)
         | None => (Ok tt, mkWorld (files w) ({[p]} ∪ dirs w) (stdout w))
         end.

(** [with rasterio.open(p) as src]: band 1, transform and metadata *)
Definition rasterio_read (p : string) : M World raster :=
  fun w => match files w !! p with
           | Some (RasterFile r) => (Ok r, w)
           | _ => (Raise (RasterioIOError p), w)
           end.

(** [with rasterio.open(p, 'w', **meta) as dst: dst.write(band, 1)]: the
    file is created and written in one step; a write that fails half-way
    is not modelled. *)
Definition rasterio_write (p : string) (r : raster) : M World unit :=
  fun w => (Ok tt, mkWorld (<[p := RasterFile r]> (files w)) (dirs w) (stdout w)).

(** ** [utils.create_full_micromet_folder_structure] *)

Local Open Scope py_scope.

Definition create_full_micromet_folder_structure (base_path : string)
  : M World unit :=
  makedirs (path_join base_path "inputs/climate");;;
  makedirs (path_join base_path "inputs/dem");;;
  makedirs (path_join base_path "outputs");;;
  print "Micromet folder structure created successfully.".

(** ** [utils.compute_topographic_curvature] *)

Definition curvature_output_dir (working_directory : string) : string :=
  path_join3 working_directory "inputs" "dem".
Definition curvature_path_of (working_directory : string) : string :=
  path_join (curvature_output_dir working_directory) "curvature.tif".

Definition compute_topographic_curvature (dem_path working_directory : string)
    (L : Q) (dem_nodata : option Q) : M World string :=
  let output_dir := path_join3 working_directory "inputs" "dem" in
  makedirs output_dir;;;
  let curvature_path := path_join output_dir "curvature.tif" in
  fun w =>
  if path_exists curvature_path w then
    (print ("Curvature already exists at " ++ curvature_path ++ ". Skipping.");;;
     ret curvature_path) w
  else
    (src <- rasterio_read dem_path;;
     full_curv <- lift (curvature_array (band1 src) (transform src) L dem_nodata);;
     rasterio_write curvature_path (mkRaster full_curv (transform src) (crs src));;;
     print ("Curvature saved to " ++ curvature_path);;;
     ret curvature_path) w.

(** ** [utils.write_downscaled_to_netcdf] *)

(** [np.arange(n) * step + origin + step / 2] *)
Definition pixel_centers (n : nat) (step origin : Q) : list Q :=
  map (fun i : nat => (inject_Z (Z.of_nat i) * step + origin + step / 2)%Q) (seq 0 n).

(** The stacked data has exactly the shape the coordinates announce. *)
Definition has_shape3 (nt ny nx : nat) (data : list array) : bool :=
  (length data =? nt)%nat &&
  forallb (fun fr => (length fr =? ny)%nat &&
                     forallb (fun row => (length row =? nx)%nat) fr) data.

(** [os.path.dirname] *)
Definition dirname (p : string) : string :=
  let parts := split_on slash p in
  let d := String.concat "/" (removelast parts) in
  if String.eqb d "" then (if starts_with_slash p then "/" else "") else d.

(** One iteration of the loop over [variables_dict.items()]. *)
Definition make_data_array (time_list : list Z) (y_coords x_coords : list Q)
    (data_list : list (list array)) (units description : string)
  : result DataArray :=
  match data_list with
  | [] => Raise (ValueError "need at least one array to concatenate")
  | _ =>
      let data_stack := concat data_list in
      if has_shape3 (length time_list) (length y_coords) (length x_coords) data_stack
      then Ok (mkDataArray data_stack ["time"; "y"; "x"] time_list y_coords x_coords
                 (<["units" := units]> (<["description" := description]> ∅)))
      else Raise (ValueError "conflicting sizes for dimensions")
  end.

Fixpoint build_dataset_vars (time_list : list Z) (y_coords x_coords : list Q)
    (items : list (string * (list (list array) * string * string)))
    (dataset_vars : gmap string DataArray) : result (gmap string DataArray) :=
  match items with
  | [] => Ok dataset_vars
  | (var_name, (data_list, units, description)) :: rest =>
      rbind (make_data_array time_list y_coords x_coords data_list units description)
            (fun da => build_dataset_vars time_list y_coords x_coords rest
                         (<[var_name := da]> dataset_vars))
  end.

(** [ds.to_netcdf(p)]: fails on a directory, otherwise creates or replaces
    the file in one step; a write that fails half-way is not modelled. *)
Definition to_netcdf (p : string) (ds : Dataset) : M World unit :=
  fun w =>
    if bool_decide (p ∈ dirs w) then (Raise (IsADirectoryError p), w)
    else (Ok tt, mkWorld (<[p := NetCDFFile ds]> (files w)) (dirs w) (stdout w)).

Definition write_downscaled_to_netcdf
    (variables_dict : list (string * (list (list array) * string * string)))
    (time_list : list Z) (dem_shape : nat * nat) (dem_transform : affine)
    (dem_crs : string) (out_nc : string) : M World unit :=
  let '(height, width) := dem_shape in
  let x_coords := pixel_centers width (aff_a dem_transform) (aff_c dem_transform) in
  let y_coords := pixel_centers height (aff_e dem_transform) (aff_f dem_transform) in
  dataset_vars <- lift (build_dataset_vars time_list y_coords x_coords variables_dict ∅);;
  let ds_out := mkDataset dataset_vars None None in
  let ds_out := mkDataset (ds_vars ds_out) (Some dem_transform) (ds_crs ds_out) in
  let ds_out := mkDataset (ds_vars ds_out) (ds_transform ds_out) (Some dem_crs) in
  makedirs (dirname out_nc);;;
  to_netcdf out_nc ds_out;;;
  print ("
Saved NetCDF: " ++ out_nc).

(** ** [utils.load_config], [utils.compute_slope_aspect] and
       [main_micromet.run_micropezzomet] *)

Definition load_config (config_path : string) : M World json :=
  fun w => match files w !! config_path with
           | Some (JsonFile j) => (Ok j, w)
           | Some _ => (Raise (ValueError "JSONDecodeError"), w)
           | None => (Raise (FileNotFoundError config_path), w)
           end.

(** [d[k]] *)
Definition dict_item (d : json) (k : string) : result json :=
  match d with
  | JObj m => match m !! k with
              | Some v => Ok v
              | None => Raise (KeyError k)
              end
  | _ => Raise TypeError
  end.

(** A configuration entry used as a path must be a string. *)
Definition as_str (v : json) : result string :=
  match v with
  | JStr s => Ok s
  | _ => Raise TypeError
  end.

(** [s] between double quotes, as in the [gdaldem] command lines. *)
Definition quoted (s : string) : string :=
  let q := String (Ascii.ascii_of_nat 34) EmptyString in q ++ s ++ q.

Definition is_none (v : json) : bool :=
  match v with
  | JNull => true
  | _ => false
  end.

Section Main.
(** What the two modules call but do not define: the shell ([os.system]
    running [gdaldem]), the ERA5 download, [glob] and [joblib.Parallel],
    and the five operators of [downscaling_variables]. *)
Variable os_system : string -> M World Z.
Variable get_era5 :
  json -> json -> json -> string -> json -> json -> bool -> M World unit.
Variable sorted_glob : string -> M World (list string).
Variable Parallel : json -> list (M World unit) -> M World unit.
Variable downscale_Temperature :
  string -> string -> string -> json -> json -> M World unit.
Variable downscale_SW :
  string -> string -> string -> Q -> Q -> json -> json -> M World unit.
Variable downscale_RH :
  string -> string -> string -> json -> json -> M World unit.
Variable downscale_Precipitation :
  string -> string -> string -> json -> json -> M World unit.
Variable downscale_Wind :
  string -> string -> string -> Q -> json -> M World unit.

Definition compute_slope_aspect (dem_path working_directory : string)
  : M World (string * string) :=
  let output_dir := path_join3 working_directory "inputs" "dem" in
  makedirs output_dir;;;
  let slope_path := path_join output_dir "slope.tif" in
  let aspect_path := path_join output_dir "aspect.tif" in
  let slope_cmd := "gdaldem slope " ++ quoted dem_path ++ " " ++ quoted slope_path ++ " -of GTiff" in
  let aspect_cmd := "gdaldem aspect " ++ quoted dem_path ++ " " ++ quoted aspect_path ++ " -of GTiff" in
  slope_status <- os_system slope_cmd;;
  aspect_status <- os_system aspect_cmd;;
  (if (slope_status =? 0)%Z && (aspect_status =? 0)%Z
   then print ("Slope and aspect successfully saved in " ++ output_dir)
   else print "Error running gdaldem commands");;;
  ret (slope_path, aspect_path).

(** Lines 52-86 of [run_micropezzomet]: reading the configuration, the
    folder structure, the optional download and the terrain derivatives.
    The values needed by the fan-out are returned. *)
Definition terrain_stage (config : json)
  : M World (string * string * json * json) :=
  dem_nodata <- lift (dict_get config "dem_nodata" JNull);;
  working_directory <- lift (dict_item config "working_directory");;
  start_date <- lift (dict_item config "start_date");;
  end_date <- lift (dict_item config "end_date");;
  dem_path <- lift (dict_item config "dem_file");;
  era_path <- lift (dict_item config "era_file");;
  pat_token <- lift (dict_item config "earthdatahub_pat");;
  time_step <- lift (dict_item config "time_step");;
  jobs_downscaling <- lift (dict_item config "jobs_parallel_downscale");;
  jobs_download <- lift (dict_item config "jobs_parallel_download");;
  dem_nodata <- lift (dict_get config "dem_nodata" JNull);;
  working_directory <- lift (as_str working_directory);;
  create_full_micromet_folder_structure working_directory;;;
  (if is_none era_path then
     print "Downloading ERA5-Land data...";;;
     let aggregate_daily := py_eq_str time_step "24H" in
     get_era5 start_date end_date dem_path
              (path_join working_directory "inputs/climate")
              pat_token jobs_download aggregate_daily
   else ret tt);;;
  dem_path <- lift (as_str dem_path);;
  compute_slope_aspect dem_path working_directory;;;
  compute_topographic_curvature dem_path working_directory 1000 None;;;
  ret (dem_path, working_directory, jobs_downscaling, dem_nodata).

Definition run_micropezzomet (config_path : string) : M World unit :=
  config <- load_config config_path;;
  prepared <- terrain_stage config;;
  let '(dem_path, working_directory, jobs_downscaling, dem_nodata) := prepared in
  climate_files <-
    sorted_glob (path_join3 working_directory "inputs/climate" "*.nc");;
  variables_to_downscale <- lift (dict_item config "variables_to_downscale");;
  custom_lapse_rates <- lift (dict_get config "custom_lapse_rates" (JObj ∅));;
  Parallel jobs_downscaling
    (map (fun f =>
            run_month downscale_Temperature downscale_SW downscale_RH
              downscale_Precipitation downscale_Wind
              f dem_path working_directory
              variables_to_downscale custom_lapse_rates dem_nodata)
         climate_files).

End Main.

(** ** Vocabulary of the statements *)

(** The computation raises. *)
Definition fails {W A} (m : M W A) (w : W) : Prop :=
  exists e w', m w = (Raise e, w').

(** The names of the five enable flags read by [run_month]. *)
Definition variable_flags : list string :=
  ["t_air"; "sw_radiation"; "relative_humidity"; "precipitation"; "wind"].

(** The file name has the three underscore-separated fields [run_month]
    indexes. *)
Definition filename_ok (curr_climate_file : string) : bool :=
  (3 <=? length (split_on underscore (basename curr_climate_file)))%nat.


(** Operators that only record the output folder they are given: an
    instance of the five operators on which [run_month] can be run. *)
Definition rec_T (dem f folder : string) (lr nd : json) : M (list string) unit :=
  fun log => (Ok tt, (log ++ [folder])%list).
Definition rec_SW (dem f folder : string) (z_700 S0 : Q) (lr nd : json)
  : M (list string) unit :=
  fun log => (Ok tt, (log ++ [folder])%list).
Definition rec_Wind (dem f folder : string) (slope_weight : Q) (nd : json)
  : M (list string) unit :=
  fun log => (Ok tt, (log ++ [folder])%list).

Definition flags_of (t_air sw rh p wind : string) : gmap string json :=
  <["t_air" := JStr t_air]> (<["sw_radiation" := JStr sw]>
  (<["relative_humidity" := JStr rh]> (<["precipitation" := JStr p]>
  (<["wind" := JStr wind]> ∅)))).

(** The sample offset as the specification words it:
    [max(1, round(L / meanCellSize))] with [meanCellSize] the average of
    the absolute pixel width and the absolute pixel height. *)
Definition mean_cell_size_spec (tr : affine) : Q :=
  (Qabs (aff_a tr) + Qabs (aff_e tr)) / 2.
Definition inc_spec (L : Q) (tr : affine) : Z :=
  Z.max 1 (py_round (L / mean_cell_size_spec tr)).

(** The world after a run of [compute_topographic_curvature] that found
    its output in place: the directory is registered and one line is
    printed; no file is touched. *)
Definition after_cached_run (wd : string) (w : World) : World :=
  mkWorld (files w) ({[curvature_output_dir wd]} ∪ dirs w)
    (stdout w ++ ["Curvature already exists at " ++ curvature_path_of wd ++ ". Skipping."]).

(** A small world for examples: a 4 x 4 DEM with unit pixels at
    [dem.tif], nothing else. *)
Definition ex_transform : affine := mkAffine 1 0 0 0 (-1) 0.
Definition ex_cell (q : Q) : cell := Some (QS2.of_Q q).
Definition ex_dem : array :=
  [[ex_cell 1; ex_cell 2; ex_cell 3; ex_cell 4];
   [ex_cell 5; ex_cell 9; ex_cell 7; ex_cell 8];
   [ex_cell 9; ex_cell 10; ex_cell 11; ex_cell 12];
   [ex_cell 13; ex_cell 14; ex_cell 15; ex_cell 16]].
Definition ex_world : World :=
  mkWorld {["dem.tif" := RasterFile (mkRaster ex_dem ex_transform "EPSG:32632")]} ∅ [].

(** The result of [terrain_stage] without the [dem_nodata] it hands on to
    the fan-out. *)
Definition forget_nodata (r : result (string * string * json * json))
  : result (string * string * json) :=
  match r with
  | Ok (dem_path, working_directory, jobs, _) => Ok (dem_path, working_directory, jobs)
  | Raise e => Raise e
  end.

(** Two outcomes that agree on the world and, up to [dem_nodata], on the
    result. *)
Definition same_but_nodata
    (x y : result (string * string * json * json) * World) : Prop :=
  x.2 = y.2 /\ forget_nodata x.1 = forget_nodata y.1.

(** A configuration with a nodata sentinel, a DEM with kilometre pixels
    that holds the sentinel in one cell, and externals that do nothing
    (the shell reports success). *)
Definition ex_km_transform : affine := mkAffine 1000 0 0 0 (-1000) 0.
Definition ex_dem_nodata : array :=
  [[ex_cell 100; ex_cell 200]; [ex_cell 300; ex_cell (-9999)]].
Definition ex_world_nodata : World :=
  mkWorld {["dem.tif" := RasterFile (mkRaster ex_dem_nodata ex_km_transform "EPSG:32632")]}
          ∅ [].
Definition ex_config : gmap string json :=
  <["working_directory" := JStr "/wd"]> (<["start_date" := JStr "2020-01-01"]>
  (<["end_date" := JStr "2020-01-31"]> (<["dem_file" := JStr "dem.tif"]>
  (<["era_file" := JStr "era"]> (<["earthdatahub_pat" := JNull]>
  (<["time_step" := JStr "1H"]> (<["jobs_parallel_downscale" := JNum 1]>
  (<["jobs_parallel_download" := JNum 1]> (<["dem_nodata" := JNum (-9999)]> ∅))))))))).
Definition ex_os_system (cmd : string) : M World Z := ret 0%Z.
Definition ex_get_era5 (start_date end_date refrence_area_path : json)
    (output_dir : string) (PAT jobs_download : json) (aggregate_daily : bool)
  : M World unit := ret tt.

(** Every cell of a two-dimensional array satisfies [P]. *)
Definition All2d {A} (P : A -> Prop) (a : list (list A)) : Prop :=
  Forall (Forall P) a.

(** [a[i, j]], when in range. *)
Definition get2 {A} (a : list (list A)) (i j : nat) : option A :=
  a !! i ≫= (fun r => r !! j).

(** A cell is NaN or lies in [[-1/2, 1/2]]. *)
Definition within_half (c : cell) : Prop :=
  match c with
  | Some v => (- (1 / 2) <= QS2.toR v <= 1 / 2)%R
  | None => True
  end.

(** A flat 4 x 4 DEM with kilometre pixels. *)
Definition ex_flat_dem : array :=
  replicate 4 (replicate 4 (ex_cell 250)).
Definition ex_flat_world : World :=
  mkWorld {["dem.tif" := RasterFile (mkRaster ex_flat_dem ex_km_transform "EPSG:32632")]}
          ∅ [].

(** One variable with two time steps on a 2 x 3 grid. *)
Definition ex_frame (q : Q) : array :=
  [[ex_cell q; ex_cell q; ex_cell q]; [ex_cell q; ex_cell q; ex_cell q]].
Definition ex_variables : list (string * (list (list array) * string * string)) :=
  [("t_air", ([[ex_frame 1]; [ex_frame 2]], "degC", "Downscaled air temperature"))].

(** ** More vocabulary *)

(** A rectangular array of [h] rows and [w] columns. *)
Definition rect {A} (a : list (list A)) (h w : nat) : Prop :=
  length a = h /\ Forall (fun r => length r = w) a.

(** The DEM as the stencil sees it: the sentinel, when given, replaced by
    NaN (lines 137-138 of [utils.py]). *)
Definition masked_dem (dem0 : array) (dem_nodata : option Q) : array :=
  match dem_nodata with
  | Some nd => mask_value dem0 (QS2.of_Q nd)
  | None => dem0
  end.

(** A cell that is NaN or holds the nodata sentinel. *)
Definition is_nodata (dem_nodata : option Q) (c : cell) : Prop :=
  match c with
  | None => True
  | Some v => exists q, dem_nodata = Some q /\ QS2.eqb v (QS2.of_Q q) = true
  end.

(** A DEM that is nodata throughout, with kilometre pixels. *)
Definition ex_void_dem : array := replicate 2 (replicate 2 (ex_cell (-9999))).

(** A shell in which every command fails with status 1. *)
Definition ex_os_system_failing (cmd : string) : M World Z := ret 1%Z.

(** The three folders of [create_full_micromet_folder_structure]. *)
Definition micromet_folders (base_path : string) : list string :=
  [path_join base_path "inputs/climate";
   path_join base_path "inputs/dem";
   path_join base_path "outputs"].

(** The keys [run_micropezzomet] reads with [config[...]] before it
    touches the file system, in the order it reads them. *)
Definition required_keys : list string :=
  ["working_directory"; "start_date"; "end_date"; "dem_file"; "era_file";
   "earthdatahub_pat"; "time_step"; "jobs_parallel_downscale";
   "jobs_parallel_download"].



(** Something other than a JSON object. *)
Definition not_an_object (v : json) : Prop :=
  match v with
  | JObj _ => False
  | _ => True
  end.

Fixpoint contains_slash (s : string) : bool :=
  match s with
  | EmptyString => false
  | String a s' => Ascii.eqb a slash || contains_slash s'
  end.

(** An operator that raises after leaving a trace. *)
Definition rec_failing (dem f folder : string) (lr nd : json) : M (list string) unit :=
  fun log => (Raise (ValueError "operator failed"), (log ++ [folder])%list).

(** Operators on [World] that do nothing. *)
Definition rec_skip (dem f folder : string) (lr nd : json) : M World unit := ret tt.
Definition rec_skip_sw (dem f folder : string) (z_700 S0 : Q) (lr nd : json)
  : M World unit := ret tt.
Definition rec_skip_wind (dem f folder : string) (slope_weight : Q) (nd : json)
  : M World unit := ret tt.

(** ** The curvature of one pixel

    The vectorised code of lines 146-173, read at one pixel: the nine
    shifted arrays are nine samples of the padded DEM, and the padded DEM
    repeats the border cells of the DEM. *)

(** [deltaxy] of lines 141-143. *)
Definition cell_size (tr : affine) : Q := ((1 # 2) * (aff_a tr + - aff_e tr))%Q.

(** The index inside an axis of [n] cells that is nearest to [k]. *)
Definition clamp (n : nat) (k : Z) : nat :=
  Z.to_nat (Z.max 0 (Z.min k (Z.of_nat n - 1))).

(** The cell that [np.pad(dem, inc, mode='edge')] holds for row [r] and
    column [c] of the DEM grid, inside the DEM or in the padding. *)
Definition sample (dem : array) (r c : Z) : cell :=
  default None (get2 dem (clamp (length dem) r) (clamp (ncols dem) c)).

(** Lines 166-170 on the nine samples of one pixel. *)
Definition stencil (inc : Z) (deltaxy : Q)
    (z zW zE zS zN zSW zNE zNW zSE : cell) : cell :=
  let four := QS2.of_Q 4 in
  let minus := cell_op2 QS2.sub in
  let c_diag :=
    option_map
      (fun v => QS2.div v
                  (QS2.mul (QS2.mul (QS2.mul QS2.sqrt2 (QS2.of_Q 16))
                                    (QS2.of_Q (inject_Z inc)))
                           (QS2.of_Q deltaxy)))
      (minus (minus (minus (minus (option_map (QS2.mul four) z) zSW) zNE) zNW) zSE) in
  let c_cross :=
    option_map
      (fun v => QS2.div v (QS2.of_Q (16 * inject_Z inc * deltaxy)%Q))
      (minus (minus (minus (minus (option_map (QS2.mul four) z) zW) zE) zN) zS) in
  let curvature := cell_op2 QS2.add c_diag c_cross in
  if isnan z then None else curvature.

(** The raw curvature of the pixel at row [i], column [j]: the pixel and
    its eight neighbours [inc] cells away (rows grow southwards). *)
Definition pixel_curvature (dem : array) (inc : Z) (deltaxy : Q) (i j : nat)
  : cell :=
  let s (di dj : Z) :=
    sample dem (Z.of_nat i + di * inc) (Z.of_nat j + dj * inc) in
  stencil inc deltaxy
    (s 0 0)%Z (s 0 (-1))%Z (s 0 1)%Z (s 1 0)%Z (s (-1) 0)%Z
    (s 1 (-1))%Z (s (-1) 1)%Z (s (-1) (-1))%Z (s 1 1)%Z.

(** The raw curvature of the pixels of the first [h] rows and [w]
    columns. *)
Definition raw_block (dem : array) (inc : Z) (deltaxy : Q) (h w : nat) : array :=
  map (fun i => map (fun j => pixel_curvature dem inc deltaxy i j) (seq 0 w))
      (seq 0 h).

(** Line 172: [max(0.001, np.nanmax(np.abs(curvature)))]. *)
Definition curve_max (curvature : array) : num :=
  match nanmax (arr_abs curvature) with
  | Some m => py_max (QS2.of_Q (1 # 1000)) m
  | None => QS2.of_Q (1 # 1000)
  end.

(** Line 173 on one cell. *)
Definition normalise (m : num) (c : cell) : cell :=
  option_map (fun v => QS2.div v (QS2.mul (QS2.of_Q 2) m)) c.



(** No regular file stands at [p] or at a path that [p] extends by
    [/...]: in such a world [os.makedirs(p, exist_ok=True)] meets
    directories or nothing on its way and succeeds. *)
Definition no_file_on_the_way (p : string) (w : World) : Prop :=
  files w !! p = None /\
  forall q rest, p = q ++ "/" ++ rest -> files w !! q = None.

(** A world without files or directories. *)
Definition ex_empty_world : World := mkWorld ∅ ∅ [].
(** * Properties *)

(** ** The monad *)

Lemma fails_bind_l {W A B} (m : M W A) (k : A -> M W B) w :
  fails m w -> fails (bind m k) w.
Proof.
  intros (e & w' & H). exists e, w'. unfold bind. now rewrite H.
Qed.

Lemma fails_bind_r {W A B} (m : M W A) (k : A -> M W B) w :
  (forall a w', m w = (Ok a, w') -> fails (k a) w') -> fails (bind m k) w.
Proof.
  intros H. unfold fails, bind in *.
  destruct (m w) as [[a | e] w'] eqn:E; eauto.
Qed.

Lemma fails_lift_raise {W A} (r : result A) (w : W) e :
  r = Raise e -> fails (lift r) w.
Proof. intros ->. now exists e, w. Qed.

Lemma bind_lift_ok {W A B} (r : result A) (k : A -> M W B) a w :
  r = Ok a -> bind (lift r) k w = k a w.
Proof. now intros ->. Qed.

Lemma bind_lift_raise {W A B} (r : result A) (k : A -> M W B) e w :
  r = Raise e -> bind (lift r) k w = (Raise e, w).
Proof. now intros ->. Qed.

Lemma bind_lift_Ok {W A B} (a : A) (k : A -> M W B) w :
  bind (lift (Ok a)) k w = k a w.
Proof. reflexivity. Qed.

Lemma bind_ret_l {W A B} (a : A) (k : A -> M W B) w :
  bind (ret a) k w = k a w.
Proof. reflexivity. Qed.

Lemma bind_ret_r {W A} (m : M W A) w : bind m ret w = m w.
Proof. unfold bind, ret. now destruct (m w) as [[a | e] w']. Qed.

(** ** Flags *)

Lemma py_eq_str_true value s : py_eq_str value s = true <-> value = JStr s.
Proof.
  destruct value; simpl; try (split; [discriminate | discriminate]).
  rewrite String.eqb_eq. split; congruence.
Qed.

Lemma py_eq_str_false value s : py_eq_str value s = false <-> value <> JStr s.
Proof.
  rewrite <- py_eq_str_true. destruct (py_eq_str value s); split; congruence.
Qed.

Lemma parse_yes_no_flag_invalid value var_name :
  value <> JStr "y" -> value <> JStr "n" ->
  exists msg, parse_yes_no_flag value var_name = Raise (ValueError msg).
Proof.
  intros Hy Hn. unfold parse_yes_no_flag.
  apply py_eq_str_false in Hy, Hn. rewrite Hy, Hn. eauto.
Qed.

Lemma flag_enabled_obj (m : gmap string json) name :
  flag_enabled (JObj m) name
  = parse_yes_no_flag (default (JStr "n") (m !! name)) name.
Proof. reflexivity. Qed.

Lemma flag_enabled_y (m : gmap string json) name :
  m !! name = Some (JStr "y") -> flag_enabled (JObj m) name = Ok true.
Proof. intros H. rewrite flag_enabled_obj, H. reflexivity. Qed.

Lemma flag_enabled_n (m : gmap string json) name :
  m !! name = Some (JStr "n") -> flag_enabled (JObj m) name = Ok false.
Proof. intros H. rewrite flag_enabled_obj, H. reflexivity. Qed.

Lemma flag_enabled_absent (m : gmap string json) name :
  m !! name = None -> flag_enabled (JObj m) name = Ok false.
Proof. intros H. rewrite flag_enabled_obj, H. reflexivity. Qed.

Lemma flag_enabled_invalid (m : gmap string json) name v :
  m !! name = Some v -> v <> JStr "y" -> v <> JStr "n" ->
  exists msg, flag_enabled (JObj m) name = Raise (ValueError msg).
Proof.
  intros H Hy Hn. rewrite flag_enabled_obj, H. simpl.
  now apply parse_yes_no_flag_invalid.
Qed.

Lemma flag_enabled_insert_absent (m : gmap string json) k name :
  m !! k = None ->
  flag_enabled (JObj (<[k := JStr "n"]> m)) name = flag_enabled (JObj m) name.
Proof.
  intros H. rewrite !flag_enabled_obj.
  destruct (decide (k = name)) as [-> | Hne].
  - now rewrite lookup_insert_eq, H.
  - now rewrite lookup_insert_ne.
Qed.

Lemma py_index_ok {A} (l : list A) i :
  (i < length l)%nat -> exists x, py_index l i = Ok x.
Proof.
  intros H. unfold py_index.
  destruct (lookup_lt_is_Some_2 l i H) as [x ->]. eauto.
Qed.

Lemma py_index_raise {A} (l : list A) i :
  (length l <= i)%nat -> py_index l i = Raise IndexError.
Proof.
  intros H. unfold py_index. now rewrite (lookup_ge_None_2 l i H).
Qed.

(** ** [run_month] *)

Section RunMonthFacts.
Context {W : Type}.
Variable dT : string -> string -> string -> json -> json -> M W unit.
Variable dSW : string -> string -> string -> Q -> Q -> json -> json -> M W unit.
Variable dRH : string -> string -> string -> json -> json -> M W unit.
Variable dP : string -> string -> string -> json -> json -> M W unit.
Variable dWind : string -> string -> string -> Q -> json -> M W unit.

Lemma filename_ok_index f :
  filename_ok f = true ->
  exists month year,
    py_index (split_on underscore (basename f)) 2 = Ok month /\
    py_index (split_on underscore (basename f)) 1 = Ok year.
Proof.
  unfold filename_ok. intros H. apply Nat.leb_le in H.
  destruct (py_index_ok (split_on underscore (basename f)) 2) as [m Hm]; [lia |].
  destruct (py_index_ok (split_on underscore (basename f)) 1) as [y Hy]; [lia |].
  eauto.
Qed.

Lemma filename_bad_index f :
  filename_ok f = false ->
  py_index (split_on underscore (basename f)) 2 = Raise IndexError.
Proof.
  unfold filename_ok. intros H. apply Nat.leb_gt in H.
  apply py_index_raise. lia.
Qed.

(** A malformed file name stops the task before any flag is read. *)
Lemma run_month_bad_filename f dem wd vars clr nd w :
  filename_ok f = false ->
  run_month dT dSW dRH dP dWind f dem wd vars clr nd w = (Raise IndexError, w).
Proof.
  intros H. unfold run_month.
  now rewrite (bind_lift_raise _ _ _ _ (filename_bad_index f H)).
Qed.

(** The flags only matter through [flag_enabled]. *)
Lemma run_month_flags_ext f dem wd vars vars' clr nd w :
  (forall name, flag_enabled vars name = flag_enabled vars' name) ->
  run_month dT dSW dRH dP dWind f dem wd vars clr nd w
  = run_month dT dSW dRH dP dWind f dem wd vars' clr nd w.
Proof.
  intros H. unfold run_month. now rewrite !H.
Qed.

Lemma run_month_invalid_flag f dem wd (m : gmap string json) clr nd name v w :
  name ∈ variable_flags ->
  m !! name = Some v -> v <> JStr "y" -> v <> JStr "n" ->
  fails (run_month dT dSW dRH dP dWind f dem wd (JObj m) clr nd) w.
Proof.
  intros Hin Hv Hy Hn.
  destruct (flag_enabled_invalid m name v Hv Hy Hn) as [msg Hmsg].
  unfold variable_flags in Hin. unfold run_month.
  repeat (apply elem_of_cons in Hin as [-> | Hin]);
    [ .. | now apply elem_of_nil in Hin ];
    repeat first
      [ apply fails_bind_l; eapply fails_lift_raise; exact Hmsg
      | apply fails_bind_r; intros ? ? _ ].
Qed.

End RunMonthFacts.

(** C6. [parse_yes_no_flag] returns [True] exactly on the string ["y"],
    [False] exactly on the string ["n"], and raises [ValueError] on every
    other value; [run_month] applies it to each of the five enable flags, so
    a flag mapped to any other value makes the task raise instead of being
    read as enabled or disabled. *)
Theorem parse_yes_no_flag_two_valued :
  (forall value var_name,
      (parse_yes_no_flag value var_name = Ok true <-> value = JStr "y") /\
      (parse_yes_no_flag value var_name = Ok false <-> value = JStr "n") /\
      ((exists msg, parse_yes_no_flag value var_name = Raise (ValueError msg))
       <-> (value <> JStr "y" /\ value <> JStr "n"))) /\
  (forall (W : Type) dT dSW dRH dP dWind f dem wd (m : gmap string json)
          clr nd name v (w : W),
      name ∈ variable_flags ->
      m !! name = Some v -> v <> JStr "y" -> v <> JStr "n" ->
      fails (run_month dT dSW dRH dP dWind f dem wd (JObj m) clr nd) w).
Proof.
  split.
  - intros value var_name. unfold parse_yes_no_flag.
    destruct (py_eq_str value "y") eqn:Ey;
      [ apply py_eq_str_true in Ey
      | destruct (py_eq_str value "n") eqn:En;
        [ apply py_eq_str_true in En
        | apply py_eq_str_false in Ey, En ] ];
      subst;
      repeat split;
      try congruence; try discriminate;
      try (intros [? ?]; congruence); try (intros [? ?]; discriminate);
      try (match goal with H : ex _ |- _ => destruct H; discriminate end);
      eauto.
  - intros. eapply run_month_invalid_flag; eauto.
Qed.

Lemma bind_ret_tt {W} (m : M W unit) w : bind m (fun _ => ret tt) w = m w.
Proof. unfold bind, ret. now destruct (m w) as [[[] | e] w']. Qed.

(** C8. With [t_air] set to ["y"] and the four other flags set to ["n"],
    the whole effect of [run_month] on a monthly file is the effect of the
    single call of the temperature operator, whose output folder is
    [working_directory/outputs/Temperature]; no other operator runs. (A file
    name without the three underscore-separated fields raises before any
    operator.) *)
Theorem run_month_only_temperature :
  forall (W : Type) dT dSW dRH dP dWind f dem wd (m : gmap string json)
         clr nd (w : W),
    m !! "t_air" = Some (JStr "y") ->
    m !! "sw_radiation" = Some (JStr "n") ->
    m !! "relative_humidity" = Some (JStr "n") ->
    m !! "precipitation" = Some (JStr "n") ->
    m !! "wind" = Some (JStr "n") ->
    run_month dT dSW dRH dP dWind f dem wd (JObj m) clr nd w
    = if filename_ok f then
        bind (lift (monthly_override clr "temperature"))
             (fun lr => dT dem f (path_join3 wd "outputs" "Temperature") lr nd) w
      else (Raise IndexError, w).
Proof.
  intros W dT dSW dRH dP dWind f dem wd m clr nd w Ht Hsw Hrh Hp Hw.
  destruct (filename_ok f) eqn:Hf.
  - destruct (filename_ok_index f Hf) as (month & year & Hm & Hy).
    unfold run_month.
    rewrite (bind_lift_ok _ _ _ _ Hm), (bind_lift_ok _ _ _ _ Hy).
    rewrite (bind_lift_ok _ _ _ _ (flag_enabled_y m _ Ht)).
    rewrite (flag_enabled_n m _ Hsw), (flag_enabled_n m _ Hrh),
            (flag_enabled_n m _ Hp), (flag_enabled_n m _ Hw).
    apply bind_ret_tt.
  - now apply run_month_bad_filename.
Qed.

Lemma run_month_only_temperature_witness :
  run_month rec_T rec_SW rec_T rec_T rec_Wind
    "era5_2020_01.nc" "dem.tif" "/wd"
    (JObj (flags_of "y" "n" "n" "n" "n")) (JObj ∅) JNull []
  = (Ok tt, ["/wd/outputs/Temperature"]).
Proof.
  rewrite (run_month_only_temperature (list string) rec_T rec_SW rec_T rec_T rec_Wind
             "era5_2020_01.nc" "dem.tif" "/wd" (flags_of "y" "n" "n" "n" "n")
             (JObj ∅) JNull []); [reflexivity | reflexivity ..].
Defined.

(** With no flag at all the task reads the file name and does nothing. *)
Lemma run_month_no_flags {W} dT dSW dRH dP dWind f dem wd clr nd (w : W) :
  run_month dT dSW dRH dP dWind f dem wd (JObj ∅) clr nd w
  = if filename_ok f then (Ok tt, w) else (Raise IndexError, w).
Proof.
  destruct (filename_ok f) eqn:Hf.
  - destruct (filename_ok_index f Hf) as (month & year & Hm & Hy).
    unfold run_month.
    rewrite (bind_lift_ok _ _ _ _ Hm), (bind_lift_ok _ _ _ _ Hy).
    reflexivity.
  - now apply run_month_bad_filename.
Qed.

(** C9. A flag that is absent from [variables_to_downscale] is read as
    ["n"]: the variable is disabled ([flag_enabled] returns [False], no
    [KeyError]), and the task behaves exactly as if the key were present
    with the value ["n"]. *)
Theorem run_month_absent_flag_is_n :
  forall (W : Type) dT dSW dRH dP dWind f dem wd (m : gmap string json)
         clr nd k (w : W),
    m !! k = None ->
    flag_enabled (JObj m) k = Ok false /\
    run_month dT dSW dRH dP dWind f dem wd (JObj m) clr nd w
    = run_month dT dSW dRH dP dWind f dem wd (JObj (<[k := JStr "n"]> m)) clr nd w.
Proof.
  intros W dT dSW dRH dP dWind f dem wd m clr nd k w Hk. split.
  - now apply flag_enabled_absent.
  - apply run_month_flags_ext. intros name.
    symmetry. now apply flag_enabled_insert_absent.
Qed.

Lemma run_month_absent_flag_is_n_witness :
  flag_enabled (JObj {["t_air" := JStr "y"]}) "wind" = Ok false /\
  run_month rec_T rec_SW rec_T rec_T rec_Wind
    "era5_2020_01.nc" "dem.tif" "/wd"
    (JObj {["t_air" := JStr "y"]}) (JObj ∅) JNull []
  = run_month rec_T rec_SW rec_T rec_T rec_Wind
    "era5_2020_01.nc" "dem.tif" "/wd"
    (JObj (<["wind" := JStr "n"]> {["t_air" := JStr "y"]})) (JObj ∅) JNull [].
Proof.
  apply (run_month_absent_flag_is_n (list string) rec_T rec_SW rec_T rec_T rec_Wind
           "era5_2020_01.nc" "dem.tif" "/wd" {["t_air" := JStr "y"]}
           (JObj ∅) JNull "wind" []).
  reflexivity.
Defined.

Lemma parse_yes_no_flag_two_valued_witness :
  fails (run_month rec_T rec_SW rec_T rec_T rec_Wind
           "era5_2020_01.nc" "dem.tif" "/wd"
           (JObj (flags_of "y" "n" "yes" "n" "n")) (JObj ∅) JNull) [].
Proof.
  apply (proj2 parse_yes_no_flag_two_valued (list string)
           rec_T rec_SW rec_T rec_T rec_Wind
           "era5_2020_01.nc" "dem.tif" "/wd" (flags_of "y" "n" "yes" "n" "n")
           (JObj ∅) JNull "relative_humidity" (JStr "yes") []).
  - unfold variable_flags. set_solver.
  - reflexivity.
  - discriminate.
  - discriminate.
Defined.

(** ** The field Q(sqrt 2): the executable operations mean what they say *)

Lemma sqrt2_sq : (sqrt 2 * sqrt 2 = 2)%R.
Proof. apply sqrt_sqrt. lra. Qed.

Lemma sqrt2_pos : (0 < sqrt 2)%R.
Proof. apply sqrt_lt_R0. lra. Qed.

(** No rational squares to two: descent on the denominator. *)
Lemma square_eq_twice_square_Z (n : nat) :
  forall p q : Z, (Z.abs q < Z.of_nat n)%Z -> (p * p = 2 * (q * q))%Z -> q = 0%Z.
Proof.
  induction n as [| n IH]; intros p q Hlt Heq; [lia |].
  assert (Hp : Z.even p = true).
  { assert (H : Z.even (p * p) = true)
      by (rewrite Heq, Z.even_mul; reflexivity).
    rewrite Z.even_mul in H. now destruct (Z.even p). }
  apply Z.even_spec in Hp as [p' ->].
  assert (Heq' : (q * q = 2 * (p' * p'))%Z) by lia.
  assert (Hq : Z.even q = true).
  { assert (H : Z.even (q * q) = true)
      by (rewrite Heq', Z.even_mul; reflexivity).
    rewrite Z.even_mul in H. now destruct (Z.even q). }
  apply Z.even_spec in Hq as [q' ->].
  destruct (Z.eq_dec q' 0%Z) as [-> | Hne]; [reflexivity |].
  assert (q' = 0%Z); [| lia].
  apply (IH p' q'); lia.
Qed.

Lemma square_eq_twice_square_Q (a b : Q) :
  a * a == 2 * (b * b) -> b == 0.
Proof.
  destruct a as [an ad], b as [bn bd]. unfold Qeq. simpl. intros H.
  assert (Hz : (bn * Z.pos ad = 0)%Z).
  { apply (square_eq_twice_square_Z (S (Z.to_nat (Z.abs (bn * Z.pos ad))))
             (an * Z.pos bd)%Z); [lia |].
    rewrite !Pos2Z.inj_mul in H. nia. }
  nia.
Qed.

Lemma QS2_norm_zero (x : QS2.t) :
  QS2.norm x == 0 -> QS2.rat x == 0 /\ QS2.irr x == 0.
Proof.
  unfold QS2.norm. intros H.
  assert (Hab : QS2.rat x * QS2.rat x == 2 * (QS2.irr x * QS2.irr x)).
  { rewrite <- (Qplus_0_l (2 * _)), <- H. ring. }
  assert (Hb : QS2.irr x == 0) by (eapply square_eq_twice_square_Q; eauto).
  split; [| exact Hb].
  rewrite Hb in Hab.
  assert (Ha : QS2.rat x * QS2.rat x == 0) by (rewrite Hab; ring).
  apply Qmult_integral in Ha. tauto.
Qed.

Lemma Q2R_Qred (q : Q) : Q2R (Qred q) = Q2R q.
Proof. apply Qeq_eqR, Qred_correct. Qed.

Lemma QS2_toR_of_Q (q : Q) : QS2.toR (QS2.of_Q q) = Q2R q.
Proof.
  unfold QS2.toR, QS2.of_Q. simpl. rewrite Q2R_Qred.
  replace (Q2R 0) with 0%R by (unfold Q2R; simpl; lra). lra.
Qed.

Lemma QS2_toR_add x y : QS2.toR (QS2.add x y) = (QS2.toR x + QS2.toR y)%R.
Proof.
  unfold QS2.toR, QS2.add. simpl. rewrite !Q2R_Qred, !Q2R_plus. lra.
Qed.

Lemma QS2_toR_sub x y : QS2.toR (QS2.sub x y) = (QS2.toR x - QS2.toR y)%R.
Proof.
  unfold QS2.toR, QS2.sub. simpl. rewrite !Q2R_Qred, !Q2R_minus. lra.
Qed.

Lemma QS2_toR_opp x : QS2.toR (QS2.opp x) = (- QS2.toR x)%R.
Proof.
  unfold QS2.toR, QS2.opp. simpl. rewrite !Q2R_Qred, !Q2R_opp. lra.
Qed.

Lemma Q2R_2 : Q2R 2 = 2%R.
Proof. unfold Q2R. simpl. lra. Qed.

Lemma QS2_toR_mul x y : QS2.toR (QS2.mul x y) = (QS2.toR x * QS2.toR y)%R.
Proof.
  unfold QS2.toR, QS2.mul. simpl.
  rewrite !Q2R_Qred, !Q2R_plus, !Q2R_mult, Q2R_2.
  rewrite <- sqrt2_sq at 1. ring.
Qed.

Lemma QS2_toR_norm x :
  Q2R (QS2.norm x)
  = (QS2.toR x * (Q2R (QS2.rat x) - Q2R (QS2.irr x) * sqrt 2))%R.
Proof.
  unfold QS2.norm, QS2.toR. rewrite Q2R_minus, !Q2R_mult, Q2R_2.
  rewrite <- sqrt2_sq at 1. ring.
Qed.

Lemma QS2_norm_nonzero x : QS2.toR x <> 0%R -> ~ QS2.norm x == 0.
Proof.
  intros Hx Hn. apply Hx. apply QS2_norm_zero in Hn as [Ha Hb].
  unfold QS2.toR. rewrite (Qeq_eqR _ _ Ha), (Qeq_eqR _ _ Hb).
  unfold Q2R. simpl. lra.
Qed.

Lemma QS2_toR_inv x : QS2.toR x <> 0%R -> QS2.toR (QS2.inv x) = (/ QS2.toR x)%R.
Proof.
  intros Hx. pose proof (QS2_norm_nonzero x Hx) as Hn.
  assert (HnR : Q2R (QS2.norm x) <> 0%R).
  { intros H. apply Hn. apply eqR_Qeq. rewrite H. unfold Q2R. simpl. lra. }
  unfold QS2.toR at 1. unfold QS2.inv. simpl.
  rewrite !Q2R_Qred. unfold Qdiv. rewrite !Q2R_mult, Q2R_opp, (Q2R_inv _ Hn).
  pose proof (QS2_toR_norm x) as E.
  set (n := Q2R (QS2.norm x)) in *.
  assert (Hc : (Q2R (QS2.rat x) - Q2R (QS2.irr x) * sqrt 2)%R <> 0%R).
  { intros H. rewrite H in E. apply HnR. lra. }
  rewrite E. unfold QS2.toR in *. field. split; assumption.
Qed.

Lemma QS2_toR_div x y :
  QS2.toR y <> 0%R -> QS2.toR (QS2.div x y) = (QS2.toR x / QS2.toR y)%R.
Proof.
  intros Hy. unfold QS2.div. now rewrite QS2_toR_mul, QS2_toR_inv.
Qed.

Lemma sq_le_iff_R (x y : R) :
  (0 <= x)%R -> (0 <= y)%R -> ((x * x <= y * y) <-> (x <= y))%R.
Proof.
  intros Hx Hy. split; intros H.
  - destruct (Rle_or_lt x y) as [Hle | Hlt]; [exact Hle |].
    assert (0 < (x - y) * (x + y))%R by (apply Rmult_lt_0_compat; lra).
    lra.
  - assert (0 <= (y - x) * (y + x))%R by (apply Rmult_le_pos; lra).
    lra.
Qed.

Lemma Qle_bool_Rle (p q : Q) : Qle_bool p q = true <-> (Q2R p <= Q2R q)%R.
Proof.
  rewrite Qle_bool_iff. split; [apply Qle_Rle | apply Rle_Qle].
Qed.

Lemma Qle_bool_Rgt (p q : Q) : Qle_bool p q = false <-> (Q2R q < Q2R p)%R.
Proof.
  rewrite <- not_true_iff_false, Qle_bool_Rle.
  split; [apply Rnot_le_lt | apply Rlt_not_le].
Qed.

Lemma Q2R_0 : Q2R 0 = 0%R.
Proof. unfold Q2R. simpl. lra. Qed.

Lemma QS2_nonneg_spec x : QS2.nonneg x = true <-> (0 <= QS2.toR x)%R.
Proof.
  unfold QS2.nonneg, QS2.toR.
  pose proof sqrt2_pos as Hs. pose proof sqrt2_sq as Hss.
  set (s := sqrt 2) in *.
  destruct (Qle_bool 0 (QS2.rat x)) eqn:Ea;
    destruct (Qle_bool 0 (QS2.irr x)) eqn:Eb;
    rewrite ?Qle_bool_Rle, ?Qle_bool_Rgt in *;
    rewrite ?Q2R_mult, ?Q2R_2, ?Q2R_0 in *;
    set (a := Q2R (QS2.rat x)) in *; set (b := Q2R (QS2.irr x)) in *.
  - split; [intros _; nra | reflexivity].
  - assert (Hbs : (0 <= - b * s)%R) by nra.
    assert (E : ((- b * s) * (- b * s) = 2 * (b * b))%R)
      by (rewrite <- Hss; ring).
    rewrite <- E, (sq_le_iff_R (- b * s) a) by lra. split; lra.
  - assert (Hbs : (0 <= b * s)%R) by nra.
    assert (E : ((b * s) * (b * s) = 2 * (b * b))%R)
      by (rewrite <- Hss; ring).
    replace (a * a)%R with ((- a) * (- a))%R by ring.
    rewrite <- E, (sq_le_iff_R (- a) (b * s)) by lra. split; lra.
  - split; [discriminate | intros H; nra].
Qed.

Lemma QS2_leb_spec x y : QS2.leb x y = true <-> (QS2.toR x <= QS2.toR y)%R.
Proof.
  unfold QS2.leb. rewrite QS2_nonneg_spec, QS2_toR_sub. lra.
Qed.

Lemma QS2_ltb_spec x y : QS2.ltb x y = true <-> (QS2.toR x < QS2.toR y)%R.
Proof.
  unfold QS2.ltb. rewrite negb_true_iff, <- not_true_iff_false, QS2_leb_spec.
  split; [apply Rnot_le_lt | apply Rlt_not_le].
Qed.

Lemma QS2_ltb_false x y : QS2.ltb x y = false <-> (QS2.toR y <= QS2.toR x)%R.
Proof.
  unfold QS2.ltb. rewrite negb_false_iff. apply QS2_leb_spec.
Qed.

Lemma QS2_toR_abs x : QS2.toR (QS2.abs x) = Rabs (QS2.toR x).
Proof.
  unfold QS2.abs. pose proof (QS2_nonneg_spec x) as H.
  destruct (QS2.nonneg x).
  - rewrite Rabs_right; [reflexivity |]. apply Rle_ge. now apply H.
  - rewrite QS2_toR_opp.
    destruct (Rle_or_lt 0 (QS2.toR x)) as [Hle | Hlt].
    + apply H in Hle. discriminate.
    + rewrite Rabs_left; [reflexivity | exact Hlt].
Qed.

Lemma QS2_toR_py_max a b :
  QS2.toR (py_max a b) = Rmax (QS2.toR a) (QS2.toR b).
Proof.
  unfold py_max. destruct (QS2.ltb a b) eqn:E.
  - apply QS2_ltb_spec in E. rewrite Rmax_right; lra.
  - apply QS2_ltb_false in E. rewrite Rmax_left; lra.
Qed.

Lemma QS2_eq_toR x y : QS2.eq x y -> QS2.toR x = QS2.toR y.
Proof.
  intros [Ha Hb]. unfold QS2.toR.
  now rewrite (Qeq_eqR _ _ Ha), (Qeq_eqR _ _ Hb).
Qed.

Lemma QS2_eqb_spec x y : QS2.eqb x y = true <-> QS2.eq x y.
Proof.
  unfold QS2.eqb, QS2.eq. rewrite andb_true_iff, !Qeq_bool_iff. tauto.
Qed.

(** ** The sample offset *)

Section SampleOffset.
Local Open Scope Q_scope.

Lemma py_round_comp (x y : Q) : x == y -> py_round x = py_round y.
Proof.
  intros H. unfold py_round.
  rewrite (Qfloor_comp _ _ H).
  assert (E : (x - inject_Z (Qfloor y) ?= 1 # 2) = (y - inject_Z (Qfloor y) ?= 1 # 2))
    by (now rewrite H).
  now rewrite E.
Qed.

Lemma compute_inc_ok (L : Q) (tr : affine) :
  ~ aff_a tr - aff_e tr == 0 ->
  compute_inc L tr
  = Ok (Z.max 1 (py_round (L / ((1 # 2) * (aff_a tr + - aff_e tr))))).
Proof.
  intros H. unfold compute_inc.
  destruct (Qeq_bool _ 0) eqn:E; [| reflexivity].
  apply Qeq_bool_iff in E. exfalso. apply H.
  assert (E2 : aff_a tr - aff_e tr == 2 * ((1 # 2) * (aff_a tr + - aff_e tr)))
    by ring.
  rewrite E2, E. ring.
Qed.

Lemma compute_inc_positive (L : Q) (tr : affine) inc :
  compute_inc L tr = Ok inc -> (1 <= inc)%Z.
Proof.
  unfold compute_inc. destruct (Qeq_bool _ 0); [discriminate |].
  intros [= <-]. lia.
Qed.

End SampleOffset.

(** ** Paths *)

Lemma string_length_app (a b : string) :
  String.length (a ++ b) = (String.length a + String.length b)%nat.
Proof.
  induction a as [| c a IH]; [reflexivity |].
  simpl. now rewrite IH.
Qed.

Lemma string_app_assoc (a b c : string) : (a ++ b) ++ c = a ++ (b ++ c).
Proof.
  induction a as [| x a IH]; [reflexivity |].
  change (String x ((a ++ b) ++ c) = String x (a ++ (b ++ c))).
  now rewrite IH.
Qed.

Lemma path_join_length (a b : string) :
  starts_with_slash b = false ->
  (String.length a + String.length b <= String.length (path_join a b))%nat.
Proof.
  intros Hb. unfold path_join. rewrite Hb.
  destruct (_ || _)%bool; rewrite !string_length_app; simpl; lia.
Qed.

Lemma path_join_neq_l (a b : string) :
  starts_with_slash b = false -> b <> "" -> path_join a b <> a.
Proof.
  intros Hb Hne E. pose proof (path_join_length a b Hb) as H.
  rewrite E in H. destruct b; [congruence | simpl in H; lia].
Qed.

Lemma path_join_nonempty (a b : string) :
  starts_with_slash b = false -> b <> "" -> path_join a b <> "".
Proof.
  intros Hb Hne E. pose proof (path_join_length a b Hb) as H.
  rewrite E in H. destruct b; [congruence | simpl in H; lia].
Qed.

Lemma curvature_path_not_dir wd : curvature_path_of wd <> curvature_output_dir wd.
Proof. apply path_join_neq_l; [reflexivity | discriminate]. Qed.

Lemma curvature_output_dir_nonempty wd :
  String.eqb (curvature_output_dir wd) "" = false.
Proof.
  apply String.eqb_neq. apply path_join_nonempty; [reflexivity | discriminate].
Qed.

Lemma ends_with_slash_cons a u :
  u <> "" -> ends_with_slash (String a u) = ends_with_slash u.
Proof. destruct u; [congruence | reflexivity]. Qed.

Lemma string_app_nonempty s t : t <> "" -> s ++ t <> "".
Proof. destruct s; simpl; [auto | discriminate]. Qed.

Lemma ends_with_slash_app s t :
  t <> "" -> ends_with_slash (s ++ t) = ends_with_slash t.
Proof.
  intros Ht. induction s as [| a s IH]; [reflexivity |].
  change (String a s ++ t) with (String a (s ++ t)).
  rewrite ends_with_slash_cons; [exact IH |].
  now apply string_app_nonempty.
Qed.

Lemma path_join_plain a b :
  a <> "" -> ends_with_slash a = false -> starts_with_slash b = false ->
  path_join a b = a ++ "/" ++ b.
Proof.
  intros Ha Hs Hb. unfold path_join. rewrite Hb, Hs.
  apply String.eqb_neq in Ha. now rewrite Ha.
Qed.

(** For a working directory that is not empty and does not end in a slash,
    the path is the working directory followed by
    [/inputs/dem/curvature.tif]. *)
Lemma curvature_path_plain wd :
  wd <> "" -> ends_with_slash wd = false ->
  curvature_path_of wd = wd ++ "/inputs/dem/curvature.tif".
Proof.
  intros Hne Hs. unfold curvature_path_of, curvature_output_dir, path_join3.
  rewrite (path_join_plain wd "inputs") by (assumption || reflexivity).
  rewrite (path_join_plain _ "dem");
    [ | apply string_app_nonempty; discriminate
      | rewrite ends_with_slash_app; [reflexivity | discriminate]
      | reflexivity ].
  rewrite (path_join_plain _ "curvature.tif");
    [ | apply string_app_nonempty; discriminate
      | rewrite ends_with_slash_app; [reflexivity | discriminate]
      | reflexivity ].
  rewrite !string_app_assoc. reflexivity.
Qed.

(** ** [compute_topographic_curvature]: the cache *)

Lemma compute_topographic_curvature_cached dem_path wd L nd w :
  files w !! curvature_output_dir wd = None ->
  path_exists (curvature_path_of wd) w = true ->
  compute_topographic_curvature dem_path wd L nd w
  = (Ok (curvature_path_of wd), after_cached_run wd w).
Proof.
  intros Hdir Hex.
  unfold compute_topographic_curvature, bind, makedirs.
  fold (curvature_output_dir wd). fold (curvature_path_of wd).
  rewrite curvature_output_dir_nonempty, Hdir.
  assert (Hex' : path_exists (curvature_path_of wd)
                   (mkWorld (files w) ({[curvature_output_dir wd]} ∪ dirs w) (stdout w))
                 = true).
  { unfold path_exists in *. cbn [files dirs].
    apply orb_true_iff in Hex as [H | H]; apply orb_true_iff; [left; exact H | right].
    apply bool_decide_eq_true_1 in H. apply bool_decide_eq_true_2. set_solver. }
  rewrite Hex'. reflexivity.
Qed.

(** What a successful run leaves behind. *)
Lemma compute_topographic_curvature_post dem_path wd L nd w p w1 :
  compute_topographic_curvature dem_path wd L nd w = (Ok p, w1) ->
  p = curvature_path_of wd /\
  files w1 !! curvature_output_dir wd = None /\
  path_exists (curvature_path_of wd) w1 = true.
Proof.
  unfold compute_topographic_curvature, bind, makedirs.
  fold (curvature_output_dir wd). fold (curvature_path_of wd).
  rewrite curvature_output_dir_nonempty.
  destruct (files w !! curvature_output_dir wd) eqn:Hdir; [discriminate |].
  destruct (path_exists _ _) eqn:Hex.
  - unfold print, ret. cbn. intros [= <- <-].
    split; [reflexivity |]. split; [exact Hdir |]. exact Hex.
  - unfold rasterio_read. cbn [files].
    destruct (files w !! dem_path) as [[r | | |] |]; try discriminate.
    unfold lift.
    destruct (curvature_array _ _ _ _) as [out | e]; [| discriminate].
    unfold rasterio_write, print, ret. cbn. intros [= <- <-].
    split; [reflexivity |]. split.
    + cbn. rewrite lookup_insert_ne; [exact Hdir | apply curvature_path_not_dir].
    + unfold path_exists. cbn. apply orb_true_iff. left.
      apply bool_decide_eq_true_2. rewrite lookup_insert_eq. eauto.
Qed.

(** C5. When something already exists at the curvature path
    [working_directory/inputs/dem/curvature.tif] (and the output directory
    is not itself a regular file, which a file system excludes), the call
    reads no DEM and computes nothing: it returns that path, registers the
    output directory, prints one line and leaves every file as it was. Hence
    after any successful run a second run returns the same path and changes
    no file. *)
Theorem compute_topographic_curvature_idempotent :
  (forall dem_path wd L nd w,
      files w !! curvature_output_dir wd = None ->
      path_exists (curvature_path_of wd) w = true ->
      compute_topographic_curvature dem_path wd L nd w
      = (Ok (curvature_path_of wd), after_cached_run wd w) /\
      files (after_cached_run wd w) = files w) /\
  (forall dem_path wd L nd w p w1,
      compute_topographic_curvature dem_path wd L nd w = (Ok p, w1) ->
      compute_topographic_curvature dem_path wd L nd w1
      = (Ok p, after_cached_run wd w1) /\
      files (after_cached_run wd w1) = files w1).
Proof.
  split.
  - intros dem_path wd L nd w Hdir Hex. split; [| reflexivity].
    now apply compute_topographic_curvature_cached.
  - intros dem_path wd L nd w p w1 Hrun.
    apply compute_topographic_curvature_post in Hrun as (-> & Hdir & Hex).
    split; [| reflexivity].
    now apply compute_topographic_curvature_cached.
Qed.

Lemma compute_topographic_curvature_idempotent_witness :
  compute_topographic_curvature "dem.tif" "/wd" 1 None
    (compute_topographic_curvature "dem.tif" "/wd" 1 None ex_world).2
  = (Ok "/wd/inputs/dem/curvature.tif",
     after_cached_run "/wd"
       (compute_topographic_curvature "dem.tif" "/wd" 1 None ex_world).2) /\
  files (after_cached_run "/wd"
           (compute_topographic_curvature "dem.tif" "/wd" 1 None ex_world).2)
  = files (compute_topographic_curvature "dem.tif" "/wd" 1 None ex_world).2.
Proof.
  apply (proj2 compute_topographic_curvature_idempotent
           "dem.tif" "/wd" 1%Q None ex_world "/wd/inputs/dem/curvature.tif").
  vm_compute. reflexivity.
Defined.

(** ** [write_downscaled_to_netcdf] *)

Lemma pixel_centers_length n step origin :
  length (pixel_centers n step origin) = n.
Proof. unfold pixel_centers. now rewrite length_map, length_seq. Qed.

Lemma pixel_centers_lookup n step origin (i : nat) :
  (i < n)%nat ->
  pixel_centers n step origin !! i
  = Some (inject_Z (Z.of_nat i) * step + origin + step / 2)%Q.
Proof.
  intros Hi. unfold pixel_centers.
  change (map ?f ?l) with (f <$> l).
  rewrite list_lookup_fmap, lookup_seq_lt by exact Hi. reflexivity.
Qed.

Lemma make_data_array_ok tl ys xs data units desc da :
  make_data_array tl ys xs data units desc = Ok da ->
  da_dims da = ["time"; "y"; "x"] /\
  da_data da = concat data /\
  has_shape3 (length tl) (length ys) (length xs) (da_data da) = true /\
  da_time da = tl /\ da_y da = ys /\ da_x da = xs /\
  da_attrs da !! "units" = Some units /\
  da_attrs da !! "description" = Some desc.
Proof.
  unfold make_data_array. destruct data as [| d0 data]; [discriminate |].
  destruct (has_shape3 _ _ _ _) eqn:Hs; [| discriminate].
  intros [= <-]. cbn. repeat split; try reflexivity. exact Hs.
Qed.

Lemma build_dataset_vars_ok tl ys xs items :
  forall acc m,
    build_dataset_vars tl ys xs items acc = Ok m ->
    (forall name, is_Some (m !! name)
                  <-> is_Some (acc !! name) \/ name ∈ items.*1) /\
    (forall name da,
        m !! name = Some da ->
        acc !! name = Some da \/
        exists data units desc,
          (name, (data, units, desc)) ∈ items /\
          make_data_array tl ys xs data units desc = Ok da).
Proof.
  induction items as [| [var_name [[data units] desc]] rest IH]; intros acc m.
  - cbn. intros [= <-]. split.
    + intros name. rewrite elem_of_nil. tauto.
    + intros name da H. now left.
  - cbn [build_dataset_vars]. unfold rbind.
    destruct (make_data_array tl ys xs data units desc) as [da0 | e] eqn:Hda;
      [| discriminate].
    intros Hrest. apply IH in Hrest as [Hdom Hval]. split.
    + intros name. rewrite Hdom. cbn. rewrite elem_of_cons.
      destruct (decide (var_name = name)) as [-> | Hne].
      * rewrite lookup_insert_eq. split; [intros _; right; left; reflexivity |].
        intros _. left. eauto.
      * rewrite lookup_insert_ne by exact Hne.
        split; [intros [H | H]; [left | right; right]; exact H |].
        intros [H | [H | H]]; [left; exact H | congruence | right; exact H].
    + intros name da Hm. apply Hval in Hm as [Hm | Hm].
      * destruct (decide (var_name = name)) as [-> | Hne].
        -- rewrite lookup_insert_eq in Hm. injection Hm as <-.
           right. exists data, units, desc. split; [left | exact Hda].
        -- rewrite lookup_insert_ne in Hm by exact Hne. now left.
      * destruct Hm as (d & u & ds & Hin & Hmk). right.
        exists d, u, ds. split; [right; exact Hin | exact Hmk].
Qed.

(** C7. When [write_downscaled_to_netcdf] returns, the file at [out_nc]
    is a dataset with exactly one array per key of [variables_dict]; each
    array has dimensions [(time, y, x)], data of the shape its coordinates
    announce, the given time stamps, [x] coordinates
    [i * a + c + a / 2] and [y] coordinates [j * e + f + e / 2] (pixel
    centres from the geotransform), and the [units] and [description]
    attributes of an entry of [variables_dict] with that name. *)
Theorem write_downscaled_to_netcdf_layout :
  forall variables_dict time_list height width tr dem_crs out_nc w w',
    write_downscaled_to_netcdf variables_dict time_list (height, width)
      tr dem_crs out_nc w = (Ok tt, w') ->
    exists ds,
      files w' !! out_nc = Some (NetCDFFile ds) /\
      ds_transform ds = Some tr /\ ds_crs ds = Some dem_crs /\
      (forall name, is_Some (ds_vars ds !! name) <-> name ∈ variables_dict.*1) /\
      (forall name da,
          ds_vars ds !! name = Some da ->
          da_dims da = ["time"; "y"; "x"] /\
          has_shape3 (length time_list) height width (da_data da) = true /\
          da_time da = time_list /\
          length (da_x da) = width /\ length (da_y da) = height /\
          (forall i : nat, (i < width)%nat ->
             da_x da !! i
             = Some (inject_Z (Z.of_nat i) * aff_a tr + aff_c tr + aff_a tr / 2)%Q) /\
          (forall j : nat, (j < height)%nat ->
             da_y da !! j
             = Some (inject_Z (Z.of_nat j) * aff_e tr + aff_f tr + aff_e tr / 2)%Q) /\
          exists data units description,
            (name, (data, units, description)) ∈ variables_dict /\
            da_data da = concat data /\
            da_attrs da !! "units" = Some units /\
            da_attrs da !! "description" = Some description).
Proof.
  intros variables_dict time_list height width tr dem_crs out_nc w w'.
  unfold write_downscaled_to_netcdf, bind, lift.
  destruct (build_dataset_vars _ _ _ _ _) as [m | e] eqn:Hbuild; [| discriminate].
  destruct (makedirs _ w) as [[[] | e] w1] eqn:Hmk; [| discriminate].
  unfold to_netcdf. destruct (bool_decide _); [discriminate |].
  unfold print. cbn. intros [= <-]. cbn.
  apply build_dataset_vars_ok in Hbuild as [Hdom Hval].
  eexists. split; [apply lookup_insert_eq |].
  cbn. split; [reflexivity |]. split; [reflexivity |]. split.
  - intros name. rewrite Hdom, lookup_empty.
    split; [intros [[x H] | H]; [discriminate | exact H] | now right].
  - intros name da Hda. apply Hval in Hda as [Hda | Hda];
      [rewrite lookup_empty in Hda; discriminate |].
    destruct Hda as (data & units & desc & Hin & Hmk').
    apply make_data_array_ok in Hmk'
      as (Hdims & Hdata & Hshape & Htime & Hy & Hx & Hu & Hd).
    rewrite !pixel_centers_length in Hshape.
    repeat split; try assumption.
    + rewrite Hx. apply pixel_centers_length.
    + rewrite Hy. apply pixel_centers_length.
    + intros i Hi. rewrite Hx. now apply pixel_centers_lookup.
    + intros j Hj. rewrite Hy. now apply pixel_centers_lookup.
    + exists data, units, desc. repeat split; assumption.
Qed.

Lemma write_downscaled_to_netcdf_layout_witness :
  exists ds,
    files (write_downscaled_to_netcdf ex_variables [0%Z; 3600%Z] (2%nat, 3%nat)
             ex_km_transform "EPSG:32632" "/wd/outputs/Temperature/T_2020_01.nc"
             ex_world).2
      !! "/wd/outputs/Temperature/T_2020_01.nc" = Some (NetCDFFile ds) /\
    (forall name, is_Some (ds_vars ds !! name) <-> name ∈ ex_variables.*1) /\
    (forall da, ds_vars ds !! "t_air" = Some da ->
                da_dims da = ["time"; "y"; "x"] /\
                da_x da !! 1%nat = Some (inject_Z 1 * 1000 + 0 + 1000 / 2)%Q).
Proof.
  destruct (write_downscaled_to_netcdf_layout ex_variables [0%Z; 3600%Z] 2 3
              ex_km_transform "EPSG:32632" "/wd/outputs/Temperature/T_2020_01.nc"
              ex_world
              (write_downscaled_to_netcdf ex_variables [0%Z; 3600%Z] (2%nat, 3%nat)
                 ex_km_transform "EPSG:32632" "/wd/outputs/Temperature/T_2020_01.nc"
                 ex_world).2)
    as (ds & Hfile & _ & _ & Hdom & Hvars).
  - vm_compute. reflexivity.
  - exists ds. split; [exact Hfile |]. split; [exact Hdom |].
    intros da Hda.
    destruct (Hvars _ _ Hda) as (Hdims & _ & _ & _ & _ & Hx & _).
    split; [exact Hdims |]. apply (Hx 1%nat). lia.
Defined.

(** ** [run_micropezzomet]: the terrain stage *)

Lemma same_but_nodata_bind {A} (m : M World A)
    (k1 k2 : A -> M World (string * string * json * json)) w :
  (forall a w', same_but_nodata (k1 a w') (k2 a w')) ->
  same_but_nodata (bind m k1 w) (bind m k2 w).
Proof.
  intros H. unfold bind. destruct (m w) as [[a | e] w']; [apply H |].
  split; reflexivity.
Qed.

Lemma dict_item_insert_ne (cfg : gmap string json) k k' v :
  k <> k' -> dict_item (JObj (<[k := v]> cfg)) k' = dict_item (JObj cfg) k'.
Proof. intros H. unfold dict_item. now rewrite lookup_insert_ne. Qed.

(** Whatever the configuration holds under ["dem_nodata"], the terrain
    stage leaves the same world and returns the same paths: the configured
    sentinel only travels on to the fan-out. *)
Lemma terrain_stage_nodata_irrelevant :
  forall os_system get_era5 (cfg : gmap string json) (v : json) (w : World),
    same_but_nodata
      (terrain_stage os_system get_era5 (JObj (<["dem_nodata" := v]> cfg)) w)
      (terrain_stage os_system get_era5 (JObj cfg) w).
Proof.
  intros os_system get_era5 cfg v w. unfold terrain_stage.
  rewrite !(dict_item_insert_ne cfg "dem_nodata") by discriminate.
  unfold dict_get. rewrite lookup_insert_eq. cbn [default].
  rewrite !bind_lift_Ok.
  repeat (apply same_but_nodata_bind; intros ? ?).
  rewrite !bind_lift_Ok.
  repeat (apply same_but_nodata_bind; intros ? ?).
  split; reflexivity.
Qed.

(** On a configuration with [dem_nodata = -9999] and a DEM that holds
    [-9999] in one cell, the raster the stage writes is the one computed
    without masking, and not the one masking would give. *)
Lemma terrain_stage_unmasked_example :
  exists r,
    files (terrain_stage ex_os_system ex_get_era5 (JObj ex_config) ex_world_nodata).2
      !! "/wd/inputs/dem/curvature.tif" = Some (RasterFile r) /\
    curvature_array ex_dem_nodata ex_km_transform 1000 None = Ok (band1 r) /\
    curvature_array ex_dem_nodata ex_km_transform 1000 (Some (-9999)%Q) <> Ok (band1 r).
Proof.
  eexists. split; [vm_compute; reflexivity |].
  split; [vm_compute; reflexivity |].
  vm_compute. discriminate.
Qed.

(** ** Arrays: what every cell satisfies *)

Lemma All2d_get2 {A} (P : A -> Prop) (a : list (list A)) i j c :
  All2d P a -> get2 a i j = Some c -> P c.
Proof.
  unfold All2d, get2. intros Ha H.
  destruct (a !! i) as [r |] eqn:Hr; [| discriminate]. cbn in H.
  eapply Forall_lookup_1 in Hr; [| exact Ha].
  eapply Forall_lookup_1; eauto.
Qed.

Lemma All2d_impl {A} (P Q : A -> Prop) (a : list (list A)) :
  All2d P a -> (forall c, P c -> Q c) -> All2d Q a.
Proof.
  unfold All2d. intros Ha H.
  eapply Forall_impl; [exact Ha |]. intros r Hr.
  eapply Forall_impl; eauto.
Qed.

Lemma All2d_arr_map (P Q : cell -> Prop) (f : cell -> cell) (a : array) :
  All2d Q a -> (forall c, Q c -> P (f c)) -> All2d P (arr_map f a).
Proof.
  unfold All2d, arr_map. intros Ha H.
  change (map ?g ?l) with (g <$> l).
  apply Forall_fmap. eapply Forall_impl; [exact Ha |]. intros r Hr. cbn.
  change (map ?g ?l) with (g <$> l).
  apply Forall_fmap. eapply Forall_impl; eauto.
Qed.

Lemma Forall_zip_with_2 {A B C} (P : A -> Prop) (Q : B -> Prop) (R : C -> Prop)
    (f : A -> B -> C) (l : list A) (k : list B) :
  Forall P l -> Forall Q k -> (forall x y, P x -> Q y -> R (f x y)) ->
  Forall R (zip_with f l k).
Proof.
  intros Hl. revert k. induction Hl as [| x l Hx Hl IH]; intros k Hk H.
  - constructor.
  - destruct Hk as [| y k Hy Hk]; cbn; constructor; auto.
Qed.

Lemma All2d_arr_zip (P Q R : cell -> Prop) (f : cell -> cell -> cell) (a b : array) :
  All2d P a -> All2d Q b -> (forall x y, P x -> Q y -> R (f x y)) ->
  All2d R (arr_zip f a b).
Proof.
  unfold All2d, arr_zip. intros Ha Hb H.
  eapply Forall_zip_with_2; [exact Ha | exact Hb |].
  intros r1 r2 H1 H2. eapply Forall_zip_with_2; eauto.
Qed.

Lemma Forall_py_slice {A} (P : A -> Prop) s e (l : list A) :
  Forall P l -> Forall P (py_slice s e l).
Proof. intros H. unfold py_slice. now apply Forall_take, Forall_drop. Qed.

Lemma All2d_py_slice2 {A} (P : A -> Prop) r0 r1 c0 c1 (a : list (list A)) :
  All2d P a -> All2d P (py_slice2 r0 r1 c0 c1 a).
Proof.
  unfold All2d, py_slice2. intros H.
  change (map ?g ?l) with (g <$> l).
  apply Forall_fmap. apply Forall_py_slice.
  eapply Forall_impl; [exact H |]. intros r Hr. cbn.
  now apply Forall_py_slice.
Qed.

Lemma last_elem_of {A} (l : list A) (d : A) : l <> [] -> List.last l d ∈ l.
Proof.
  induction l as [| x l IH]; [congruence |]. intros _.
  destruct l as [| y l]; [cbn; left |].
  change (List.last (x :: y :: l) d) with (List.last (y :: l) d).
  right. apply IH. discriminate.
Qed.

Lemma Forall_pad_edge1 {A} (P : A -> Prop) n (l : list A) :
  Forall P l -> Forall P (pad_edge1 n l).
Proof.
  intros H. unfold pad_edge1. destruct l as [| x l]; [constructor |].
  rewrite !Forall_app. split; [| split; [exact H |]].
  - apply Forall_replicate. now inversion H.
  - apply Forall_replicate.
    rewrite Forall_forall in H. apply H. now apply last_elem_of.
Qed.

Lemma All2d_pad_edge {A} (P : A -> Prop) n (a : list (list A)) :
  All2d P a -> All2d P (pad_edge n a).
Proof.
  unfold All2d, pad_edge. intros H.
  apply Forall_pad_edge1.
  change (map ?g ?l) with (g <$> l).
  apply Forall_fmap. eapply Forall_impl; [exact H |]. intros r Hr. cbn.
  now apply Forall_pad_edge1.
Qed.

Lemma All2d_full_nan {A} (a : list (list A)) :
  All2d (fun c => c = None) (full_nan a).
Proof.
  unfold All2d, full_nan.
  change (map ?g ?l) with (g <$> l).
  apply Forall_fmap. apply Forall_true. intros r. cbn.
  now apply Forall_replicate.
Qed.

Lemma Forall_imap_2 {A B} (P : A -> Prop) (Q : B -> Prop) (f : nat -> A -> B)
    (l : list A) :
  Forall P l -> (forall i x, P x -> Q (f i x)) -> Forall Q (imap f l).
Proof.
  intros H. revert f. induction H as [| x l Hx Hl IH]; intros f Hf.
  - constructor.
  - cbn. constructor; [now apply Hf |]. apply IH. intros i y. apply Hf.
Qed.

Lemma All2d_assign_block (P : cell -> Prop) dst r0 r1 c0 c1 src out :
  All2d P dst -> All2d P src -> P None ->
  assign_block dst r0 r1 c0 c1 src = Ok out -> All2d P out.
Proof.
  intros Hd Hs Hn. unfold assign_block.
  destruct (shape dst) as [ny nx]. destruct (shape src) as [sr sc].
  destruct (_ && _); [| discriminate].
  intros [= <-]. unfold All2d.
  eapply Forall_imap_2; [exact Hd |]. intros i row Hrow. cbn.
  destruct (_ && _); [| exact Hrow].
  eapply Forall_imap_2; [exact Hrow |]. intros j x Hx. cbn.
  destruct (_ && _); [| exact Hx].
  match goal with |- P (default None ?o) => destruct o as [c |] eqn:Ho end;
    [| exact Hn].
  cbn. eapply All2d_get2; [exact Hs |]. exact Ho.
Qed.

(** ** Normalisation *)

Lemma nanmax_flat_upper (l : list cell) :
  match foldr (fun c acc =>
                 match c, acc with
                 | Some v, Some m => Some (if QS2.ltb m v then v else m)
                 | Some v, None => Some v
                 | None, _ => acc
                 end) None l with
  | Some m => Forall (fun c => forall v, c = Some v -> (QS2.toR v <= QS2.toR m)%R) l
  | None => Forall (fun c => c = None) l
  end.
Proof.
  induction l as [| c l IH]; [constructor |].
  cbn [foldr]. destruct c as [v |].
  - destruct (foldr _ None l) as [m |].
    + destruct (QS2.ltb m v) eqn:E.
      * apply QS2_ltb_spec in E. constructor.
        -- intros v' [= <-]. lra.
        -- eapply Forall_impl; [exact IH |]. intros c Hc v' Hv'.
           specialize (Hc v' Hv'). cbn in Hc. lra.
      * apply QS2_ltb_false in E. constructor.
        -- intros v' [= <-]. exact E.
        -- exact IH.
    + constructor.
      * intros v' [= <-]. lra.
      * eapply Forall_impl; [exact IH |]. intros c -> v' Hv'. discriminate.
  - destruct (foldr _ None l) as [m |]; constructor; try exact IH; try reflexivity.
    intros v' Hv'. discriminate.
Qed.

Lemma Forall_concat_All2d {A} (P : A -> Prop) (a : list (list A)) :
  Forall P (concat a) -> All2d P a.
Proof.
  unfold All2d. induction a as [| r a IH]; [constructor |].
  cbn. rewrite Forall_app. intros [Hr Ha]. constructor; auto.
Qed.

Lemma nanmax_upper (a : array) :
  match nanmax a with
  | Some m => All2d (fun c => forall v, c = Some v -> (QS2.toR v <= QS2.toR m)%R) a
  | None => All2d (fun c => c = None) a
  end.
Proof.
  unfold nanmax. pose proof (nanmax_flat_upper (concat a)) as H.
  destruct (foldr _ None (concat a)); now apply Forall_concat_All2d.
Qed.

Lemma All2d_arr_map_inv (P : cell -> Prop) (f : cell -> cell) (a : array) :
  All2d P (arr_map f a) -> All2d (fun c => P (f c)) a.
Proof.
  unfold All2d, arr_map.
  change (map ?g ?l) with (g <$> l).
  rewrite Forall_fmap. intros H.
  eapply Forall_impl; [exact H |]. intros r. cbn.
  change (map ?g ?l) with (g <$> l).
  now rewrite Forall_fmap.
Qed.

Lemma QS2_toR_thousandth : QS2.toR (QS2.of_Q (1 # 1000)) = (1 / 1000)%R.
Proof. rewrite QS2_toR_of_Q. unfold Q2R. simpl. lra. Qed.

(** The divisor [2 * curve_max] is at least [0.002] and at least twice the
    magnitude of every defined cell. *)
Lemma curve_max_dominates (curvature : array) (curve_max : num) :
  curve_max = match nanmax (arr_abs curvature) with
              | Some m => py_max (QS2.of_Q (1 # 1000)) m
              | None => QS2.of_Q (1 # 1000)
              end ->
  (1 / 1000 <= QS2.toR curve_max)%R /\
  All2d (fun c => forall v, c = Some v -> (Rabs (QS2.toR v) <= QS2.toR curve_max)%R)
        curvature.
Proof.
  intros ->. pose proof (nanmax_upper (arr_abs curvature)) as H.
  destruct (nanmax (arr_abs curvature)) as [m |].
  - rewrite QS2_toR_py_max, QS2_toR_thousandth. split; [apply Rmax_l |].
    apply All2d_arr_map_inv in H.
    eapply All2d_impl; [exact H |]. intros c Hc v ->.
    specialize (Hc (QS2.abs v) eq_refl). rewrite QS2_toR_abs in Hc.
    eapply Rle_trans; [exact Hc | apply Rmax_r].
  - rewrite QS2_toR_thousandth. split; [lra |].
    apply All2d_arr_map_inv in H.
    eapply All2d_impl; [exact H |]. intros c Hc v ->. discriminate.
Qed.

Lemma normalised_within_half (curvature : array) (curve_max : num) :
  curve_max = match nanmax (arr_abs curvature) with
              | Some m => py_max (QS2.of_Q (1 # 1000)) m
              | None => QS2.of_Q (1 # 1000)
              end ->
  All2d within_half (arr_div curvature (QS2.mul (QS2.of_Q 2) curve_max)).
Proof.
  intros Hcm. apply curve_max_dominates in Hcm as [Hpos Hdom].
  unfold arr_div. eapply All2d_arr_map; [exact Hdom |].
  intros [v |] Hv; [| exact I]. cbn.
  specialize (Hv v eq_refl).
  assert (E2 : QS2.toR (QS2.mul (QS2.of_Q 2) curve_max) = (2 * QS2.toR curve_max)%R).
  { rewrite QS2_toR_mul, QS2_toR_of_Q, Q2R_2. reflexivity. }
  rewrite QS2_toR_div by (rewrite E2; lra). rewrite E2.
  set (x := QS2.toR v) in *. set (m := QS2.toR curve_max) in *.
  assert (Hx : (- m <= x <= m)%R).
  { split; [pose proof (Rle_abs (- x)); rewrite Rabs_Ropp in *; lra
           | pose proof (Rle_abs x); lra]. }
  assert (Hm : (0 < 2 * m)%R) by lra.
  split.
  - apply (Rmult_le_reg_r (2 * m)); [exact Hm |].
    unfold Rdiv. rewrite Rmult_assoc, Rinv_l by lra. lra.
  - apply (Rmult_le_reg_r (2 * m)); [exact Hm |].
    unfold Rdiv. rewrite Rmult_assoc, Rinv_l by lra. lra.
Qed.

(** ** The curvature raster *)

Lemma curvature_array_within_half dem0 tr L nd out :
  curvature_array dem0 tr L nd = Ok out -> All2d within_half out.
Proof.
  unfold curvature_array.
  destruct (shape _) as [ny nx].
  destruct (compute_inc L tr) as [inc | e]; [| discriminate].
  cbn [rbind]. destruct (_ || _)%bool; [discriminate |].
  intros H. eapply All2d_assign_block in H; [exact H | | | exact I].
  - eapply All2d_impl; [apply All2d_full_nan |]. now intros c ->.
  - now apply normalised_within_half.
Qed.

(** A run that does not find its output in place reads the DEM, computes
    [curvature_array] on its first band and writes the result with the
    DEM's transform and CRS. *)
Lemma compute_topographic_curvature_fresh dem_path wd L nd w p w' :
  path_exists (curvature_path_of wd) w = false ->
  compute_topographic_curvature dem_path wd L nd w = (Ok p, w') ->
  exists r out,
    files w !! dem_path = Some (RasterFile r) /\
    curvature_array (band1 r) (transform r) L nd = Ok out /\
    files w' !! p = Some (RasterFile (mkRaster out (transform r) (crs r))).
Proof.
  intros Hex.
  unfold compute_topographic_curvature, bind, makedirs.
  fold (curvature_output_dir wd). fold (curvature_path_of wd).
  rewrite curvature_output_dir_nonempty.
  destruct (files w !! curvature_output_dir wd) eqn:Hdir; [discriminate |].
  assert (Hex' : path_exists (curvature_path_of wd)
                   (mkWorld (files w) ({[curvature_output_dir wd]} ∪ dirs w) (stdout w))
                 = false).
  { unfold path_exists in *. cbn [files dirs].
    apply orb_false_iff in Hex as [Hf Hd]. apply orb_false_iff. split; [exact Hf |].
    apply bool_decide_eq_false_1 in Hd. apply bool_decide_eq_false_2.
    rewrite elem_of_union, elem_of_singleton.
    intros [E | E]; [now apply (curvature_path_not_dir wd) | now apply Hd]. }
  rewrite Hex'.
  unfold rasterio_read. cbn [files].
  destruct (files w !! dem_path) as [[r | | |] |]; try discriminate.
  unfold lift.
  destruct (curvature_array _ _ _ _) as [out | e] eqn:Hcurv; [| discriminate].
  unfold rasterio_write, print, ret. cbv beta iota. intros [= <- <-].
  exists r, out. split; [reflexivity |]. split; [exact Hcurv |].
  cbn [files]. apply lookup_insert_eq.
Qed.

Lemma All2d_true {A} (a : list (list A)) : All2d (fun _ => True) a.
Proof. unfold All2d. apply Forall_true. intros r. now apply Forall_true. Qed.

Lemma All2d_mask_nan (P : cell -> Prop) (a z : array) :
  All2d P a -> P None -> All2d P (mask_nan a z).
Proof.
  intros Ha Hn. unfold mask_nan.
  eapply All2d_arr_zip; [exact Ha | apply (All2d_true z) |].
  intros x y Hx _. cbn. destruct (isnan y); [exact Hn | exact Hx].
Qed.

(** ** Arrays: where a cell comes from *)

Lemma norm_index_nonneg (len : nat) (z : Z) :
  (0 <= z)%Z -> norm_index len z = Nat.min (Z.to_nat z) len.
Proof.
  intros Hz. unfold norm_index.
  destruct (Z.ltb_spec z 0); lia.
Qed.

Lemma py_slice_lookup {A} (s e : Z) (l : list A) k x :
  py_slice s e l !! k = Some x ->
  l !! (norm_index (length l) s + k)%nat = Some x.
Proof.
  unfold py_slice. intros H.
  apply lookup_take_Some in H as [H _].
  now rewrite lookup_drop in H.
Qed.

Lemma get2_py_slice2 {A} r0 r1 c0 c1 (a : list (list A)) i j x :
  get2 (py_slice2 r0 r1 c0 c1 a) i j = Some x ->
  exists row,
    a !! (norm_index (length a) r0 + i)%nat = Some row /\
    row !! (norm_index (length row) c0 + j)%nat = Some x.
Proof.
  unfold get2, py_slice2. change (map ?g ?l) with (g <$> l).
  rewrite list_lookup_fmap.
  destruct (py_slice r0 r1 a !! i) as [row |] eqn:Hrow; [| discriminate].
  cbn. intros Hx. exists row. split.
  - now apply (py_slice_lookup r0 r1).
  - now apply (py_slice_lookup c0 c1).
Qed.

Lemma norm_index_0 (len : nat) : norm_index len 0 = O.
Proof. rewrite norm_index_nonneg by lia. cbn. lia. Qed.

(** Cropping from the origin keeps the indices. *)
Lemma get2_crop {A} r1 c1 (a : list (list A)) i j x :
  get2 (py_slice2 0 r1 0 c1 a) i j = Some x -> get2 a i j = Some x.
Proof.
  intros H. apply get2_py_slice2 in H as (row & Hrow & Hx).
  rewrite norm_index_0 in Hrow, Hx. cbn [Nat.add] in Hrow, Hx.
  unfold get2. rewrite Hrow. exact Hx.
Qed.

Lemma pad_edge1_length {A} n (l : list A) :
  l <> [] -> length (pad_edge1 n l) = (length l + 2 * n)%nat.
Proof.
  destruct l as [| x l]; [congruence |]. intros _. unfold pad_edge1.
  rewrite !length_app, !length_replicate. lia.
Qed.

Lemma pad_edge1_lookup_mid {A} n (l : list A) k x :
  l !! k = Some x -> pad_edge1 n l !! (n + k)%nat = Some x.
Proof.
  intros H. unfold pad_edge1. destruct l as [| y l]; [discriminate |].
  rewrite lookup_app_r by (rewrite length_replicate; lia).
  rewrite length_replicate.
  replace (n + k - n)%nat with k by lia.
  now apply lookup_app_l_Some.
Qed.

Lemma get2_pad_edge_mid {A} n (a : list (list A)) i j x :
  get2 a i j = Some x -> get2 (pad_edge n a) (n + i) (n + j) = Some x.
Proof.
  unfold get2, pad_edge. intros H.
  destruct (a !! i) as [row |] eqn:Hrow; [| discriminate]. cbn in H.
  erewrite pad_edge1_lookup_mid;
    [| change (map ?g ?l) with (g <$> l); rewrite list_lookup_fmap, Hrow;
       reflexivity].
  cbn. now apply pad_edge1_lookup_mid.
Qed.

Lemma pad_edge_length {A} n (a : list (list A)) :
  a <> [] -> length (pad_edge n a) = (length a + 2 * n)%nat.
Proof.
  intros H. unfold pad_edge. rewrite pad_edge1_length.
  - now rewrite length_map.
  - destruct a; [congruence | discriminate].
Qed.

Lemma get2_arr_map (f : cell -> cell) (a : array) i j c :
  get2 (arr_map f a) i j = Some c ->
  exists x, get2 a i j = Some x /\ c = f x.
Proof.
  unfold get2, arr_map. change (map ?g ?l) with (g <$> l).
  rewrite list_lookup_fmap.
  destruct (a !! i) as [row |]; [| discriminate]. cbn.
  change (map ?g ?l) with (g <$> l). rewrite list_lookup_fmap.
  destruct (row !! j) as [x |]; [| discriminate]. cbn.
  intros [= <-]. eauto.
Qed.

Lemma get2_arr_map_eq (f : cell -> cell) (a : array) i j :
  get2 (arr_map f a) i j = f <$> get2 a i j.
Proof.
  unfold get2, arr_map. change (map ?g ?l) with (g <$> l).
  rewrite list_lookup_fmap.
  destruct (a !! i) as [row |]; [| reflexivity]. cbn.
  change (map ?g ?l) with (g <$> l). now rewrite list_lookup_fmap.
Qed.


Lemma assign_block_get2 (dst : array) r0 r1 c0 c1 (src out : array) i j d :
  assign_block dst r0 r1 c0 c1 src = Ok out ->
  get2 dst i j = Some d ->
  exists c,
    get2 out i j = Some c /\
    (c = d \/ c = None \/
     ((norm_index (length dst) r0 <= i < norm_index (length dst) r1)%nat /\
      (norm_index (ncols dst) c0 <= j < norm_index (ncols dst) c1)%nat /\
      get2 src
        (if ((shape src).1 =? 1)%nat then O else (i - norm_index (length dst) r0)%nat)
        (if ((shape src).2 =? 1)%nat then O else (j - norm_index (ncols dst) c0)%nat)
      = Some c)).
Proof.
  unfold assign_block, shape. cbn [fst snd].
  destruct (_ && _); [| discriminate].
  intros [= <-] Hd. unfold get2 in Hd |- *.
  destruct (dst !! i) as [row |] eqn:Hrow; [| discriminate]. cbn in Hd.
  rewrite list_lookup_imap, Hrow. cbn [fmap option_fmap option_map mbind option_bind].
  destruct (Nat.leb_spec (norm_index (length dst) r0) i) as [Hi0 | Hi0];
    destruct (Nat.ltb_spec i (norm_index (length dst) r1)) as [Hi1 | Hi1];
    cbn [andb]; try (exists d; split; [exact Hd | now left]).
  rewrite list_lookup_imap, Hd. cbn [fmap option_fmap option_map].
  destruct (Nat.leb_spec (norm_index (ncols dst) c0) j) as [Hj0 | Hj0];
    destruct (Nat.ltb_spec j (norm_index (ncols dst) c1)) as [Hj1 | Hj1];
    cbn [andb]; try (exists d; split; [reflexivity | now left]).
  match goal with |- context [default None ?o] => destruct o as [c |] eqn:Ho end.
  - exists c. split; [reflexivity |]. right. right.
    split; [lia |]. split; [lia |]. reflexivity.
  - exists None. split; [reflexivity |]. right. now left.
Qed.

(** ** A nodata cell stays undefined *)


Lemma cell_op2_none_l f y : cell_op2 f None y = None.
Proof. reflexivity. Qed.



Lemma get2_full_nan {A} (a : list (list A)) i j x :
  get2 a i j = Some x -> get2 (full_nan a) i j = Some None.
Proof.
  unfold get2, full_nan. intros H.
  change (map ?g ?l) with (g <$> l). rewrite list_lookup_fmap.
  destruct (a !! i) as [row |]; [| discriminate]. cbn in *.
  apply lookup_replicate_2. now apply lookup_lt_Some in H.
Qed.

Lemma length_full_nan {A} (a : list (list A)) : length (full_nan a) = length a.
Proof. unfold full_nan. apply length_map. Qed.

Lemma ncols_full_nan {A} (a : list (list A)) : ncols (full_nan a) = ncols a.
Proof. destruct a as [| r a]; [reflexivity |]. cbn. apply length_replicate. Qed.


(** ** The embedding step *)

(** Whatever the DEM, the first [inc] rows and the first [inc] columns of
    the written raster are NaN: the computed block is stored from row and
    column [inc] on. *)
Lemma curvature_array_border_nan dem0 tr L nd inc out i j x :
  compute_inc L tr = Ok inc ->
  curvature_array dem0 tr L nd = Ok out ->
  get2 dem0 i j = Some x ->
  (Z.of_nat i < inc)%Z \/ (Z.of_nat j < inc)%Z ->
  get2 out i j = Some None.
Proof.
  intros Hinc. unfold curvature_array. rewrite Hinc. cbn [rbind].
  apply compute_inc_positive in Hinc.
  set (dem := match nd with Some q => mask_value dem0 (QS2.of_Q q) | None => dem0 end).
  assert (Hget : forall y, get2 dem0 i j = Some y -> exists y', get2 dem i j = Some y').
  { intros y Hy. unfold dem. destruct nd as [q |]; [| eauto].
    unfold mask_value. rewrite get2_arr_map_eq, Hy. cbn. eauto. }
  clearbody dem.
  destruct (shape dem) as [ny nx].
  destruct (_ || _)%bool; [discriminate |].
  intros H Hx Hborder. destruct (Hget x Hx) as [y Hy]. clear Hget.
  destruct (assign_block_get2 _ _ _ _ _ _ _ i j None H (get2_full_nan _ _ _ _ Hy))
    as (c & Hc & [-> | [-> | (Hi & Hj & _)]]); try exact Hc.
  exfalso. clear H Hc.
  rewrite length_full_nan in Hi. rewrite ncols_full_nan in Hj.
  rewrite !norm_index_nonneg in Hi, Hj by lia.
  lia.
Qed.

(** The embedding raises when the DEM has more than [inc] but fewer than
    [2 * inc] rows: here 3 rows with the offset 2. *)
Lemma curvature_array_small_dem_raises :
  curvature_array (replicate 3 (replicate 3 (ex_cell 250))) ex_transform 2 None
  = Raise (ValueError "could not broadcast input array").
Proof. vm_compute. reflexivity. Qed.

(** ** The nine samples *)

Lemma pad_edge_rows {A} n (a : list (list A)) :
  Forall (fun row => exists r, row = pad_edge1 n r) (pad_edge n a).
Proof.
  unfold pad_edge. apply Forall_pad_edge1.
  change (map ?g ?l) with (g <$> l). apply Forall_fmap.
  apply Forall_true. intros r. cbn. eauto.
Qed.

(** A cell of a slice of the padded DEM whose bounds start at the
    non-negative [r0], [c0], both at most [2 * inc], is the padded cell
    [r0] rows and [c0] columns further. *)
Lemma get2_slice_pad {A} (inc r0 r1 c0 c1 : Z) (a : list (list A)) i j x :
  (0 <= r0 <= 2 * inc)%Z -> (0 <= c0 <= 2 * inc)%Z ->
  get2 (py_slice2 r0 r1 c0 c1 (pad_edge (Z.to_nat inc) a)) i j = Some x ->
  get2 (pad_edge (Z.to_nat inc) a) (Z.to_nat r0 + i) (Z.to_nat c0 + j) = Some x.
Proof.
  intros Hr Hc H. apply get2_py_slice2 in H as (row & Hrow & Hx).
  assert (Ha : a <> []).
  { intros ->. cbn in Hrow. rewrite ?lookup_nil in Hrow. discriminate. }
  rewrite norm_index_nonneg, pad_edge_length in Hrow by (assumption || lia).
  replace (Z.to_nat r0 `min` (length a + 2 * Z.to_nat inc))%nat
    with (Z.to_nat r0) in Hrow by lia.
  pose proof (pad_edge_rows (Z.to_nat inc) a) as Hrows.
  destruct (Forall_lookup_1 _ _ _ _ Hrows Hrow) as [r ->]. clear Hrows.
  assert (Hr0 : r <> []).
  { intros ->. cbn in Hx. rewrite ?lookup_nil in Hx. discriminate. }
  rewrite norm_index_nonneg, pad_edge1_length in Hx by (assumption || lia).
  replace (Z.to_nat c0 `min` (length r + 2 * Z.to_nat inc))%nat
    with (Z.to_nat c0) in Hx by lia.
  unfold get2. rewrite Hrow. exact Hx.
Qed.

Section SampleOffsetClaim.
Local Open Scope Q_scope.

(** C4, as stated, fails: with pixel width 10 and [e = 30] (rows stored
    south to north) and [L = 1000] the code averages [10] and [-30], gets
    a negative cell size and the offset 1; the average of the absolute
    sizes is 20 and gives the offset 50. *)
Lemma compute_inc_south_up_counterexample :
  compute_inc 1000 (mkAffine 10 0 0 0 30 0) = Ok 1%Z /\
  inc_spec 1000 (mkAffine 10 0 0 0 30 0) = 50%Z.
Proof. split; reflexivity. Qed.

End SampleOffsetClaim.

(** * Further properties of the code *)

(** ** Shapes *)

Lemma norm_index_le (len : nat) (z : Z) : (norm_index len z <= len)%nat.
Proof. unfold norm_index. destruct (Z.ltb_spec z 0); lia. Qed.

Lemma py_slice_length {A} (s e : Z) (l : list A) :
  length (py_slice s e l)
  = (norm_index (length l) e - norm_index (length l) s)%nat.
Proof.
  unfold py_slice. rewrite length_take, length_drop.
  pose proof (norm_index_le (length l) e). lia.
Qed.

Lemma rect_py_slice2 {A} r0 r1 c0 c1 (a : list (list A)) h w :
  rect a h w ->
  rect (py_slice2 r0 r1 c0 c1 a)
       (norm_index h r1 - norm_index h r0) (norm_index w c1 - norm_index w c0).
Proof.
  intros [Hh Hw]. unfold rect, py_slice2. split.
  - now rewrite length_map, py_slice_length, Hh.
  - change (map ?g ?l) with (g <$> l). apply Forall_fmap.
    apply Forall_py_slice. eapply Forall_impl; [exact Hw |].
    intros r Hr. cbn. now rewrite py_slice_length, Hr.
Qed.

Lemma pad_edge_rows_in {A} n (a : list (list A)) :
  Forall (fun row => exists r, r ∈ a /\ row = pad_edge1 n r) (pad_edge n a).
Proof.
  unfold pad_edge. apply Forall_pad_edge1.
  change (map ?g ?l) with (g <$> l). apply Forall_fmap.
  apply Forall_forall. intros r Hr. cbn. eauto.
Qed.

Lemma rect_pad_edge {A} n (a : list (list A)) h w :
  rect a h w -> (0 < h)%nat -> (0 < w)%nat ->
  rect (pad_edge n a) (h + 2 * n) (w + 2 * n).
Proof.
  intros [Hh Hw] Hhp Hwp. split.
  - rewrite pad_edge_length; [lia |]. intros ->. cbn in Hh. lia.
  - eapply Forall_impl; [apply pad_edge_rows_in |]. intros row (r & Hr & ->).
    rewrite Forall_forall in Hw. specialize (Hw r Hr).
    rewrite pad_edge1_length; [lia |]. intros ->. cbn in Hw. lia.
Qed.

Lemma rect_arr_map (f : cell -> cell) (a : array) h w :
  rect a h w -> rect (arr_map f a) h w.
Proof.
  intros [Hh Hw]. unfold rect, arr_map. split.
  - now rewrite length_map.
  - change (map ?g ?l) with (g <$> l). apply Forall_fmap.
    eapply Forall_impl; [exact Hw |]. intros r Hr. cbn.
    now rewrite length_map.
Qed.

Lemma rect_arr_zip (f : cell -> cell -> cell) (a b : array) h w :
  rect a h w -> rect b h w -> rect (arr_zip f a b) h w.
Proof.
  intros [Ha Hwa] [Hb Hwb]. unfold rect, arr_zip. split.
  - rewrite length_zip_with. lia.
  - eapply Forall_zip_with_2; [exact Hwa | exact Hwb |].
    intros x y Hx Hy. cbn in *. rewrite length_zip_with. lia.
Qed.

Lemma rect_full_nan {A} (a : list (list A)) h w :
  rect a h w -> rect (full_nan a) h w.
Proof.
  intros [Hh Hw]. unfold rect, full_nan. split.
  - now rewrite length_map.
  - change (map ?g ?l) with (g <$> l). apply Forall_fmap.
    eapply Forall_impl; [exact Hw |]. intros r Hr. cbn.
    now rewrite length_replicate.
Qed.

Lemma rect_masked_dem dem0 nd h w :
  rect dem0 h w -> rect (masked_dem dem0 nd) h w.
Proof.
  intros H. unfold masked_dem. destruct nd; [| exact H].
  now apply rect_arr_map.
Qed.

Lemma rect_ncols {A} (a : list (list A)) h w :
  rect a h w -> (0 < h)%nat -> ncols a = w.
Proof.
  intros [Hh Hw] Hp. destruct a as [| r a]; [cbn in Hh; lia |].
  cbn. now inversion Hw.
Qed.

Lemma rect_shape {A} (a : list (list A)) h w :
  rect a h w -> (0 < h)%nat -> shape a = (h, w).
Proof.
  intros H Hp. unfold shape. rewrite (rect_ncols a h w H Hp).
  destruct H as [-> _]. reflexivity.
Qed.

(** Cropping a rectangle that is large enough. *)
Lemma rect_crop {A} (a : list (list A)) h w c0 c1 :
  rect a h w -> (c0 <= h)%nat -> (c1 <= w)%nat ->
  rect (py_slice2 0 (Z.of_nat c0) 0 (Z.of_nat c1) a) c0 c1.
Proof.
  intros H H0 H1. pose proof (rect_py_slice2 0 (Z.of_nat c0) 0 (Z.of_nat c1) a h w H) as R.
  rewrite !norm_index_0, !norm_index_nonneg in R by lia.
  replace (Z.to_nat (Z.of_nat c0) `min` h - 0)%nat with c0 in R by lia.
  replace (Z.to_nat (Z.of_nat c1) `min` w - 0)%nat with c1 in R by lia.
  exact R.
Qed.

Lemma rect_eq {A} (a : list (list A)) h w h' w' :
  rect a h w -> h = h' -> w = w' -> rect a h' w'.
Proof. now intros H <- <-. Qed.

(** The three extents a slice bound pair of the stencil can have along an
    axis of [d] cells padded by [inc] on both sides. *)
Lemma span_mid (inc : Z) (d : nat) :
  (1 <= inc)%Z ->
  (norm_index (d + 2 * Z.to_nat inc) (- inc)
   - norm_index (d + 2 * Z.to_nat inc) inc = d)%nat.
Proof.
  intros H. unfold norm_index.
  destruct (Z.ltb_spec (- inc) 0); destruct (Z.ltb_spec inc 0); lia.
Qed.

Lemma span_low (inc : Z) (d : nat) :
  (1 <= inc)%Z ->
  (norm_index (d + 2 * Z.to_nat inc) (- 2 * inc)
   - norm_index (d + 2 * Z.to_nat inc) (inc - inc) = d)%nat.
Proof.
  intros H. unfold norm_index.
  destruct (Z.ltb_spec (- 2 * inc) 0); destruct (Z.ltb_spec (inc - inc) 0); lia.
Qed.

Lemma span_high (inc : Z) (d : nat) :
  (1 <= inc)%Z ->
  (norm_index (d + 2 * Z.to_nat inc) (2 * inc + inc)
   - norm_index (d + 2 * Z.to_nat inc) (inc + inc) = Z.to_nat inc `min` d)%nat.
Proof.
  intros H. unfold norm_index.
  destruct (Z.ltb_spec (2 * inc + inc) 0); destruct (Z.ltb_spec (inc + inc) 0); lia.
Qed.

Section NineSlices.
Context (inc : Z) (ny nx : nat) (dem_pad : array).
Hypothesis Hinc : (1 <= inc)%Z.
Hypothesis Hpad : rect dem_pad (ny + 2 * Z.to_nat inc) (nx + 2 * Z.to_nat inc).


Lemma rect_z : rect (py_slice2 inc (- inc) inc (- inc) dem_pad) ny nx.
Proof.
  eapply rect_eq; [apply rect_py_slice2, Hpad | |]; now apply span_mid.
Qed.

Lemma rect_zW :
  rect (py_slice2 inc (- inc) (inc - inc) (- 2 * inc) dem_pad) ny nx.
Proof.
  eapply rect_eq; [apply rect_py_slice2, Hpad | |];
    [now apply span_mid | now apply span_low].
Qed.

Lemma rect_zE :
  rect (py_slice2 inc (- inc) (inc + inc) (2 * inc + inc) dem_pad) ny (Z.to_nat inc `min` nx).
Proof.
  eapply rect_eq; [apply rect_py_slice2, Hpad | |];
    [now apply span_mid | now apply span_high].
Qed.

Lemma rect_zS :
  rect (py_slice2 (inc + inc) (2 * inc + inc) inc (- inc) dem_pad) (Z.to_nat inc `min` ny) nx.
Proof.
  eapply rect_eq; [apply rect_py_slice2, Hpad | |];
    [now apply span_high | now apply span_mid].
Qed.

Lemma rect_zN :
  rect (py_slice2 (inc - inc) (- 2 * inc) inc (- inc) dem_pad) ny nx.
Proof.
  eapply rect_eq; [apply rect_py_slice2, Hpad | |];
    [now apply span_low | now apply span_mid].
Qed.

Lemma rect_zSW :
  rect (py_slice2 (inc + inc) (2 * inc + inc) (inc - inc) (- 2 * inc) dem_pad)
       (Z.to_nat inc `min` ny) nx.
Proof.
  eapply rect_eq; [apply rect_py_slice2, Hpad | |];
    [now apply span_high | now apply span_low].
Qed.

Lemma rect_zNE :
  rect (py_slice2 (inc - inc) (- 2 * inc) (inc + inc) (2 * inc + inc) dem_pad)
       ny (Z.to_nat inc `min` nx).
Proof.
  eapply rect_eq; [apply rect_py_slice2, Hpad | |];
    [now apply span_low | now apply span_high].
Qed.

Lemma rect_zNW :
  rect (py_slice2 (inc - inc) (- 2 * inc) (inc - inc) (- 2 * inc) dem_pad) ny nx.
Proof.
  eapply rect_eq; [apply rect_py_slice2, Hpad | |]; now apply span_low.
Qed.

Lemma rect_zSE :
  rect (py_slice2 (inc + inc) (2 * inc + inc) (inc + inc) (2 * inc + inc) dem_pad)
       (Z.to_nat inc `min` ny) (Z.to_nat inc `min` nx).
Proof.
  eapply rect_eq; [apply rect_py_slice2, Hpad | |]; now apply span_high.
Qed.

Hypothesis Hny : (0 < ny)%nat.
Hypothesis Hnx : (0 < nx)%nat.

(** The shape the nine arrays are cropped to: [inc] by [inc], or less on a
    small DEM. *)
Lemma common_shape_is :
  min_shape
    (map shape
       [py_slice2 inc (- inc) inc (- inc) dem_pad;
        py_slice2 inc (- inc) (inc - inc) (- 2 * inc) dem_pad;
        py_slice2 inc (- inc) (inc + inc) (2 * inc + inc) dem_pad;
        py_slice2 (inc + inc) (2 * inc + inc) inc (- inc) dem_pad;
        py_slice2 (inc - inc) (- 2 * inc) inc (- inc) dem_pad;
        py_slice2 (inc + inc) (2 * inc + inc) (inc - inc) (- 2 * inc) dem_pad;
        py_slice2 (inc - inc) (- 2 * inc) (inc + inc) (2 * inc + inc) dem_pad;
        py_slice2 (inc - inc) (- 2 * inc) (inc - inc) (- 2 * inc) dem_pad;
        py_slice2 (inc + inc) (2 * inc + inc) (inc + inc) (2 * inc + inc) dem_pad])
  = (Z.to_nat inc `min` ny, Z.to_nat inc `min` nx)%nat.
Proof.
  cbn [map].
  rewrite (rect_shape _ _ _ rect_z), (rect_shape _ _ _ rect_zW),
    (rect_shape _ _ _ rect_zE), (rect_shape _ _ _ rect_zS),
    (rect_shape _ _ _ rect_zN), (rect_shape _ _ _ rect_zSW),
    (rect_shape _ _ _ rect_zNE), (rect_shape _ _ _ rect_zNW),
    (rect_shape _ _ _ rect_zSE) by lia.
  cbn [min_shape foldl fst snd]. f_equal; lia.
Qed.

End NineSlices.

(** On a rectangular, non-empty DEM the function comes down to one block
    assignment into the all-NaN raster: the source block has
    [min inc ny] rows and [min inc nx] columns and is stored from row and
    column [inc] on. *)
Lemma curvature_array_as_block dem0 tr L nd ny nx inc :
  rect dem0 ny nx -> (0 < ny)%nat -> (0 < nx)%nat ->
  compute_inc L tr = Ok inc ->
  exists src,
    rect src (Z.to_nat inc `min` ny) (Z.to_nat inc `min` nx) /\
    curvature_array dem0 tr L nd
    = assign_block (full_nan (masked_dem dem0 nd))
        inc (inc + Z.of_nat (Z.to_nat inc `min` ny))
        inc (inc + Z.of_nat (Z.to_nat inc `min` nx)) src.
Proof.
  intros Hrect Hny Hnx Hinc.
  pose proof (compute_inc_positive _ _ _ Hinc) as Hpos.
  unfold curvature_array. fold (masked_dem dem0 nd).
  pose proof (rect_masked_dem dem0 nd ny nx Hrect) as Hdem.
  set (dem := masked_dem dem0 nd) in *. clearbody dem.
  rewrite (rect_shape dem ny nx Hdem Hny), Hinc. cbn [rbind].
  destruct (Nat.eqb_spec ny 0) as [E | _]; [lia |].
  destruct (Nat.eqb_spec nx 0) as [E | _]; [lia |].
  cbn [orb]. cbv zeta.
  pose proof (rect_pad_edge (Z.to_nat inc) dem ny nx Hdem Hny Hnx) as Hpad.
  set (dem_pad := pad_edge (Z.to_nat inc) dem) in *. clearbody dem_pad.
  rewrite (common_shape_is inc ny nx dem_pad Hpos Hpad Hny Hnx). cbn [fst snd].
  set (c0 := (Z.to_nat inc `min` ny)%nat). set (c1 := (Z.to_nat inc `min` nx)%nat).
  assert (Hc0 : (0 < c0)%nat) by (unfold c0; lia).
  pose proof (rect_crop _ _ _ c0 c1 (rect_z inc ny nx dem_pad Hpos Hpad)
                ltac:(unfold c0; lia) ltac:(unfold c1; lia)) as Rz.
  pose proof (rect_crop _ _ _ c0 c1 (rect_zW inc ny nx dem_pad Hpos Hpad)
                ltac:(unfold c0; lia) ltac:(unfold c1; lia)) as RzW.
  pose proof (rect_crop _ _ _ c0 c1 (rect_zE inc ny nx dem_pad Hpos Hpad)
                ltac:(unfold c0; lia) ltac:(unfold c1; lia)) as RzE.
  pose proof (rect_crop _ _ _ c0 c1 (rect_zS inc ny nx dem_pad Hpos Hpad)
                ltac:(unfold c0; lia) ltac:(unfold c1; lia)) as RzS.
  pose proof (rect_crop _ _ _ c0 c1 (rect_zN inc ny nx dem_pad Hpos Hpad)
                ltac:(unfold c0; lia) ltac:(unfold c1; lia)) as RzN.
  pose proof (rect_crop _ _ _ c0 c1 (rect_zSW inc ny nx dem_pad Hpos Hpad)
                ltac:(unfold c0; lia) ltac:(unfold c1; lia)) as RzSW.
  pose proof (rect_crop _ _ _ c0 c1 (rect_zNE inc ny nx dem_pad Hpos Hpad)
                ltac:(unfold c0; lia) ltac:(unfold c1; lia)) as RzNE.
  pose proof (rect_crop _ _ _ c0 c1 (rect_zNW inc ny nx dem_pad Hpos Hpad)
                ltac:(unfold c0; lia) ltac:(unfold c1; lia)) as RzNW.
  pose proof (rect_crop _ _ _ c0 c1 (rect_zSE inc ny nx dem_pad Hpos Hpad)
                ltac:(unfold c0; lia) ltac:(unfold c1; lia)) as RzSE.
  match goal with
  | |- context [assign_block _ _ _ _ _ ?S = _] => set (src := S)
  end.
  assert (Hsrc : rect src c0 c1).
  { unfold src, arr_div, mask_nan, arr_add, arr_sub, arr_scale.
    repeat first [ apply rect_arr_map | apply rect_arr_zip ]; assumption. }
  exists src. split; [exact Hsrc |].
  now rewrite (rect_shape src c0 c1 Hsrc Hc0).
Qed.

Lemma assign_block_rect (dst : array) r0 r1 c0 c1 (src out : array) h w :
  assign_block dst r0 r1 c0 c1 src = Ok out -> rect dst h w -> rect out h w.
Proof.
  unfold assign_block. destruct (shape dst), (shape src).
  destruct (_ && _); [| discriminate].
  intros [= <-] [Hh Hw]. split.
  - now rewrite length_imap.
  - eapply Forall_imap_2; [exact Hw |]. intros i row Hrow. cbn.
    destruct (_ && _); [| exact Hrow]. now rewrite length_imap.
Qed.

Lemma rect_get2 {A} (a : list (list A)) h w i j :
  rect a h w -> (i < h)%nat -> (j < w)%nat -> exists x, get2 a i j = Some x.
Proof.
  intros [Hh Hw] Hi Hj. unfold get2.
  destruct (lookup_lt_is_Some_2 a i ltac:(lia)) as [row Hrow].
  rewrite Hrow. cbn. eapply Forall_lookup_1 in Hw; [| exact Hrow].
  apply lookup_lt_is_Some_2. cbn in Hw. lia.
Qed.

Lemma get2_rect {A} (a : list (list A)) h w i j x :
  rect a h w -> get2 a i j = Some x -> (i < h)%nat /\ (j < w)%nat.
Proof.
  intros [Hh Hw] H. unfold get2 in H.
  destruct (a !! i) as [row |] eqn:Hrow; [| discriminate]. cbn in H.
  pose proof (lookup_lt_Some _ _ _ Hrow).
  eapply Forall_lookup_1 in Hw; [| exact Hrow]. cbn in Hw.
  pose proof (lookup_lt_Some _ _ _ H). lia.
Qed.

(** The block assignment of the embedding step, on rectangles: it goes
    through exactly when NumPy can broadcast the source into the target
    slice. *)
Lemma assign_block_outcome (dst src : array) (inc : Z) ny nx sr sc :
  rect dst ny nx -> rect src sr sc -> (0 < ny)%nat -> (0 < sr)%nat ->
  (1 <= inc)%Z ->
  let tr := ((Z.to_nat inc + sr) `min` ny - Z.to_nat inc `min` ny)%nat in
  let tc := ((Z.to_nat inc + sc) `min` nx - Z.to_nat inc `min` nx)%nat in
  (broadcastable sr tr && broadcastable sc tc = true ->
   exists out, assign_block dst inc (inc + Z.of_nat sr) inc (inc + Z.of_nat sc) src
               = Ok out) /\
  (broadcastable sr tr && broadcastable sc tc = false ->
   assign_block dst inc (inc + Z.of_nat sr) inc (inc + Z.of_nat sc) src
   = Raise (ValueError "could not broadcast input array")).
Proof.
  intros Hdst Hsrc Hny Hsr Hinc tr tc. unfold assign_block.
  rewrite (rect_shape dst ny nx Hdst Hny), (rect_shape src sr sc Hsrc Hsr).
  rewrite !norm_index_nonneg by lia.
  replace (Z.to_nat (inc + Z.of_nat sr)) with (Z.to_nat inc + sr)%nat by lia.
  replace (Z.to_nat (inc + Z.of_nat sc)) with (Z.to_nat inc + sc)%nat by lia.
  fold tr tc. split; intros ->; eauto.
Qed.

(** X1. A rectangular DEM with at least [2 * inc] rows and columns is
    processed without error, and the result has the DEM's shape. *)
Theorem curvature_array_large_dem_ok :
  forall dem0 tr L nd ny nx inc,
    rect dem0 ny nx ->
    compute_inc L tr = Ok inc ->
    (2 * inc <= Z.of_nat ny)%Z -> (2 * inc <= Z.of_nat nx)%Z ->
    exists out, curvature_array dem0 tr L nd = Ok out /\ rect out ny nx.
Proof.
  intros dem0 tr L nd ny nx inc Hrect Hinc Hny Hnx.
  pose proof (compute_inc_positive _ _ _ Hinc) as Hpos.
  destruct (curvature_array_as_block dem0 tr L nd ny nx inc Hrect
              ltac:(lia) ltac:(lia) Hinc) as (src & Hsrc & ->).
  pose proof (rect_full_nan _ _ _ (rect_masked_dem dem0 nd ny nx Hrect)) as Hdst.
  destruct (assign_block_outcome _ _ inc ny nx _ _ Hdst Hsrc
              ltac:(lia) ltac:(lia) Hpos) as [Hok _].
  destruct Hok as [out Hout].
  - unfold broadcastable. apply andb_true_iff. split; apply orb_true_iff; left;
      apply Nat.eqb_eq; lia.
  - exists out. split; [exact Hout |]. eapply assign_block_rect; eauto.
Qed.

Lemma curvature_array_large_dem_ok_witness :
  exists out, curvature_array ex_dem ex_transform 1 None = Ok out /\ rect out 4 4.
Proof.
  apply (curvature_array_large_dem_ok ex_dem ex_transform 1%Q None 4 4 1%Z).
  - split; [reflexivity | repeat constructor].
  - reflexivity.
  - lia.
  - lia.
Defined.

(** X2. A rectangular DEM with more than [inc] but fewer than [2 * inc] rows
    (or columns) makes the embedding step raise [ValueError]: the block
    computed has [inc] rows and the slice it is assigned to has fewer. *)
Theorem curvature_array_mid_dem_raises :
  forall dem0 tr L nd ny nx inc,
    rect dem0 ny nx -> (0 < ny)%nat -> (0 < nx)%nat ->
    compute_inc L tr = Ok inc ->
    (inc < Z.of_nat ny < 2 * inc)%Z \/ (inc < Z.of_nat nx < 2 * inc)%Z ->
    curvature_array dem0 tr L nd
    = Raise (ValueError "could not broadcast input array").
Proof.
  intros dem0 tr L nd ny nx inc Hrect Hny Hnx Hinc Hmid.
  pose proof (compute_inc_positive _ _ _ Hinc) as Hpos.
  destruct (curvature_array_as_block dem0 tr L nd ny nx inc Hrect Hny Hnx Hinc)
    as (src & Hsrc & ->).
  pose proof (rect_full_nan _ _ _ (rect_masked_dem dem0 nd ny nx Hrect)) as Hdst.
  destruct (assign_block_outcome _ _ inc ny nx _ _ Hdst Hsrc
              Hny ltac:(lia) Hpos) as [_ Hbad].
  apply Hbad. unfold broadcastable. apply andb_false_iff.
  destruct Hmid as [H | H]; [left | right]; apply orb_false_iff;
    split; apply Nat.eqb_neq; lia.
Qed.

Lemma curvature_array_mid_dem_raises_witness :
  curvature_array (replicate 3 (replicate 3 (ex_cell 250))) ex_transform 2 None
  = Raise (ValueError "could not broadcast input array").
Proof.
  apply (curvature_array_mid_dem_raises _ ex_transform 2%Q None 3 3 2%Z).
  - split; [reflexivity | repeat constructor].
  - lia.
  - lia.
  - reflexivity.
  - lia.
Defined.

(** X3. The raster a fresh run writes has the DEM's transform, CRS and
    shape. *)
Theorem curvature_raster_keeps_georeference :
  forall dem_path wd L nd w p w' r ny nx,
    files w !! dem_path = Some (RasterFile r) ->
    rect (band1 r) ny nx ->
    path_exists (curvature_path_of wd) w = false ->
    compute_topographic_curvature dem_path wd L nd w = (Ok p, w') ->
    exists r',
      files w' !! p = Some (RasterFile r') /\
      transform r' = transform r /\ crs r' = crs r /\
      rect (band1 r') ny nx.
Proof.
  intros dem_path wd L nd w p w' r ny nx Hdem Hrect Hex Hrun.
  destruct (compute_topographic_curvature_fresh _ _ _ _ _ _ _ Hex Hrun)
    as (r0 & out & Hdem' & Hcurv & Hfile).
  rewrite Hdem in Hdem'. injection Hdem' as <-.
  eexists. split; [exact Hfile |]. cbn [transform crs band1].
  split; [reflexivity |]. split; [reflexivity |].
  destruct (compute_inc L (transform r)) as [inc | e] eqn:Hinc.
  - destruct (Nat.eq_dec ny 0) as [-> | Hny].
    { unfold curvature_array in Hcurv. fold (masked_dem (band1 r) nd) in Hcurv.
      pose proof (rect_masked_dem _ nd _ _ Hrect) as [Hlen _].
      destruct (masked_dem (band1 r) nd); [| discriminate].
      rewrite Hinc in Hcurv. cbn in Hcurv. discriminate. }
    destruct (Nat.eq_dec nx 0) as [-> | Hnx].
    { unfold curvature_array in Hcurv. fold (masked_dem (band1 r) nd) in Hcurv.
      pose proof (rect_masked_dem _ nd _ _ Hrect) as Hm.
      rewrite (rect_shape _ _ _ Hm ltac:(lia)), Hinc in Hcurv. cbn [rbind] in Hcurv.
      rewrite Nat.eqb_refl, orb_true_r in Hcurv. discriminate. }
    destruct (curvature_array_as_block (band1 r) (transform r) L nd ny nx inc
                Hrect ltac:(lia) ltac:(lia) Hinc) as (src & Hsrc & E).
    rewrite E in Hcurv. eapply assign_block_rect; [exact Hcurv |].
    apply rect_full_nan. now apply rect_masked_dem.
  - unfold curvature_array in Hcurv. destruct (shape _).
    rewrite Hinc in Hcurv. discriminate.
Qed.

Lemma curvature_raster_keeps_georeference_witness :
  exists r',
    files (compute_topographic_curvature "dem.tif" "/wd" 1 None ex_world).2
      !! "/wd/inputs/dem/curvature.tif" = Some (RasterFile r') /\
    transform r' = ex_transform /\ crs r' = "EPSG:32632" /\
    rect (band1 r') 4 4.
Proof.
  apply (curvature_raster_keeps_georeference "dem.tif" "/wd" 1%Q None ex_world
           "/wd/inputs/dem/curvature.tif" _
           (mkRaster ex_dem ex_transform "EPSG:32632") 4 4).
  - reflexivity.
  - split; [reflexivity | repeat constructor].
  - vm_compute. reflexivity.
  - vm_compute. reflexivity.
Defined.

(** X4. Whatever the DEM holds, a cell of the result is defined only for a
    row and a column index in [[inc, 2 * inc)]: the first [inc] rows and
    columns are never written, and the block that is written is at most
    [inc] cells wide and high. *)
Theorem curvature_defined_only_in_block :
  forall dem0 tr L nd ny nx inc out i j (v : num),
    rect dem0 ny nx ->
    compute_inc L tr = Ok inc ->
    curvature_array dem0 tr L nd = Ok out ->
    get2 out i j = Some (Some v) ->
    (inc <= Z.of_nat i < 2 * inc)%Z /\ (inc <= Z.of_nat j < 2 * inc)%Z.
Proof.
  intros dem0 tr L nd ny nx inc out i j v Hrect Hinc Hcurv Hget.
  pose proof (compute_inc_positive _ _ _ Hinc) as Hpos.
  assert (Hny : (0 < ny)%nat).
  { destruct (Nat.eq_dec ny 0) as [-> | ?]; [| lia]. exfalso.
    unfold curvature_array in Hcurv. fold (masked_dem dem0 nd) in Hcurv.
    pose proof (rect_masked_dem _ nd _ _ Hrect) as [Hlen _].
    destruct (masked_dem dem0 nd); [| discriminate].
    rewrite Hinc in Hcurv. cbn in Hcurv. discriminate. }
  assert (Hnx : (0 < nx)%nat).
  { destruct (Nat.eq_dec nx 0) as [-> | ?]; [| lia]. exfalso.
    unfold curvature_array in Hcurv. fold (masked_dem dem0 nd) in Hcurv.
    pose proof (rect_masked_dem _ nd _ _ Hrect) as Hm.
    rewrite (rect_shape _ _ _ Hm Hny), Hinc in Hcurv. cbn [rbind] in Hcurv.
    rewrite Nat.eqb_refl, orb_true_r in Hcurv. discriminate. }
  destruct (curvature_array_as_block dem0 tr L nd ny nx inc Hrect Hny Hnx Hinc)
    as (src & Hsrc & E).
  rewrite E in Hcurv. clear E.
  pose proof (rect_full_nan _ _ _ (rect_masked_dem dem0 nd ny nx Hrect)) as Hdst.
  pose proof (assign_block_rect _ _ _ _ _ _ _ _ _ Hcurv Hdst) as Hout.
  destruct (get2_rect _ _ _ _ _ _ Hout Hget) as [Hi Hj].
  destruct (rect_get2 _ _ _ i j (rect_masked_dem dem0 nd ny nx Hrect) Hi Hj)
    as [x Hx].
  destruct (assign_block_get2 _ _ _ _ _ _ _ i j None Hcurv (get2_full_nan _ _ _ _ Hx))
    as (c & Hc & [-> | [-> | (Hbi & Hbj & _)]]);
    try (rewrite Hget in Hc; discriminate).
  destruct Hdst as [Hlen _].
  rewrite Hlen in Hbi.
  rewrite (rect_ncols _ _ _ (rect_full_nan _ _ _ (rect_masked_dem dem0 nd ny nx Hrect)) Hny)
    in Hbj.
  rewrite !norm_index_nonneg in Hbi, Hbj by lia.
  lia.
Qed.

Lemma curvature_defined_only_in_block_witness :
  (1 <= Z.of_nat 1 < 2 * 1)%Z /\ (1 <= Z.of_nat 1 < 2 * 1)%Z.
Proof.
  destruct (curvature_array ex_dem ex_transform 1 None) as [out | e] eqn:E;
    [| vm_compute in E; discriminate].
  apply (curvature_defined_only_in_block ex_dem ex_transform 1%Q None 4 4 1%Z
           out 1%nat 1%nat (QS2.of_Q (- 1 # 2))).
  - split; [reflexivity | repeat constructor].
  - reflexivity.
  - exact E.
  - vm_compute in E. injection E as <-. reflexivity.
Defined.

(** ** A DEM without data *)

Lemma masked_dem_all_nan dem0 nd :
  All2d (is_nodata nd) dem0 -> All2d (fun c => c = None) (masked_dem dem0 nd).
Proof.
  intros H. unfold masked_dem. destruct nd as [q |].
  - unfold mask_value. eapply All2d_arr_map; [exact H |].
    intros [v |] Hv; [| reflexivity]. destruct Hv as (q' & [= <-] & Hq).
    now rewrite Hq.
  - eapply All2d_impl; [exact H |]. intros [v |] Hv; [| reflexivity].
    now destruct Hv as (q' & Hq & _).
Qed.

Lemma All2d_sub_nan_l (a b : array) :
  All2d (fun c => c = None) a -> All2d (fun c => c = None) (arr_sub a b).
Proof.
  intros Ha. unfold arr_sub.
  eapply All2d_arr_zip; [exact Ha | apply (All2d_true b) |].
  now intros x y -> _.
Qed.

Lemma All2d_add_nan_l (a b : array) :
  All2d (fun c => c = None) a -> All2d (fun c => c = None) (arr_add a b).
Proof.
  intros Ha. unfold arr_add.
  eapply All2d_arr_zip; [exact Ha | apply (All2d_true b) |].
  now intros x y -> _.
Qed.

Lemma All2d_div_nan (a : array) (k : num) :
  All2d (fun c => c = None) a -> All2d (fun c => c = None) (arr_div a k).
Proof.
  intros Ha. unfold arr_div. eapply All2d_arr_map; [exact Ha |]. now intros c ->.
Qed.

Lemma curvature_array_all_nan dem0 tr L nd out :
  All2d (is_nodata nd) dem0 ->
  curvature_array dem0 tr L nd = Ok out ->
  All2d (fun c => c = None) out.
Proof.
  intros Hvoid. apply masked_dem_all_nan in Hvoid.
  unfold curvature_array. fold (masked_dem dem0 nd).
  set (dem := masked_dem dem0 nd) in *. clearbody dem.
  destruct (shape dem) as [ny nx].
  destruct (compute_inc L tr) as [inc | err]; [| discriminate].
  cbn [rbind]. destruct (_ || _)%bool; [discriminate |].
  pose proof (All2d_pad_edge _ (Z.to_nat inc) _ Hvoid) as Hpad.
  set (dem_pad := pad_edge (Z.to_nat inc) dem) in *. clearbody dem_pad.
  intros H. eapply All2d_assign_block in H; [exact H | | | reflexivity].
  - apply All2d_full_nan.
  - apply All2d_div_nan. apply All2d_mask_nan; [| reflexivity].
    apply All2d_add_nan_l.
    apply All2d_div_nan. repeat apply All2d_sub_nan_l.
    unfold arr_scale. eapply All2d_arr_map;
      [repeat apply All2d_py_slice2; exact Hpad |].
    now intros c ->.
Qed.

(** X5. A DEM whose every cell is NaN or the sentinel does not make the
    computation fail: on a rectangular DEM of at least [2 * inc] rows and
    columns the result exists, has the DEM's shape and is NaN everywhere
    ([np.nanmax] of an all-NaN array is NaN and Python's [max(0.001, nan)]
    is [0.001]). *)
Theorem curvature_array_void_dem :
  forall dem0 tr L nd ny nx inc,
    rect dem0 ny nx ->
    All2d (is_nodata nd) dem0 ->
    compute_inc L tr = Ok inc ->
    (2 * inc <= Z.of_nat ny)%Z -> (2 * inc <= Z.of_nat nx)%Z ->
    exists out,
      curvature_array dem0 tr L nd = Ok out /\
      rect out ny nx /\ All2d (fun c => c = None) out.
Proof.
  intros dem0 tr L nd ny nx inc Hrect Hvoid Hinc Hny Hnx.
  pose proof (compute_inc_positive _ _ _ Hinc) as Hpos.
  destruct (curvature_array_as_block dem0 tr L nd ny nx inc Hrect
              ltac:(lia) ltac:(lia) Hinc) as (src & Hsrc & E).
  pose proof (rect_full_nan _ _ _ (rect_masked_dem dem0 nd ny nx Hrect)) as Hdst.
  destruct (assign_block_outcome _ _ inc ny nx _ _ Hdst Hsrc
              ltac:(lia) ltac:(lia) Hpos) as [Hok _].
  destruct Hok as [out Hout].
  { unfold broadcastable. apply andb_true_iff. split; apply orb_true_iff; left;
      apply Nat.eqb_eq; lia. }
  exists out. rewrite E. split; [exact Hout |]. split.
  - eapply assign_block_rect; eauto.
  - eapply curvature_array_all_nan; [exact Hvoid |]. now rewrite E.
Qed.

Lemma curvature_array_void_dem_witness :
  exists out,
    curvature_array ex_void_dem ex_km_transform 1000 (Some (-9999)%Q) = Ok out /\
    rect out 2 2 /\ All2d (fun c => c = None) out.
Proof.
  apply (curvature_array_void_dem ex_void_dem ex_km_transform 1000%Q
           (Some (-9999)%Q) 2 2 1%Z).
  - split; [reflexivity | repeat constructor].
  - repeat constructor; exists (-9999)%Q; split; reflexivity.
  - reflexivity.
  - lia.
  - lia.
Defined.

(** ** Degenerate geotransforms *)

Section CellSize.
Local Open Scope Q_scope.

Lemma compute_inc_zero_cell_size (L : Q) (tr : affine) :
  aff_a tr == aff_e tr -> compute_inc L tr = Raise ZeroDivisionError.
Proof.
  intros H. unfold compute_inc.
  destruct (Qeq_bool _ 0) eqn:E; [reflexivity |].
  apply Qeq_bool_neq in E. exfalso. apply E. rewrite H. ring.
Qed.

(** X6. When the pixel width [a] equals the transform's [e] (a raster
    stored south-up with square pixels), the mean of [a] and [-e] is zero
    and the function raises [ZeroDivisionError], whatever the DEM holds. *)
Theorem curvature_array_zero_cell_size :
  forall dem0 tr L nd,
    aff_a tr == aff_e tr ->
    curvature_array dem0 tr L nd = Raise ZeroDivisionError.
Proof.
  intros dem0 tr L nd H. unfold curvature_array.
  destruct (shape _) as [ny nx].
  now rewrite (compute_inc_zero_cell_size L tr H).
Qed.

Lemma curvature_array_zero_cell_size_witness :
  curvature_array ex_dem (mkAffine 30 0 0 0 30 0) 1000 None
  = Raise ZeroDivisionError.
Proof.
  apply (curvature_array_zero_cell_size ex_dem (mkAffine 30 0 0 0 30 0) 1000 None).
  reflexivity.
Defined.

Lemma py_round_nonpos (q : Q) : q <= 0 -> (py_round q <= 0)%Z.
Proof.
  intros Hq. unfold py_round.
  pose proof (Qfloor_le q) as Hf.
  assert (Hf0 : (Qfloor q <= 0)%Z).
  { rewrite Zle_Qle. change (inject_Z 0) with 0.
    eapply Qle_trans; [exact Hf | exact Hq]. }
  assert (Hstrict : 0 < q - inject_Z (Qfloor q) -> (Qfloor q + 1 <= 0)%Z).
  { intros Hpos. assert (Hlt : inject_Z (Qfloor q) < 0).
    { apply Qlt_le_trans with q; [| exact Hq].
      apply Qlt_minus_iff. exact Hpos. }
    change 0 with (inject_Z 0) in Hlt. rewrite <- Zlt_Qlt in Hlt. lia. }
  destruct (Qcompare_spec (q - inject_Z (Qfloor q)) (1 # 2)) as [E | E | E].
  - assert (Hpos : 0 < q - inject_Z (Qfloor q)) by (rewrite E; reflexivity).
    specialize (Hstrict Hpos). destruct (Z.even (Qfloor q)); lia.
  - exact Hf0.
  - apply Hstrict. eapply Qlt_trans; [| exact E]. reflexivity.
Qed.

(** X7. When [e] exceeds the pixel width (the mean of [a] and [-e] is
    negative) and [L] is not negative, the offset is 1 whatever [L] is:
    [round(L / deltaxy)] is not positive and [max(1, _)] takes over. *)
Theorem compute_inc_negative_cell_size :
  forall (L : Q) (tr : affine),
    0 <= L -> aff_a tr < aff_e tr -> compute_inc L tr = Ok 1%Z.
Proof.
  intros L tr HL Hae.
  assert (Hne : ~ aff_a tr - aff_e tr == 0).
  { intros E. apply (Qlt_irrefl (aff_e tr)).
    assert (E' : aff_a tr == aff_e tr).
    { rewrite <- (Qplus_0_l (aff_e tr)), <- E. ring. }
    now rewrite <- E' at 1. }
  rewrite (compute_inc_ok L tr Hne). f_equal.
  set (d := (1 # 2) * (aff_a tr + - aff_e tr)).
  assert (Hd : d < 0).
  { unfold d. apply Qlt_minus_iff in Hae.
    assert (E : (1 # 2) * (aff_a tr + - aff_e tr) == - ((1 # 2) * (aff_e tr + - aff_a tr)))
      by ring.
    rewrite E. apply Qlt_minus_iff.
    assert (E2 : 0 + - - ((1 # 2) * (aff_e tr + - aff_a tr))
                 == (1 # 2) * (aff_e tr + - aff_a tr)) by ring.
    rewrite E2. apply Qmult_lt_0_compat; [reflexivity | exact Hae]. }
  assert (Hq : L / d <= 0).
  { assert (Hnd : 0 < - d) by (apply (Qopp_lt_compat d 0); exact Hd).
    assert (Hpos : 0 <= L * / (- d)).
    { apply Qmult_le_0_compat; [exact HL |].
      apply Qinv_le_0_compat, Qlt_le_weak, Hnd. }
    assert (E : L / d == - (L * / (- d))).
    { field. intros Ed. rewrite Ed in Hd. discriminate. }
    rewrite E. apply (Qopp_le_compat 0 _ Hpos). }
  pose proof (py_round_nonpos _ Hq). lia.
Qed.

Lemma compute_inc_negative_cell_size_witness :
  compute_inc 1000 (mkAffine 10 0 0 0 30 0) = Ok 1%Z.
Proof.
  apply (compute_inc_negative_cell_size 1000 (mkAffine 10 0 0 0 30 0)).
  - discriminate.
  - reflexivity.
Defined.

End CellSize.

(** ** A failed computation leaves no output *)

(** X8. When the numerical part fails (a zero cell size, a DEM too small
    for the offset), the call raises that exception before the output file
    is opened: no file is changed and nothing stands at the curvature path
    afterwards, so that a later run is not taken for an up-to-date one. *)
Theorem compute_topographic_curvature_numeric_failure :
  forall dem_path wd L nd w r e,
    no_file_on_the_way (curvature_output_dir wd) w ->
    files w !! dem_path = Some (RasterFile r) ->
    path_exists (curvature_path_of wd) w = false ->
    curvature_array (band1 r) (transform r) L nd = Raise e ->
    exists w',
      compute_topographic_curvature dem_path wd L nd w = (Raise e, w') /\
      files w' = files w /\
      path_exists (curvature_path_of wd) w' = false.
Proof.
  intros dem_path wd L nd w r e [Hdir _] Hdem Hex Hnum.
  unfold compute_topographic_curvature, bind, makedirs.
  fold (curvature_output_dir wd). fold (curvature_path_of wd).
  rewrite curvature_output_dir_nonempty, Hdir.
  assert (Hex' : path_exists (curvature_path_of wd)
                   (mkWorld (files w) ({[curvature_output_dir wd]} ∪ dirs w) (stdout w))
                 = false).
  { unfold path_exists in *. cbn [files dirs].
    apply orb_false_iff in Hex as [Hf Hd]. apply orb_false_iff. split; [exact Hf |].
    apply bool_decide_eq_false_1 in Hd. apply bool_decide_eq_false_2.
    rewrite elem_of_union, elem_of_singleton.
    intros [E | E]; [now apply (curvature_path_not_dir wd) | now apply Hd]. }
  rewrite Hex'. unfold rasterio_read. cbn [files]. rewrite Hdem.
  unfold lift. rewrite Hnum.
  eexists. split; [reflexivity |]. split; [reflexivity | exact Hex'].
Qed.

Lemma compute_topographic_curvature_numeric_failure_witness :
  exists w',
    compute_topographic_curvature "dem.tif" "/wd" 3 None ex_world
    = (Raise (ValueError "could not broadcast input array"), w') /\
    files w' = files ex_world /\
    path_exists (curvature_path_of "/wd") w' = false.
Proof.
  apply (compute_topographic_curvature_numeric_failure "dem.tif" "/wd" 3%Q None
           ex_world (mkRaster ex_dem ex_transform "EPSG:32632")).
  - split; [reflexivity |]. intros q rest E.
    apply lookup_singleton_ne. intros <-. discriminate E.
  - reflexivity.
  - vm_compute. reflexivity.
  - vm_compute. reflexivity.
Defined.

(** ** [create_full_micromet_folder_structure] *)

Lemma makedirs_ok p w :
  p <> "" -> files w !! p = None ->
  makedirs p w = (Ok tt, mkWorld (files w) ({[p]} ∪ dirs w) (stdout w)).
Proof.
  intros Hp Hf. unfold makedirs.
  apply String.eqb_neq in Hp. now rewrite Hp, Hf.
Qed.

Lemma makedirs_file p w f :
  p <> "" -> files w !! p = Some f ->
  makedirs p w = (Raise (FileExistsError p), w).
Proof.
  intros Hp Hf. unfold makedirs.
  apply String.eqb_neq in Hp. now rewrite Hp, Hf.
Qed.

Lemma micromet_folder_nonempty base p :
  p ∈ micromet_folders base -> p <> "".
Proof.
  unfold micromet_folders. intros H.
  repeat (apply elem_of_cons in H as [-> | H]);
    [ .. | now apply elem_of_nil in H ];
    apply path_join_nonempty; (reflexivity || discriminate).
Qed.

(** X9. When no regular file stands at one of the three folders or on the
    way to it, [create_full_micromet_folder_structure] succeeds: the three
    folders are directories afterwards, the directories that existed still
    exist, no file is touched and one line is printed. It can be run again
    on the result: the second run succeeds and leaves the same directories
    and files. *)
Theorem create_full_micromet_folder_structure_rerun :
  forall base w,
    (forall p, p ∈ micromet_folders base -> no_file_on_the_way p w) ->
    exists w1 w2,
      create_full_micromet_folder_structure base w = (Ok tt, w1) /\
      files w1 = files w /\
      (forall p, p ∈ micromet_folders base \/ p ∈ dirs w -> p ∈ dirs w1) /\
      stdout w1 = (stdout w ++ ["Micromet folder structure created successfully."])%list /\
      create_full_micromet_folder_structure base w1 = (Ok tt, w2) /\
      files w2 = files w1 /\ dirs w2 = dirs w1.
Proof.
  intros base w Hfree.
  assert (H1 : files w !! path_join base "inputs/climate" = None)
    by (apply Hfree; unfold micromet_folders; set_solver).
  assert (H2 : files w !! path_join base "inputs/dem" = None)
    by (apply Hfree; unfold micromet_folders; set_solver).
  assert (H3 : files w !! path_join base "outputs" = None)
    by (apply Hfree; unfold micromet_folders; set_solver).
  assert (N1 : path_join base "inputs/climate" <> "")
    by (apply path_join_nonempty; [reflexivity | discriminate]).
  assert (N2 : path_join base "inputs/dem" <> "")
    by (apply path_join_nonempty; [reflexivity | discriminate]).
  assert (N3 : path_join base "outputs" <> "")
    by (apply path_join_nonempty; [reflexivity | discriminate]).
  unfold create_full_micromet_folder_structure, bind.
  rewrite makedirs_ok by (cbn [files]; assumption).
  rewrite makedirs_ok by (cbn [files]; assumption).
  rewrite makedirs_ok by (cbn [files]; assumption).
  unfold print. cbn [files dirs stdout].
  eexists _, _. split; [reflexivity |]. cbn [files dirs stdout].
  split; [reflexivity |]. split.
  { intros p. unfold micromet_folders. set_solver. }
  split; [reflexivity |].
  rewrite makedirs_ok by (cbn [files]; assumption). cbn [files dirs stdout].
  rewrite makedirs_ok by (cbn [files]; assumption). cbn [files dirs stdout].
  rewrite makedirs_ok by (cbn [files]; assumption). cbn [files dirs stdout].
  split; [reflexivity |]. split; [reflexivity |].
  set_solver.
Qed.

Lemma create_full_micromet_folder_structure_rerun_witness :
  exists w1 w2,
    create_full_micromet_folder_structure "/wd" ex_empty_world = (Ok tt, w1) /\
    files w1 = files ex_empty_world /\
    (forall p, p ∈ micromet_folders "/wd" \/ p ∈ dirs ex_empty_world -> p ∈ dirs w1) /\
    stdout w1
    = (stdout ex_empty_world ++ ["Micromet folder structure created successfully."])%list /\
    create_full_micromet_folder_structure "/wd" w1 = (Ok tt, w2) /\
    files w2 = files w1 /\ dirs w2 = dirs w1.
Proof.
  apply (create_full_micromet_folder_structure_rerun "/wd" ex_empty_world).
  intros p _. split; [reflexivity | intros q rest _; reflexivity].
Defined.

(** X10. A regular file in the place of one of the three folders, with no
    regular file on the way to any of them, makes
    [create_full_micromet_folder_structure] raise [FileExistsError] for a
    folder that is a regular file; no file is touched. *)
Theorem create_full_micromet_folder_structure_file_in_place :
  forall base w p f,
    p ∈ micromet_folders base -> files w !! p = Some f ->
    (forall p' q rest,
        p' ∈ micromet_folders base -> p' = q ++ "/" ++ rest ->
        files w !! q = None) ->
    exists q w',
      q ∈ micromet_folders base /\ is_Some (files w !! q) /\
      create_full_micromet_folder_structure base w = (Raise (FileExistsError q), w') /\
      files w' = files w.
Proof.
  intros base w p f Hp Hf _.
  assert (N1 : path_join base "inputs/climate" <> "")
    by (apply path_join_nonempty; [reflexivity | discriminate]).
  assert (N2 : path_join base "inputs/dem" <> "")
    by (apply path_join_nonempty; [reflexivity | discriminate]).
  assert (N3 : path_join base "outputs" <> "")
    by (apply path_join_nonempty; [reflexivity | discriminate]).
  unfold create_full_micromet_folder_structure, bind.
  destruct (files w !! path_join base "inputs/climate") as [f1 |] eqn:H1.
  { erewrite makedirs_file by (cbn [files]; eassumption). eexists _, _.
    split; [| split; [rewrite H1; eauto | split; reflexivity]].
    unfold micromet_folders. set_solver. }
  rewrite makedirs_ok by (cbn [files]; assumption).
  destruct (files w !! path_join base "inputs/dem") as [f2 |] eqn:H2.
  { erewrite makedirs_file by (cbn [files]; eassumption). eexists _, _.
    split; [| split; [rewrite H2; eauto | split; reflexivity]].
    unfold micromet_folders. set_solver. }
  rewrite makedirs_ok by (cbn [files]; assumption).
  destruct (files w !! path_join base "outputs") as [f3 |] eqn:H3.
  { erewrite makedirs_file by (cbn [files]; eassumption). eexists _, _.
    split; [| split; [rewrite H3; eauto | split; reflexivity]].
    unfold micromet_folders. set_solver. }
  exfalso. unfold micromet_folders in Hp.
  repeat (apply elem_of_cons in Hp as [-> | Hp]);
    [ .. | now apply elem_of_nil in Hp ]; congruence.
Qed.

Lemma create_full_micromet_folder_structure_file_in_place_witness :
  exists q w',
    q ∈ micromet_folders "" /\
    is_Some (files (mkWorld {["outputs" := OtherFile]} ∅ []) !! q) /\
    create_full_micromet_folder_structure ""
      (mkWorld {["outputs" := OtherFile]} ∅ [])
    = (Raise (FileExistsError q), w') /\
    files w' = files (mkWorld {["outputs" := OtherFile]} ∅ []).
Proof.
  apply (create_full_micromet_folder_structure_file_in_place ""
           (mkWorld {["outputs" := OtherFile]} ∅ []) "outputs" OtherFile).
  - unfold micromet_folders. cbn. set_solver.
  - reflexivity.
  - intros p' q rest Hp' E. cbn [files]. apply lookup_singleton_ne. intros <-.
    unfold micromet_folders in Hp'.
    repeat (apply elem_of_cons in Hp' as [-> | Hp']);
      [ .. | now apply elem_of_nil in Hp' ]; discriminate E.
Defined.

(** ** [compute_slope_aspect] *)

(** X11. [compute_slope_aspect] does not look at what [gdaldem] did beyond
    choosing the line it prints: when no regular file stands at the output
    directory or on the way to it and the shell itself does not raise, the
    call returns the two output paths
    [working_directory/inputs/dem/slope.tif] and [.../aspect.tif] whatever
    the exit statuses are, also when both commands failed. *)
Theorem compute_slope_aspect_whatever_exit_status :
  forall (os_system : string -> M World Z) dem_path wd w,
    no_file_on_the_way (curvature_output_dir wd) w ->
    (forall cmd w0, exists status w1, os_system cmd w0 = (Ok status, w1)) ->
    exists w',
      compute_slope_aspect os_system dem_path wd w
      = (Ok (path_join (curvature_output_dir wd) "slope.tif",
             path_join (curvature_output_dir wd) "aspect.tif"), w').
Proof.
  intros os_system dem_path wd w [Hdir _] Hsys.
  unfold compute_slope_aspect, bind. fold (curvature_output_dir wd).
  rewrite makedirs_ok;
    [ | apply String.eqb_neq, curvature_output_dir_nonempty | exact Hdir ].
  match goal with
  | |- context [os_system ?cmd ?w0] =>
      destruct (Hsys cmd w0) as (s1 & w1 & ->)
  end.
  match goal with
  | |- context [os_system ?cmd ?w0] =>
      destruct (Hsys cmd w0) as (s2 & w2 & ->)
  end.
  destruct (_ && _); unfold print, ret; cbv beta iota; eauto.
Qed.

Lemma compute_slope_aspect_whatever_exit_status_witness :
  exists w',
    compute_slope_aspect ex_os_system_failing "dem.tif" "/wd" ex_empty_world
    = (Ok ("/wd/inputs/dem/slope.tif", "/wd/inputs/dem/aspect.tif"), w').
Proof.
  apply (compute_slope_aspect_whatever_exit_status ex_os_system_failing
           "dem.tif" "/wd" ex_empty_world).
  - split; [reflexivity | intros q rest _; reflexivity].
  - intros cmd w0. exists 1%Z, w0. reflexivity.
Defined.

(** ** [run_micropezzomet]: configuration errors *)

Section ConfigErrors.
Variable os_system : string -> M World Z.
Variable get_era5 :
  json -> json -> json -> string -> json -> json -> bool -> M World unit.

Lemma dict_item_present (cfg : gmap string json) k v :
  cfg !! k = Some v -> dict_item (JObj cfg) k = Ok v.
Proof. intros H. unfold dict_item. now rewrite H. Qed.

Lemma dict_item_absent (cfg : gmap string json) k :
  cfg !! k = None -> dict_item (JObj cfg) k = Raise (KeyError k).
Proof. intros H. unfold dict_item. now rewrite H. Qed.

Lemma terrain_stage_missing_key (cfg : gmap string json) w :
  (exists k, k ∈ required_keys /\ cfg !! k = None) ->
  exists k,
    k ∈ required_keys /\ cfg !! k = None /\
    terrain_stage os_system get_era5 (JObj cfg) w = (Raise (KeyError k), w).
Proof.
  intros (k0 & Hk0 & Hnone).
  unfold terrain_stage, dict_get. rewrite bind_lift_Ok.
  unfold required_keys in *.
  repeat
    match goal with
    | |- context [dict_item (JObj cfg) ?k] =>
        destruct (cfg !! k) as [?v |] eqn:?H;
        [ erewrite (dict_item_present cfg k) by eassumption; rewrite bind_lift_Ok
        | eexists k; split; [set_solver | split; [assumption |]];
          erewrite (dict_item_absent cfg k) by assumption; reflexivity ]
    end.
  exfalso.
  repeat (apply elem_of_cons in Hk0 as [-> | Hk0]);
    [ .. | now apply elem_of_nil in Hk0 ]; congruence.
Qed.

End ConfigErrors.

(** X12. A configuration that lacks one of the nine keys read with
    [config[...]] at the start of [run_micropezzomet] makes it raise
    [KeyError] for a missing key before anything else happens: no folder is
    created, nothing is downloaded, the world is as it was. *)
Theorem run_micropezzomet_missing_key :
  forall os_system get_era5 sorted_glob Parallel dT dSW dRH dP dWind
         config_path (cfg : gmap string json) w,
    files w !! config_path = Some (JsonFile (JObj cfg)) ->
    (exists k, k ∈ required_keys /\ cfg !! k = None) ->
    exists k,
      k ∈ required_keys /\ cfg !! k = None /\
      run_micropezzomet os_system get_era5 sorted_glob Parallel
        dT dSW dRH dP dWind config_path w
      = (Raise (KeyError k), w).
Proof.
  intros os_system get_era5 sorted_glob Parallel dT dSW dRH dP dWind
         config_path cfg w Hfile Hmiss.
  destruct (terrain_stage_missing_key os_system get_era5 cfg w Hmiss)
    as (k & Hk & Hnone & Hstage).
  exists k. split; [exact Hk |]. split; [exact Hnone |].
  unfold run_micropezzomet, bind, load_config. now rewrite Hfile, Hstage.
Qed.

Lemma run_micropezzomet_missing_key_witness :
  exists k,
    k ∈ required_keys /\ delete "dem_file" ex_config !! k = None /\
    run_micropezzomet ex_os_system ex_get_era5 (fun _ => ret []) (fun _ _ => ret tt)
      rec_skip rec_skip_sw rec_skip rec_skip rec_skip_wind "config.json"
      (mkWorld {["config.json" := JsonFile (JObj (delete "dem_file" ex_config))]} ∅ [])
    = (Raise (KeyError k),
       mkWorld {["config.json" := JsonFile (JObj (delete "dem_file" ex_config))]} ∅ []).
Proof.
  apply (run_micropezzomet_missing_key ex_os_system ex_get_era5
           (fun _ => ret []) (fun _ _ => ret tt)
           rec_skip rec_skip_sw rec_skip rec_skip rec_skip_wind "config.json"
           (delete "dem_file" ex_config)).
  - reflexivity.
  - exists "dem_file". split; [unfold required_keys; set_solver | reflexivity].
Defined.

(** ** [run_month]: every combination of flags, and the order of errors *)




(** X14. The flags are read one variable at a time, each just before its
    operator: with [t_air] set to ["y"] and an invalid [sw_radiation]
    flag, the temperature operator has already run when [ValueError] is
    raised. *)
Theorem run_month_validates_flags_lazily :
  forall (W : Type) dT dSW dRH dP dWind f dem wd (m : gmap string json)
         clr nd lr v (w w1 : W),
    filename_ok f = true ->
    m !! "t_air" = Some (JStr "y") ->
    m !! "sw_radiation" = Some v -> v <> JStr "y" -> v <> JStr "n" ->
    monthly_override clr "temperature" = Ok lr ->
    dT dem f (path_join3 wd "outputs" "Temperature") lr nd w = (Ok tt, w1) ->
    exists msg,
      run_month dT dSW dRH dP dWind f dem wd (JObj m) clr nd w
      = (Raise (ValueError msg), w1).
Proof.
  intros W dT dSW dRH dP dWind f dem wd m clr nd lr v w w1
         Hf HT Hv Hy Hn Hlr Hrun.
  destruct (filename_ok_index f Hf) as (month & year & Hm & Hyr).
  destruct (flag_enabled_invalid m _ v Hv Hy Hn) as [msg Hmsg].
  exists msg. unfold run_month.
  rewrite (bind_lift_ok _ _ _ _ Hm), (bind_lift_ok _ _ _ _ Hyr).
  rewrite (bind_lift_ok _ _ _ _ (flag_enabled_y m _ HT)).
  rewrite Hlr, Hmsg. unfold bind at 1. unfold bind at 1.
  unfold lift at 1. now rewrite Hrun.
Qed.

Lemma run_month_validates_flags_lazily_witness :
  exists msg,
    run_month rec_T rec_SW rec_T rec_T rec_Wind
      "era5_2020_01.nc" "dem.tif" "/wd"
      (JObj (flags_of "y" "yes" "n" "n" "n")) (JObj ∅) JNull []
    = (Raise (ValueError msg), ["/wd/outputs/Temperature"]).
Proof.
  apply (run_month_validates_flags_lazily (list string)
           rec_T rec_SW rec_T rec_T rec_Wind
           "era5_2020_01.nc" "dem.tif" "/wd" (flags_of "y" "yes" "n" "n" "n")
           (JObj ∅) JNull JNull (JStr "yes") []).
  - reflexivity.
  - reflexivity.
  - reflexivity.
  - discriminate.
  - discriminate.
  - reflexivity.
  - reflexivity.
Defined.

(** X15. An operator that raises ends the month: with [t_air] enabled and a
    temperature operator that raises, [run_month] raises the same exception
    and none of the later flags is read, valid or not. *)
Theorem run_month_stops_at_first_failure :
  forall (W : Type) dT dSW dRH dP dWind f dem wd (m : gmap string json)
         clr nd lr e (w w1 : W),
    filename_ok f = true ->
    m !! "t_air" = Some (JStr "y") ->
    monthly_override clr "temperature" = Ok lr ->
    dT dem f (path_join3 wd "outputs" "Temperature") lr nd w = (Raise e, w1) ->
    run_month dT dSW dRH dP dWind f dem wd (JObj m) clr nd w = (Raise e, w1).
Proof.
  intros W dT dSW dRH dP dWind f dem wd m clr nd lr e w w1 Hf HT Hlr Hrun.
  destruct (filename_ok_index f Hf) as (month & year & Hm & Hyr).
  unfold run_month.
  rewrite (bind_lift_ok _ _ _ _ Hm), (bind_lift_ok _ _ _ _ Hyr).
  rewrite (bind_lift_ok _ _ _ _ (flag_enabled_y m _ HT)).
  rewrite Hlr. unfold bind at 1. unfold bind at 1.
  unfold lift at 1. now rewrite Hrun.
Qed.

Lemma run_month_stops_at_first_failure_witness :
  run_month rec_failing rec_SW rec_T rec_T rec_Wind
    "era5_2020_01.nc" "dem.tif" "/wd"
    (JObj (flags_of "y" "y" "maybe" "y" "y")) (JObj ∅) JNull []
  = (Raise (ValueError "operator failed"), ["/wd/outputs/Temperature"]).
Proof.
  apply (run_month_stops_at_first_failure (list string)
           rec_failing rec_SW rec_T rec_T rec_Wind
           "era5_2020_01.nc" "dem.tif" "/wd" (flags_of "y" "y" "maybe" "y" "y")
           (JObj ∅) JNull JNull); reflexivity.
Defined.

(** X16. A file name whose base name has fewer than three
    underscore-separated fields makes [run_month] raise [IndexError] before
    any flag is read and before any operator runs. *)
Theorem run_month_malformed_filename :
  forall (W : Type) dT dSW dRH dP dWind f dem wd vars clr nd (w : W),
    filename_ok f = false ->
    run_month dT dSW dRH dP dWind f dem wd vars clr nd w = (Raise IndexError, w).
Proof.
  intros. now apply run_month_bad_filename.
Qed.

Lemma run_month_malformed_filename_witness :
  run_month rec_T rec_SW rec_T rec_T rec_Wind
    "/data/era5_202001.nc" "dem.tif" "/wd"
    (JObj (flags_of "y" "y" "y" "y" "y")) (JObj ∅) JNull []
  = (Raise IndexError, []).
Proof.
  apply (run_month_malformed_filename (list string)
           rec_T rec_SW rec_T rec_T rec_Wind "/data/era5_202001.nc").
  reflexivity.
Defined.

(** X17. When the entry of [custom_lapse_rates] under ["temperature"] is not
    an object (a bare number, say) and [t_air] is enabled, [run_month]
    raises [AttributeError] while it prepares the call; no operator has
    run. *)
Theorem run_month_bad_lapse_rate_entry :
  forall (W : Type) dT dSW dRH dP dWind f dem wd (m c : gmap string json)
         nd v (w : W),
    filename_ok f = true ->
    m !! "t_air" = Some (JStr "y") ->
    c !! "temperature" = Some v -> not_an_object v ->
    run_month dT dSW dRH dP dWind f dem wd (JObj m) (JObj c) nd w
    = (Raise AttributeError, w).
Proof.
  intros W dT dSW dRH dP dWind f dem wd m c nd v w Hf HT Hc Hv.
  destruct (filename_ok_index f Hf) as (month & year & Hm & Hyr).
  unfold run_month.
  rewrite (bind_lift_ok _ _ _ _ Hm), (bind_lift_ok _ _ _ _ Hyr).
  rewrite (bind_lift_ok _ _ _ _ (flag_enabled_y m _ HT)).
  assert (E : monthly_override (JObj c) "temperature" = Raise AttributeError).
  { unfold monthly_override, dict_get. rewrite Hc. cbn.
    destruct v; try reflexivity. contradiction. }
  now rewrite E.
Qed.

Lemma run_month_bad_lapse_rate_entry_witness :
  run_month rec_T rec_SW rec_T rec_T rec_Wind
    "era5_2020_01.nc" "dem.tif" "/wd"
    (JObj (flags_of "y" "n" "n" "n" "n"))
    (JObj {["temperature" := JNum (13 # 2)]}) JNull []
  = (Raise AttributeError, []).
Proof.
  apply (run_month_bad_lapse_rate_entry (list string)
           rec_T rec_SW rec_T rec_T rec_Wind
           "era5_2020_01.nc" "dem.tif" "/wd" (flags_of "y" "n" "n" "n" "n")
           {["temperature" := JNum (13 # 2)]} JNull (JNum (13 # 2))).
  - reflexivity.
  - reflexivity.
  - reflexivity.
  - exact I.
Defined.

(** ** [write_downscaled_to_netcdf]: errors and frame *)

Lemma make_data_array_bad tl ys xs data units desc :
  data = [] \/ has_shape3 (length tl) (length ys) (length xs) (concat data) = false ->
  exists msg, make_data_array tl ys xs data units desc = Raise (ValueError msg).
Proof.
  unfold make_data_array. intros [-> | H]; [eauto |].
  destruct data; [eauto |]. rewrite H. eauto.
Qed.

Lemma make_data_array_raises tl ys xs data units desc e :
  make_data_array tl ys xs data units desc = Raise e ->
  exists msg, e = ValueError msg.
Proof.
  unfold make_data_array. destruct data; [intros [= <-]; eauto |].
  destruct (has_shape3 _ _ _ _); [discriminate | intros [= <-]; eauto].
Qed.

Lemma build_dataset_vars_raises tl ys xs items :
  forall acc e,
    build_dataset_vars tl ys xs items acc = Raise e ->
    exists msg, e = ValueError msg.
Proof.
  induction items as [| [name [[data units] desc]] rest IH]; intros acc e.
  - discriminate.
  - cbn [build_dataset_vars]. unfold rbind.
    destruct (make_data_array tl ys xs data units desc) as [da | e0] eqn:Hda.
    + apply IH.
    + intros [= <-]. eapply make_data_array_raises; eauto.
Qed.

Lemma build_dataset_vars_bad tl ys xs items name data units desc :
  (name, (data, units, desc)) ∈ items ->
  data = [] \/ has_shape3 (length tl) (length ys) (length xs) (concat data) = false ->
  forall acc, exists msg,
    build_dataset_vars tl ys xs items acc = Raise (ValueError msg).
Proof.
  intros Hin Hbad.
  induction items as [| [name0 [[data0 units0] desc0]] rest IH]; intros acc.
  - now apply elem_of_nil in Hin.
  - cbn [build_dataset_vars]. unfold rbind.
    destruct (make_data_array tl ys xs data0 units0 desc0) as [da | e0] eqn:Hda.
    + apply elem_of_cons in Hin as [Heq | Hin]; [| now apply IH].
      injection Heq as -> -> -> ->.
      destruct (make_data_array_bad tl ys xs data0 units0 desc0 Hbad) as [msg E].
      congruence.
    + destruct (make_data_array_raises _ _ _ _ _ _ _ Hda) as [msg ->]. eauto.
Qed.

(** X18. When the stacked data of one variable is empty or does not have the
    shape [(len(time_list), height, width)], [write_downscaled_to_netcdf]
    raises [ValueError] and the world is as it was: no directory is
    created and no file is written. *)
Theorem write_downscaled_to_netcdf_bad_shape :
  forall variables_dict time_list height width tr dem_crs out_nc w
         name data units desc,
    (name, (data, units, desc)) ∈ variables_dict ->
    data = [] \/ has_shape3 (length time_list) height width (concat data) = false ->
    exists msg,
      write_downscaled_to_netcdf variables_dict time_list (height, width)
        tr dem_crs out_nc w = (Raise (ValueError msg), w).
Proof.
  intros variables_dict time_list height width tr dem_crs out_nc w
         name data units desc Hin Hbad.
  unfold write_downscaled_to_netcdf.
  destruct (build_dataset_vars_bad time_list
              (pixel_centers height (aff_e tr) (aff_f tr))
              (pixel_centers width (aff_a tr) (aff_c tr))
              variables_dict name data units desc Hin) with (acc := (∅ : gmap string DataArray))
    as [msg E].
  { now rewrite !pixel_centers_length. }
  exists msg. unfold bind, lift. now rewrite E.
Qed.

Lemma write_downscaled_to_netcdf_bad_shape_witness :
  exists msg,
    write_downscaled_to_netcdf ex_variables [0%Z] (2%nat, 3%nat)
      ex_km_transform "EPSG:32632" "/wd/outputs/Temperature/T_2020_01.nc" ex_world
    = (Raise (ValueError msg), ex_world).
Proof.
  apply (write_downscaled_to_netcdf_bad_shape ex_variables [0%Z] 2 3
           ex_km_transform "EPSG:32632" "/wd/outputs/Temperature/T_2020_01.nc"
           ex_world "t_air" [[ex_frame 1]; [ex_frame 2]] "degC"
           "Downscaled air temperature").
  - unfold ex_variables. apply elem_of_cons. left. reflexivity.
  - right. reflexivity.
Defined.

(** X20. A successful call of [write_downscaled_to_netcdf] changes one file
    only, the one at [out_nc], which it creates or replaces; every other
    path holds what it held. *)
Theorem write_downscaled_to_netcdf_frame :
  forall variables_dict time_list dem_shape tr dem_crs out_nc w w',
    write_downscaled_to_netcdf variables_dict time_list dem_shape
      tr dem_crs out_nc w = (Ok tt, w') ->
    is_Some (files w' !! out_nc) /\
    forall p, p <> out_nc -> files w' !! p = files w !! p.
Proof.
  intros variables_dict time_list [height width] tr dem_crs out_nc w w'.
  unfold write_downscaled_to_netcdf, bind, lift.
  destruct (build_dataset_vars _ _ _ _ _) as [m | e0]; [| discriminate].
  unfold makedirs.
  destruct (String.eqb _ ""); [discriminate |].
  destruct (files w !! dirname out_nc); [discriminate |].
  unfold to_netcdf. cbn [dirs files stdout].
  destruct (bool_decide _); [discriminate |].
  unfold print. cbn [dirs files stdout]. intros [= <-]. cbn [files]. split.
  - rewrite lookup_insert_eq. eauto.
  - intros p Hp. now rewrite lookup_insert_ne.
Qed.

Lemma write_downscaled_to_netcdf_frame_witness :
  is_Some (files (write_downscaled_to_netcdf ex_variables [0%Z; 3600%Z] (2%nat, 3%nat)
                    ex_km_transform "EPSG:32632" "/wd/outputs/Temperature/T_2020_01.nc"
                    ex_world).2 !! "/wd/outputs/Temperature/T_2020_01.nc") /\
  forall p, p <> "/wd/outputs/Temperature/T_2020_01.nc" ->
    files (write_downscaled_to_netcdf ex_variables [0%Z; 3600%Z] (2%nat, 3%nat)
             ex_km_transform "EPSG:32632" "/wd/outputs/Temperature/T_2020_01.nc"
             ex_world).2 !! p
    = files ex_world !! p.
Proof.
  apply (write_downscaled_to_netcdf_frame ex_variables [0%Z; 3600%Z] (2%nat, 3%nat)
           ex_km_transform "EPSG:32632" "/wd/outputs/Temperature/T_2020_01.nc"
           ex_world).
  vm_compute. reflexivity.
Defined.

Lemma split_on_no_slash (p : string) :
  contains_slash p = false -> split_on slash p = [p].
Proof.
  induction p as [| a p IH]; [reflexivity |].
  cbn [contains_slash split_on]. intros H.
  apply orb_false_iff in H as [Ha Hp]. rewrite Ha, (IH Hp). reflexivity.
Qed.

Lemma dirname_no_slash (p : string) :
  contains_slash p = false -> dirname p = "".
Proof.
  intros H. unfold dirname. rewrite (split_on_no_slash p H). cbn.
  destruct p as [| a p]; [reflexivity |].
  cbn in H. apply orb_false_iff in H as [Ha _]. cbn. now rewrite Ha.
Qed.

(** X21. An output path without a directory part (a bare file name) cannot
    be written: [os.path.dirname] gives the empty string, on which
    [os.makedirs] raises [FileNotFoundError]; when the variables stack
    correctly this is the exception of the call, and the world is as it
    was. *)
Theorem write_downscaled_to_netcdf_bare_file_name :
  forall variables_dict time_list height width tr dem_crs out_nc w m,
    contains_slash out_nc = false ->
    build_dataset_vars time_list
      (pixel_centers height (aff_e tr) (aff_f tr))
      (pixel_centers width (aff_a tr) (aff_c tr)) variables_dict ∅ = Ok m ->
    write_downscaled_to_netcdf variables_dict time_list (height, width)
      tr dem_crs out_nc w = (Raise (FileNotFoundError ""), w).
Proof.
  intros variables_dict time_list height width tr dem_crs out_nc w m Hs Hb.
  unfold write_downscaled_to_netcdf, bind, lift. rewrite Hb.
  rewrite (dirname_no_slash out_nc Hs). reflexivity.
Qed.

Lemma write_downscaled_to_netcdf_bare_file_name_witness :
  write_downscaled_to_netcdf ex_variables [0%Z; 3600%Z] (2%nat, 3%nat)
    ex_km_transform "EPSG:32632" "T_2020_01.nc" ex_world
  = (Raise (FileNotFoundError ""), ex_world).
Proof.
  eapply (write_downscaled_to_netcdf_bare_file_name ex_variables [0%Z; 3600%Z] 2 3
            ex_km_transform "EPSG:32632" "T_2020_01.nc" ex_world).
  - reflexivity.
  - vm_compute. reflexivity.
Defined.

(** * The curvature raster, pixel by pixel *)

(** ** Edge padding repeats the nearest cell *)

Lemma lookup_last_cell {A} (l : list A) (d : A) :
  l <> [] -> l !! (length l - 1)%nat = Some (List.last l d).
Proof.
  induction l as [| x l IH]; [congruence |]. intros _.
  destruct l as [| y l]; [reflexivity |].
  change (List.last (x :: y :: l) d) with (List.last (y :: l) d).
  cbn [length]. replace (S (S (length l)) - 1)%nat with (S (length l)) by lia.
  cbn [lookup list_lookup]. rewrite <- IH by discriminate.
  cbn [length]. f_equal. lia.
Qed.

Lemma pad_edge1_lookup {A} n (l : list A) k :
  l <> [] -> (k < length l + 2 * n)%nat ->
  pad_edge1 n l !! k = l !! clamp (length l) (Z.of_nat k - Z.of_nat n).
Proof.
  intros Hl Hk. unfold pad_edge1, clamp. destruct l as [| x l]; [congruence |].
  set (l' := x :: l) in *.
  assert (Hlen : (0 < length l')%nat) by (unfold l'; cbn; lia).
  destruct (Nat.lt_ge_cases k n) as [Hlow | Hge].
  - rewrite lookup_app_l by (rewrite length_replicate; lia).
    rewrite lookup_replicate_2 by lia.
    replace (Z.to_nat _) with O by lia. reflexivity.
  - rewrite lookup_app_r by (rewrite length_replicate; lia).
    rewrite length_replicate.
    destruct (Nat.lt_ge_cases (k - n) (length l')) as [Hmid | Hhigh].
    + rewrite lookup_app_l by lia. f_equal. lia.
    + rewrite lookup_app_r by lia.
      rewrite lookup_replicate_2 by lia.
      rewrite <- (lookup_last_cell l' x) by (unfold l'; discriminate).
      f_equal. lia.
Qed.

Lemma get2_pad_edge {A} n (a : list (list A)) h w r c :
  rect a h w -> (0 < h)%nat -> (0 < w)%nat ->
  (r < h + 2 * n)%nat -> (c < w + 2 * n)%nat ->
  get2 (pad_edge n a) r c
  = get2 a (clamp h (Z.of_nat r - Z.of_nat n)) (clamp w (Z.of_nat c - Z.of_nat n)).
Proof.
  intros [Hh Hw] Hhp Hwp Hr Hc. unfold get2, pad_edge.
  assert (Ha : a <> []) by (intros ->; cbn in Hh; lia).
  rewrite pad_edge1_lookup; [| destruct a; [congruence | discriminate]
                             | rewrite length_map; lia].
  rewrite length_map, Hh.
  change (map ?g ?l) with (g <$> l). rewrite list_lookup_fmap.
  destruct (a !! clamp h (Z.of_nat r - Z.of_nat n)) as [row |] eqn:Hrow;
    [| reflexivity].
  cbn. eapply Forall_lookup_1 in Hw; [| exact Hrow]. cbn in Hw.
  rewrite pad_edge1_lookup; [now rewrite Hw | | lia].
  intros ->. cbn in Hw. lia.
Qed.

(** On a rectangular, non-empty DEM a sample is a cell of the DEM. *)
Lemma sample_get2 (dem : array) h w r c :
  rect dem h w -> (0 < h)%nat -> (0 < w)%nat ->
  get2 dem (clamp h r) (clamp w c) = Some (sample dem r c).
Proof.
  intros Hrect Hh Hw. unfold sample.
  rewrite (rect_ncols dem h w Hrect Hh). destruct Hrect as [Hlen Hrows].
  rewrite Hlen.
  destruct (rect_get2 dem h w (clamp h r) (clamp w c) (conj Hlen Hrows))
    as [x ->]; [unfold clamp; lia | unfold clamp; lia | reflexivity].
Qed.

(** ** The nine shifted arrays, cell by cell *)

Lemma get2_arr_zip_eq (f : cell -> cell -> cell) (a b : array) i j x y :
  get2 a i j = Some x -> get2 b i j = Some y ->
  get2 (arr_zip f a b) i j = Some (f x y).
Proof.
  unfold get2, arr_zip. intros Ha Hb.
  destruct (a !! i) as [ra |] eqn:Hra; [| discriminate].
  destruct (b !! i) as [rb |] eqn:Hrb; [| discriminate].
  cbn in Ha, Hb.
  rewrite (proj2 (lookup_zip_with_Some (zip_with f) a b i (zip_with f ra rb)));
    [| eauto].
  cbn. apply lookup_zip_with_Some. eauto.
Qed.

Lemma rect_ext {A} (a b : list (list A)) h w :
  rect a h w -> rect b h w ->
  (forall i j, (i < h)%nat -> (j < w)%nat -> get2 a i j = get2 b i j) ->
  a = b.
Proof.
  intros [Ha Hwa] [Hb Hwb] H. apply list_eq. intros i.
  destruct (Nat.lt_ge_cases i h) as [Hi | Hi].
  - destruct (lookup_lt_is_Some_2 a i ltac:(lia)) as [ra Hra].
    destruct (lookup_lt_is_Some_2 b i ltac:(lia)) as [rb Hrb].
    rewrite Hra, Hrb. f_equal.
    pose proof (Forall_lookup_1 _ _ _ _ Hwa Hra) as Hla.
    pose proof (Forall_lookup_1 _ _ _ _ Hwb Hrb) as Hlb.
    cbn in Hla, Hlb. apply list_eq. intros j.
    destruct (Nat.lt_ge_cases j w) as [Hj | Hj].
    + specialize (H i j Hi Hj). unfold get2 in H.
      now rewrite Hra, Hrb in H.
    + rewrite !lookup_ge_None_2 by lia. reflexivity.
  - rewrite !lookup_ge_None_2 by lia. reflexivity.
Qed.

Lemma rect_raw_block dem inc deltaxy h w :
  rect (raw_block dem inc deltaxy h w) h w.
Proof.
  unfold rect, raw_block. split.
  - now rewrite length_map, length_seq.
  - change (map ?g ?l) with (g <$> l). apply Forall_fmap.
    apply Forall_forall. intros i _. cbn.
    now rewrite length_map, length_seq.
Qed.

Lemma get2_raw_block dem inc deltaxy h w i j :
  (i < h)%nat -> (j < w)%nat ->
  get2 (raw_block dem inc deltaxy h w) i j
  = Some (pixel_curvature dem inc deltaxy i j).
Proof.
  intros Hi Hj. unfold get2, raw_block.
  change (map ?g ?l) with (g <$> l).
  rewrite list_lookup_fmap, lookup_seq_lt by exact Hi. cbn.
  change (map ?g ?l) with (g <$> l).
  now rewrite list_lookup_fmap, lookup_seq_lt by exact Hj.
Qed.

(** A cell of a cropped slice of the padded DEM is the sample of the DEM
    [r0 - inc] rows and [c0 - inc] columns away. *)
Lemma get2_crop_slice_pad (dem : array) (inc r0 r1 c0 c1 : Z) ny nx sh sw h w i j :
  rect dem ny nx -> (0 < ny)%nat -> (0 < nx)%nat -> (1 <= inc)%Z ->
  (0 <= r0 <= 2 * inc)%Z -> (0 <= c0 <= 2 * inc)%Z ->
  rect (py_slice2 r0 r1 c0 c1 (pad_edge (Z.to_nat inc) dem)) sh sw ->
  (h <= sh)%nat -> (w <= sw)%nat -> (h <= ny)%nat -> (w <= nx)%nat ->
  (i < h)%nat -> (j < w)%nat ->
  get2 (py_slice2 0 (Z.of_nat h) 0 (Z.of_nat w)
          (py_slice2 r0 r1 c0 c1 (pad_edge (Z.to_nat inc) dem))) i j
  = Some (sample dem (Z.of_nat i + (r0 - inc)) (Z.of_nat j + (c0 - inc))).
Proof.
  intros Hdem Hny Hnx Hinc Hr0 Hc0 Hs Hh Hw Hhy Hwx Hi Hj.
  pose proof (rect_crop _ sh sw h w Hs Hh Hw) as Hcrop.
  destruct (rect_get2 _ h w i j Hcrop Hi Hj) as [x Hx].
  rewrite Hx. f_equal.
  apply get2_crop in Hx. apply (get2_slice_pad inc) in Hx; [| lia | lia].
  rewrite (get2_pad_edge _ dem ny nx) in Hx by (assumption || lia).
  rewrite (sample_get2 dem ny nx) in Hx by assumption.
  injection Hx as <-. f_equal; lia.
Qed.

(** Lines 166-170 on arrays, read at one cell. *)
Lemma get2_curvature_arrays (inc : Z) (deltaxy : Q)
    (z zW zE zS zN zSW zNE zNW zSE : array) i j
    (c cW cE cS cN cSW cNE cNW cSE : cell) :
  get2 z i j = Some c -> get2 zW i j = Some cW -> get2 zE i j = Some cE ->
  get2 zS i j = Some cS -> get2 zN i j = Some cN ->
  get2 zSW i j = Some cSW -> get2 zNE i j = Some cNE ->
  get2 zNW i j = Some cNW -> get2 zSE i j = Some cSE ->
  get2 (mask_nan
          (arr_add
             (arr_div (arr_sub (arr_sub (arr_sub (arr_sub
                         (arr_scale (QS2.of_Q 4) z) zSW) zNE) zNW) zSE)
                (QS2.mul (QS2.mul (QS2.mul QS2.sqrt2 (QS2.of_Q 16))
                                  (QS2.of_Q (inject_Z inc)))
                         (QS2.of_Q deltaxy)))
             (arr_div (arr_sub (arr_sub (arr_sub (arr_sub
                         (arr_scale (QS2.of_Q 4) z) zW) zE) zN) zS)
                (QS2.of_Q (16 * inject_Z inc * deltaxy)%Q)))
          z) i j
  = Some (stencil inc deltaxy c cW cE cS cN cSW cNE cNW cSE).
Proof.
  intros Hz HW HE HS HN HSW HNE HNW HSE.
  assert (H4 : get2 (arr_scale (QS2.of_Q 4) z) i j
               = Some (option_map (QS2.mul (QS2.of_Q 4)) c)).
  { unfold arr_scale. now rewrite get2_arr_map_eq, Hz. }
  unfold mask_nan, arr_add, arr_div, arr_sub.
  erewrite get2_arr_zip_eq; [reflexivity | | exact Hz].
  erewrite get2_arr_zip_eq; [reflexivity | |].
  - rewrite get2_arr_map_eq.
    erewrite get2_arr_zip_eq; [reflexivity | | exact HSE].
    erewrite get2_arr_zip_eq; [reflexivity | | exact HNW].
    erewrite get2_arr_zip_eq; [reflexivity | | exact HNE].
    erewrite get2_arr_zip_eq; [reflexivity | exact H4 | exact HSW].
  - rewrite get2_arr_map_eq.
    erewrite get2_arr_zip_eq; [reflexivity | | exact HS].
    erewrite get2_arr_zip_eq; [reflexivity | | exact HN].
    erewrite get2_arr_zip_eq; [reflexivity | | exact HE].
    erewrite get2_arr_zip_eq; [reflexivity | exact H4 | exact HW].
Qed.

(** ** The function, pixel by pixel *)

(** One of the nine cropped slices at one cell. *)
Ltac slice_cell R :=
  eapply eq_trans;
  [ eapply get2_crop_slice_pad;
    [ eassumption | lia | lia | lia | lia | lia | apply R
    | lia | lia | lia | lia | lia | lia ]
  | do 2 f_equal; lia ].

(** On a rectangular, non-empty DEM the function is one block assignment
    into the all-NaN raster: the block holds the raw curvature of the
    pixels of the first [min inc ny] rows and [min inc nx] columns, each
    divided by twice [curve_max], and is stored from row and column [inc]
    on. *)
Lemma curvature_array_pointwise dem0 tr L nd ny nx inc :
  rect dem0 ny nx -> (0 < ny)%nat -> (0 < nx)%nat ->
  compute_inc L tr = Ok inc ->
  let dem := masked_dem dem0 nd in
  let h := (Z.to_nat inc `min` ny)%nat in
  let w := (Z.to_nat inc `min` nx)%nat in
  let raw := raw_block dem inc (cell_size tr) h w in
  curvature_array dem0 tr L nd
  = assign_block (full_nan dem) inc (inc + Z.of_nat h) inc (inc + Z.of_nat w)
      (arr_map (normalise (curve_max raw)) raw).
Proof.
  intros Hrect Hny Hnx Hinc dem h w raw.
  pose proof (compute_inc_positive _ _ _ Hinc) as Hpos.
  unfold curvature_array. fold (masked_dem dem0 nd). fold dem.
  pose proof (rect_masked_dem dem0 nd ny nx Hrect) as Hdem. fold dem in Hdem.
  clearbody dem.
  rewrite (rect_shape dem ny nx Hdem Hny), Hinc. cbn [rbind].
  destruct (Nat.eqb_spec ny 0) as [E | _]; [lia |].
  destruct (Nat.eqb_spec nx 0) as [E | _]; [lia |].
  cbn [orb]. cbv zeta.
  pose proof (rect_pad_edge (Z.to_nat inc) dem ny nx Hdem Hny Hnx) as Hpad.
  rewrite (common_shape_is inc ny nx _ Hpos Hpad Hny Hnx). cbn [fst snd].
  fold h w.
  assert (Hh : (0 < h)%nat) by (unfold h; lia).
  assert (Hhy : (h <= ny)%nat) by (unfold h; lia).
  assert (Hwx : (w <= nx)%nat) by (unfold w; lia).
  assert (Hhi : (h <= Z.to_nat inc `min` ny)%nat) by (unfold h; lia).
  assert (Hwi : (w <= Z.to_nat inc `min` nx)%nat) by (unfold w; lia).
  match goal with
  | |- context [arr_div ?C (QS2.mul (QS2.of_Q 2) _)] => set (curv := C)
  end.
  assert (E : curv = raw).
  { apply (rect_ext _ _ h w).
    - unfold curv, arr_div, mask_nan, arr_add, arr_sub, arr_scale.
      repeat first [ apply rect_arr_map | apply rect_arr_zip ];
        (eapply rect_crop; [ first
          [ apply (rect_z inc ny nx _ Hpos Hpad)
          | apply (rect_zW inc ny nx _ Hpos Hpad)
          | apply (rect_zE inc ny nx _ Hpos Hpad)
          | apply (rect_zS inc ny nx _ Hpos Hpad)
          | apply (rect_zN inc ny nx _ Hpos Hpad)
          | apply (rect_zSW inc ny nx _ Hpos Hpad)
          | apply (rect_zNE inc ny nx _ Hpos Hpad)
          | apply (rect_zNW inc ny nx _ Hpos Hpad)
          | apply (rect_zSE inc ny nx _ Hpos Hpad) ] | lia | lia ]).
    - apply rect_raw_block.
    - intros i j Hi Hj. unfold raw. rewrite get2_raw_block by assumption.
      unfold curv, pixel_curvature, cell_size.
      apply get2_curvature_arrays.
      + slice_cell (rect_z inc ny nx _ Hpos Hpad).
      + slice_cell (rect_zW inc ny nx _ Hpos Hpad).
      + slice_cell (rect_zE inc ny nx _ Hpos Hpad).
      + slice_cell (rect_zS inc ny nx _ Hpos Hpad).
      + slice_cell (rect_zN inc ny nx _ Hpos Hpad).
      + slice_cell (rect_zSW inc ny nx _ Hpos Hpad).
      + slice_cell (rect_zNE inc ny nx _ Hpos Hpad).
      + slice_cell (rect_zNW inc ny nx _ Hpos Hpad).
      + slice_cell (rect_zSE inc ny nx _ Hpos Hpad). }
  clearbody curv. subst curv.
  fold (curve_max raw).
  change (arr_div raw (QS2.mul (QS2.of_Q 2) (curve_max raw)))
    with (arr_map (normalise (curve_max raw)) raw).
  pose proof (rect_arr_map (normalise (curve_max raw)) raw h w
                (rect_raw_block _ _ _ _ _)) as Hsrc.
  now rewrite (rect_shape _ h w Hsrc Hh).
Qed.

Lemma assign_block_get2_in (dst : array) r0 r1 c0 c1 (src out : array) i j d :
  assign_block dst r0 r1 c0 c1 src = Ok out ->
  get2 dst i j = Some d ->
  (norm_index (length dst) r0 <= i < norm_index (length dst) r1)%nat ->
  (norm_index (ncols dst) c0 <= j < norm_index (ncols dst) c1)%nat ->
  get2 out i j
  = Some (default None
            (get2 src
               (if ((shape src).1 =? 1)%nat then O
                else (i - norm_index (length dst) r0)%nat)
               (if ((shape src).2 =? 1)%nat then O
                else (j - norm_index (ncols dst) c0)%nat))).
Proof.
  unfold assign_block, shape. cbn [fst snd].
  destruct (_ && _); [| discriminate].
  intros [= <-] Hd [Hi0 Hi1] [Hj0 Hj1]. unfold get2 in Hd |- *.
  destruct (dst !! i) as [row |] eqn:Hrow; [| discriminate]. cbn in Hd.
  rewrite list_lookup_imap, Hrow. cbn [fmap option_fmap option_map mbind option_bind].
  destruct (Nat.leb_spec (norm_index (length dst) r0) i); [| lia].
  destruct (Nat.ltb_spec i (norm_index (length dst) r1)); [| lia].
  cbn [andb].
  rewrite list_lookup_imap, Hd. cbn [fmap option_fmap option_map].
  destruct (Nat.leb_spec (norm_index (ncols dst) c0) j); [| lia].
  destruct (Nat.ltb_spec j (norm_index (ncols dst) c1)); [| lia].
  reflexivity.
Qed.

(** The value stored [inc] rows and columns after the pixel it was
    computed for: the raw curvature of that pixel, divided by twice
    [curve_max] of the block. *)
Lemma curvature_array_cell dem0 tr L nd ny nx inc out i j :
  rect dem0 ny nx ->
  compute_inc L tr = Ok inc ->
  curvature_array dem0 tr L nd = Ok out ->
  (i < Z.to_nat inc)%nat -> (j < Z.to_nat inc)%nat ->
  (Z.to_nat inc + i < ny)%nat -> (Z.to_nat inc + j < nx)%nat ->
  get2 out (Z.to_nat inc + i) (Z.to_nat inc + j)
  = Some (normalise
            (curve_max (raw_block (masked_dem dem0 nd) inc (cell_size tr)
                          (Z.to_nat inc `min` ny) (Z.to_nat inc `min` nx)))
            (pixel_curvature (masked_dem dem0 nd) inc (cell_size tr) i j)).
Proof.
  intros Hrect Hinc Hout Hi Hj Hiy Hjx.
  pose proof (compute_inc_positive _ _ _ Hinc) as Hpos.
  rewrite (curvature_array_pointwise dem0 tr L nd ny nx inc Hrect
             ltac:(lia) ltac:(lia) Hinc) in Hout.
  cbv zeta in Hout.
  pose proof (rect_masked_dem dem0 nd ny nx Hrect) as Hdem.
  set (dem := masked_dem dem0 nd) in *.
  set (h := (Z.to_nat inc `min` ny)%nat) in *.
  set (w := (Z.to_nat inc `min` nx)%nat) in *.
  set (raw := raw_block dem inc (cell_size tr) h w) in *.
  pose proof (rect_arr_map (normalise (curve_max raw)) raw h w
                (rect_raw_block _ _ _ _ _)) as Hsrc.
  destruct (rect_get2 dem ny nx (Z.to_nat inc + i) (Z.to_nat inc + j) Hdem Hiy Hjx)
    as [x Hx].
  pose proof (rect_full_nan dem ny nx Hdem) as Hfull.
  rewrite (assign_block_get2_in _ _ _ _ _ _ _ _ _ None Hout
             (get2_full_nan _ _ _ _ Hx)).
  - rewrite (rect_shape _ h w Hsrc ltac:(unfold h; lia)). cbn [fst snd].
    destruct Hfull as [Hlen _]. rewrite Hlen.
    rewrite (rect_ncols (full_nan dem) ny nx (rect_full_nan dem ny nx Hdem) ltac:(lia)).
    rewrite !norm_index_nonneg by lia.
    assert (Ei : (if (h =? 1)%nat then O
                  else (Z.to_nat inc + i - Z.to_nat inc `min` ny)%nat) = i).
    { destruct (Nat.eqb_spec h 1); unfold h in *; lia. }
    assert (Ej : (if (w =? 1)%nat then O
                  else (Z.to_nat inc + j - Z.to_nat inc `min` nx)%nat) = j).
    { destruct (Nat.eqb_spec w 1); unfold w in *; lia. }
    rewrite Ei, Ej, get2_arr_map_eq.
    unfold raw. rewrite get2_raw_block by (unfold h, w; lia). reflexivity.
  - destruct Hfull as [Hlen _]. rewrite Hlen.
    rewrite !norm_index_nonneg by lia. unfold h. lia.
  - rewrite (rect_ncols (full_nan dem) ny nx Hfull ltac:(lia)).
    rewrite !norm_index_nonneg by lia. unfold w. lia.
Qed.

(** ** [curve_max] is the floored maximum *)

Lemma nanmax_flat_attained (l : list cell) m :
  foldr (fun c acc =>
           match c, acc with
           | Some v, Some m => Some (if QS2.ltb m v then v else m)
           | Some v, None => Some v
           | None, _ => acc
           end) None l = Some m ->
  Some m ∈ l.
Proof.
  revert m. induction l as [| c l IH]; intros m; [discriminate |].
  cbn [foldr]. destruct c as [v |].
  - destruct (foldr _ None l) as [m' |].
    + destruct (QS2.ltb m' v); intros [= <-]; [left | right; now apply IH].
    + intros [= <-]. left.
  - intros H. right. now apply IH.
Qed.

Lemma elem_of_concat_row {A} (x : A) (a : list (list A)) :
  x ∈ concat a -> exists row, x ∈ row /\ row ∈ a.
Proof.
  induction a as [| r a IH]; cbn; [intros H; now apply elem_of_nil in H |].
  rewrite elem_of_app. intros [H | H].
  - exists r. split; [exact H | left].
  - destruct (IH H) as (row & Hx & Hrow). exists row. split; [exact Hx | now right].
Qed.

Lemma nanmax_attained (a : array) m :
  nanmax a = Some m -> exists i j, get2 a i j = Some (Some m).
Proof.
  unfold nanmax. intros H. apply nanmax_flat_attained in H.
  apply elem_of_concat_row in H as (row & Hm & Hrow).
  apply list_elem_of_lookup in Hrow as [i Hi].
  apply list_elem_of_lookup in Hm as [j Hj].
  exists i, j. unfold get2. now rewrite Hi.
Qed.

Lemma curve_max_spec (raw : array) :
  (1 / 1000 <= QS2.toR (curve_max raw))%R /\
  (forall i j v, get2 raw i j = Some (Some v) ->
                 (Rabs (QS2.toR v) <= QS2.toR (curve_max raw))%R) /\
  (QS2.toR (curve_max raw) = (1 / 1000)%R \/
   exists i j v, get2 raw i j = Some (Some v) /\
                 QS2.toR (curve_max raw) = Rabs (QS2.toR v)).
Proof.
  destruct (curve_max_dominates raw (curve_max raw) eq_refl) as [Hfloor Hdom].
  split; [exact Hfloor |]. split.
  - intros i j v Hv. exact (All2d_get2 _ _ _ _ _ Hdom Hv v eq_refl).
  - unfold curve_max. destruct (nanmax (arr_abs raw)) as [m |] eqn:Hm.
    + rewrite QS2_toR_py_max, QS2_toR_thousandth.
      destruct (Rle_or_lt (QS2.toR m) (1 / 1000)) as [Hle | Hlt].
      * left. now apply Rmax_left.
      * right. apply nanmax_attained in Hm as (i & j & Hij).
        unfold arr_abs in Hij. apply get2_arr_map in Hij as (x & Hx & Habs).
        destruct x as [v |]; [| discriminate]. cbn in Habs. injection Habs as ->.
        exists i, j, v. split; [exact Hx |].
        rewrite QS2_toR_abs in *. apply Rmax_right. lra.
    + left. apply QS2_toR_thousandth.
Qed.

(** ** Which values are numbers *)




(** * The claims on the curvature raster *)

Lemma curvature_array_ok_inc dem0 tr L nd out :
  curvature_array dem0 tr L nd = Ok out -> exists inc, compute_inc L tr = Ok inc.
Proof.
  unfold curvature_array. destruct (shape _) as [ny nx].
  destruct (compute_inc L tr) as [inc | e]; [eauto | discriminate].
Qed.

(** C3. In the raster that [compute_topographic_curvature] computes and
    writes, each raw value (the stencil of one pixel) is divided by twice
    [curve_max], and [curve_max] is the largest magnitude among the raw
    values, floored at [0.001]: it is at least [0.001], at least the
    magnitude of every raw value, and it is [0.001] or the magnitude of
    one of them. Hence every defined value of the raster lies in
    [[-1/2, 1/2]]. *)
Theorem curvature_raster_normalised :
  forall dem_path wd L nd w p w' r ny nx,
    files w !! dem_path = Some (RasterFile r) ->
    rect (band1 r) ny nx ->
    path_exists (curvature_path_of wd) w = false ->
    compute_topographic_curvature dem_path wd L nd w = (Ok p, w') ->
    exists r' inc,
      files w' !! p = Some (RasterFile r') /\
      compute_inc L (transform r) = Ok inc /\
      let n := Z.to_nat inc in
      let dem := masked_dem (band1 r) nd in
      let raw := raw_block dem inc (cell_size (transform r))
                   (n `min` ny) (n `min` nx) in
      let m := curve_max raw in
      (1 / 1000 <= QS2.toR m)%R /\
      (forall i j v, get2 raw i j = Some (Some v) ->
                     (Rabs (QS2.toR v) <= QS2.toR m)%R) /\
      (QS2.toR m = (1 / 1000)%R \/
       exists i j v, get2 raw i j = Some (Some v) /\ QS2.toR m = Rabs (QS2.toR v)) /\
      (forall i j,
          (i < n)%nat -> (j < n)%nat -> (n + i < ny)%nat -> (n + j < nx)%nat ->
          get2 (band1 r') (n + i) (n + j)
          = Some (normalise m (pixel_curvature dem inc (cell_size (transform r)) i j))) /\
      All2d within_half (band1 r').
Proof.
  intros dem_path wd L nd w p w' r ny nx Hdem Hrect Hex Hrun.
  destruct (compute_topographic_curvature_fresh _ _ _ _ _ _ _ Hex Hrun)
    as (r0 & out & Hdem' & Hcurv & Hfile).
  rewrite Hdem in Hdem'. injection Hdem' as <-.
  destruct (curvature_array_ok_inc _ _ _ _ _ Hcurv) as [inc Hinc].
  eexists. exists inc. split; [exact Hfile |]. split; [exact Hinc |].
  cbv zeta. cbn [band1].
  destruct (curve_max_spec
              (raw_block (masked_dem (band1 r) nd) inc (cell_size (transform r))
                 (Z.to_nat inc `min` ny) (Z.to_nat inc `min` nx)))
    as (Hfloor & Hdom & Hatt).
  split; [exact Hfloor |]. split; [exact Hdom |]. split; [exact Hatt |]. split.
  - intros i j Hi Hj Hiy Hjx.
    now apply (curvature_array_cell _ _ _ _ ny nx inc out i j Hrect Hinc Hcurv).
  - eapply curvature_array_within_half. exact Hcurv.
Qed.

Lemma curvature_raster_normalised_witness :
  exists r' inc,
    files (compute_topographic_curvature "dem.tif" "/wd" 2 None ex_world).2
      !! "/wd/inputs/dem/curvature.tif" = Some (RasterFile r') /\
    compute_inc 2 ex_transform = Ok inc /\
    let n := Z.to_nat inc in
    let dem := masked_dem ex_dem None in
    let raw := raw_block dem inc (cell_size ex_transform) (n `min` 4) (n `min` 4) in
    let m := curve_max raw in
    (1 / 1000 <= QS2.toR m)%R /\
    (forall i j v, get2 raw i j = Some (Some v) ->
                   (Rabs (QS2.toR v) <= QS2.toR m)%R) /\
    (QS2.toR m = (1 / 1000)%R \/
     exists i j v, get2 raw i j = Some (Some v) /\ QS2.toR m = Rabs (QS2.toR v)) /\
    (forall i j,
        (i < n)%nat -> (j < n)%nat -> (n + i < 4)%nat -> (n + j < 4)%nat ->
        get2 (band1 r') (n + i) (n + j)
        = Some (normalise m (pixel_curvature dem inc (cell_size ex_transform) i j))) /\
    All2d within_half (band1 r').
Proof.
  apply (curvature_raster_normalised "dem.tif" "/wd" 2%Q None ex_world
           "/wd/inputs/dem/curvature.tif" _
           (mkRaster ex_dem ex_transform "EPSG:32632") 4%nat 4%nat).
  - reflexivity.
  - split; [reflexivity | repeat constructor].
  - vm_compute. reflexivity.
  - vm_compute. reflexivity.
Defined.

Section SampleOffsetStencil.
Local Open Scope Q_scope.

(** C4 (amended). For a geotransform with non-negative pixel width [a] and
    non-positive [e] (a north-up raster) that are not both zero, the offset
    computed by the code is [max(1, round(L / meanCellSize))] with
    [meanCellSize] the average of the absolute pixel width and height (the
    code averages [a] and [-e] without taking absolute values). Every value
    the function computes is the stencil of one pixel [(i, j)] on that
    pixel and its eight neighbours exactly that offset away, west, east,
    south, north and along the four diagonals, each taken from the DEM at
    the nearest index inside it; the value is divided by twice [curve_max]
    and stored at row [inc + i], column [inc + j]. *)
Theorem curvature_samples_at_offset :
  (forall (L : Q) (tr : affine),
      0 <= aff_a tr -> aff_e tr <= 0 -> ~ aff_a tr - aff_e tr == 0 ->
      compute_inc L tr = Ok (inc_spec L tr)) /\
  (forall (dem0 : array) (tr : affine) (L : Q) (nd : option Q)
          (ny nx : nat) (out : array) (i j : nat),
      0 <= aff_a tr -> aff_e tr <= 0 -> ~ aff_a tr - aff_e tr == 0 ->
      rect dem0 ny nx ->
      curvature_array dem0 tr L nd = Ok out ->
      let inc := inc_spec L tr in
      let n := Z.to_nat inc in
      (i < n)%nat -> (j < n)%nat -> (n + i < ny)%nat -> (n + j < nx)%nat ->
      let dem := masked_dem dem0 nd in
      let s (di dj : Z) :=
        sample dem (Z.of_nat i + di * inc)%Z (Z.of_nat j + dj * inc)%Z in
      let m := curve_max (raw_block dem inc (cell_size tr) (n `min` ny) (n `min` nx)) in
      get2 out (n + i) (n + j)
      = Some (normalise m
                (stencil inc (cell_size tr)
                   (s 0 0)%Z (s 0 (-1))%Z (s 0 1)%Z (s 1 0)%Z (s (-1) 0)%Z
                   (s 1 (-1))%Z (s (-1) 1)%Z (s (-1) (-1))%Z (s 1 1)%Z))).
Proof.
  assert (Hinc : forall (L : Q) (tr : affine),
             0 <= aff_a tr -> aff_e tr <= 0 -> ~ aff_a tr - aff_e tr == 0 ->
             compute_inc L tr = Ok (inc_spec L tr)).
  { intros L tr Ha He Hne. rewrite (compute_inc_ok L tr Hne).
    unfold inc_spec, mean_cell_size_spec. f_equal. f_equal.
    apply py_round_comp.
    rewrite (Qabs_pos _ Ha), (Qabs_neg _ He).
    assert (Hd : ~ (1 # 2) * (aff_a tr + - aff_e tr) == 0).
    { intros E. apply Hne.
      assert (E2 : aff_a tr - aff_e tr == 2 * ((1 # 2) * (aff_a tr + - aff_e tr)))
        by ring.
      rewrite E2, E. ring. }
    field.
    intros E. apply Hne. rewrite <- E. ring. }
  split; [exact Hinc |].
  intros dem0 tr L nd ny nx out i j Ha He Hne Hrect Hout inc n Hi Hj Hiy Hjx dem s m.
  exact (curvature_array_cell dem0 tr L nd ny nx inc out i j Hrect
           (Hinc L tr Ha He Hne) Hout Hi Hj Hiy Hjx).
Qed.

Lemma curvature_samples_at_offset_witness :
  compute_inc 1000 (mkAffine 30 0 0 0 (-30) 0)
  = Ok (inc_spec 1000 (mkAffine 30 0 0 0 (-30) 0)) /\
  exists out,
    curvature_array ex_dem ex_transform 2 None = Ok out /\
    let inc := inc_spec 2 ex_transform in
    let s (di dj : Z) := sample ex_dem (1 + di * inc)%Z (0 + dj * inc)%Z in
    let m := curve_max (raw_block ex_dem inc (cell_size ex_transform) 2 2) in
    get2 out 3 2
    = Some (normalise m
              (stencil inc (cell_size ex_transform)
                 (s 0 0)%Z (s 0 (-1))%Z (s 0 1)%Z (s 1 0)%Z (s (-1) 0)%Z
                 (s 1 (-1))%Z (s (-1) 1)%Z (s (-1) (-1))%Z (s 1 1)%Z)).
Proof.
  split.
  - apply (proj1 curvature_samples_at_offset 1000 (mkAffine 30 0 0 0 (-30) 0));
      discriminate.
  - eexists. split; [vm_compute; reflexivity |].
    apply (proj2 curvature_samples_at_offset ex_dem ex_transform 2 None
             4%nat 4%nat _ 1%nat 0%nat).
    + discriminate.
    + discriminate.
    + discriminate.
    + split; [reflexivity | repeat constructor].
    + vm_compute. reflexivity.
    + vm_compute. lia.
    + vm_compute. lia.
    + vm_compute. lia.
    + vm_compute. lia.
Defined.

End SampleOffsetStencil.




(** C1. On a flat 4 x 4 DEM of elevation 250 with kilometre pixels, no
    nodata and the default length scale, the offset is 1 and the raster
    that [compute_topographic_curvature] writes holds one value, the zero
    at row 1 and column 1; the fifteen other pixels, the corner (0, 0)
    among them, are NaN and not zero. *)
Theorem flat_dem_curvature_mostly_nan :
  exists r,
    files (compute_topographic_curvature "dem.tif" "/wd" 1000 None ex_flat_world).2
      !! "/wd/inputs/dem/curvature.tif" = Some (RasterFile r) /\
    compute_inc 1000 ex_km_transform = Ok 1%Z /\
    All2d (fun c => c = ex_cell 250) ex_flat_dem /\
    band1 r = [[None; None; None; None];
               [None; Some QS2.zero; None; None];
               [None; None; None; None];
               [None; None; None; None]].
Proof.
  eexists. split; [vm_compute; reflexivity |].
  split; [vm_compute; reflexivity |].
  split; [repeat constructor |].
  vm_compute. reflexivity.
Qed.

(** * The terrain stage passes no sentinel *)

Lemma bind_Ok_inv {W A B} (m : M W A) (k : A -> M W B) w b w' :
  bind m k w = (Ok b, w') ->
  exists a w1, m w = (Ok a, w1) /\ k a w1 = (Ok b, w').
Proof.
  unfold bind. destruct (m w) as [[a | e] w1]; [eauto | discriminate].
Qed.

Lemma lift_Ok_inv {W A} (r : result A) (w : W) a w1 :
  lift r w = (Ok a, w1) -> r = Ok a /\ w1 = w.
Proof. unfold lift. now intros [= -> ->]. Qed.

Lemma dict_item_Ok_inv (cfg : gmap string json) k v :
  dict_item (JObj cfg) k = Ok v -> cfg !! k = Some v.
Proof. unfold dict_item. destruct (cfg !! k); [now intros [= ->] | discriminate]. Qed.

Lemma as_str_Ok_inv v s : as_str v = Ok s -> v = JStr s.
Proof. destruct v; try discriminate. now intros [= ->]. Qed.

(** C10. Whatever the configuration holds under ["dem_nodata"], a terrain
    stage that succeeds ends with the call
    [compute_topographic_curvature dem_file working_directory 1000 None]:
    the world it leaves is the one that call leaves, started in the world
    reached after the folder structure, the optional download and the
    slope and aspect commands. The sentinel of the configuration is only
    returned, for the fan-out. When no curvature raster was in place, the
    raster written is [curvature_array] of the DEM band with no sentinel,
    so that no cell is converted to NaN. *)
Theorem terrain_stage_curvature_unmasked :
  forall os_system get_era5 (cfg : gmap string json) (w : World) res w',
    terrain_stage os_system get_era5 (JObj cfg) w = (Ok res, w') ->
    exists wd dem_path start_date end_date era_path pat_token time_step
           jobs_downscaling jobs_download sa w1,
      cfg !! "working_directory" = Some (JStr wd) /\
      cfg !! "dem_file" = Some (JStr dem_path) /\
      cfg !! "start_date" = Some start_date /\
      cfg !! "end_date" = Some end_date /\
      cfg !! "era_file" = Some era_path /\
      cfg !! "earthdatahub_pat" = Some pat_token /\
      cfg !! "time_step" = Some time_step /\
      cfg !! "jobs_parallel_downscale" = Some jobs_downscaling /\
      cfg !! "jobs_parallel_download" = Some jobs_download /\
      (create_full_micromet_folder_structure wd;;;
       (if is_none era_path then
          print "Downloading ERA5-Land data...";;;
          get_era5 start_date end_date (JStr dem_path)
            (path_join wd "inputs/climate") pat_token jobs_download
            (py_eq_str time_step "24H")
        else ret tt);;;
       compute_slope_aspect os_system dem_path wd) w = (Ok sa, w1) /\
      compute_topographic_curvature dem_path wd 1000 None w1
      = (Ok (curvature_path_of wd), w') /\
      res = (dem_path, wd, jobs_downscaling, default JNull (cfg !! "dem_nodata")) /\
      (path_exists (curvature_path_of wd) w1 = false ->
       exists r out,
         files w1 !! dem_path = Some (RasterFile r) /\
         masked_dem (band1 r) None = band1 r /\
         curvature_array (band1 r) (transform r) 1000 None = Ok out /\
         files w' !! curvature_path_of wd
         = Some (RasterFile (mkRaster out (transform r) (crs r)))).
Proof.
  intros os_system get_era5 cfg w res w' H.
  unfold terrain_stage, dict_get in H. rewrite bind_lift_Ok in H.
  apply bind_Ok_inv in H as (wd0 & w0 & Hwd & H).
  apply lift_Ok_inv in Hwd as [Hwd ->]. apply dict_item_Ok_inv in Hwd.
  apply bind_Ok_inv in H as (start_date & w0 & Hsd & H).
  apply lift_Ok_inv in Hsd as [Hsd ->]. apply dict_item_Ok_inv in Hsd.
  apply bind_Ok_inv in H as (end_date & w0 & Hed & H).
  apply lift_Ok_inv in Hed as [Hed ->]. apply dict_item_Ok_inv in Hed.
  apply bind_Ok_inv in H as (dem0 & w0 & Hdf & H).
  apply lift_Ok_inv in Hdf as [Hdf ->]. apply dict_item_Ok_inv in Hdf.
  apply bind_Ok_inv in H as (era_path & w0 & Hera & H).
  apply lift_Ok_inv in Hera as [Hera ->]. apply dict_item_Ok_inv in Hera.
  apply bind_Ok_inv in H as (pat_token & w0 & Hpat & H).
  apply lift_Ok_inv in Hpat as [Hpat ->]. apply dict_item_Ok_inv in Hpat.
  apply bind_Ok_inv in H as (time_step & w0 & Hts & H).
  apply lift_Ok_inv in Hts as [Hts ->]. apply dict_item_Ok_inv in Hts.
  apply bind_Ok_inv in H as (jobs & w0 & Hjobs & H).
  apply lift_Ok_inv in Hjobs as [Hjobs ->]. apply dict_item_Ok_inv in Hjobs.
  apply bind_Ok_inv in H as (jobs_dl & w0 & Hjdl & H).
  apply lift_Ok_inv in Hjdl as [Hjdl ->]. apply dict_item_Ok_inv in Hjdl.
  rewrite bind_lift_Ok in H.
  apply bind_Ok_inv in H as (wd & w0 & Hwds & H).
  apply lift_Ok_inv in Hwds as [Hwds ->]. apply as_str_Ok_inv in Hwds. subst wd0.
  apply bind_Ok_inv in H as (u1 & wa & Hfolders & H).
  apply bind_Ok_inv in H as (u2 & wb & Hdownload & H).
  apply bind_Ok_inv in H as (dem_path & w0 & Hdems & H).
  apply lift_Ok_inv in Hdems as [Hdems ->]. apply as_str_Ok_inv in Hdems. subst dem0.
  apply bind_Ok_inv in H as (sa & w1 & Hsa & H).
  apply bind_Ok_inv in H as (p & w2 & Hcurv & H).
  unfold ret in H. injection H as <- <-.
  assert (Hp : p = curvature_path_of wd).
  { clear -Hcurv. unfold compute_topographic_curvature, bind in Hcurv.
    destruct (makedirs _ w1) as [[[] | e] w0]; [| discriminate].
    destruct (path_exists _ w0).
    - unfold print, ret in Hcurv. now injection Hcurv as <- _.
    - destruct (rasterio_read dem_path w0) as [[src | e] w3]; [| discriminate].
      unfold lift in Hcurv.
      destruct (curvature_array _ _ _ _); [| discriminate].
      unfold rasterio_write, print, ret in Hcurv. now injection Hcurv as <- _. }
  subst p.
  exists wd, dem_path, start_date, end_date, era_path, pat_token, time_step,
    jobs, jobs_dl, sa, w1.
  repeat (split; [assumption |]).
  split.
  { unfold bind at 1. rewrite Hfolders. unfold bind at 1. rewrite Hdownload.
    exact Hsa. }
  split; [exact Hcurv |]. split; [reflexivity |].
  intros Hfresh.
  destruct (compute_topographic_curvature_fresh _ _ _ _ _ _ _ Hfresh Hcurv)
    as (r & out & Hr & Hout & Hfile).
  exists r, out. repeat split; assumption.
Qed.

Lemma terrain_stage_curvature_unmasked_witness :
  exists wd dem_path start_date end_date era_path pat_token time_step
         jobs_downscaling jobs_download sa w1,
    ex_config !! "working_directory" = Some (JStr wd) /\
    ex_config !! "dem_file" = Some (JStr dem_path) /\
    ex_config !! "start_date" = Some start_date /\
    ex_config !! "end_date" = Some end_date /\
    ex_config !! "era_file" = Some era_path /\
    ex_config !! "earthdatahub_pat" = Some pat_token /\
    ex_config !! "time_step" = Some time_step /\
    ex_config !! "jobs_parallel_downscale" = Some jobs_downscaling /\
    ex_config !! "jobs_parallel_download" = Some jobs_download /\
    (create_full_micromet_folder_structure wd;;;
     (if is_none era_path then
        print "Downloading ERA5-Land data...";;;
        ex_get_era5 start_date end_date (JStr dem_path)
          (path_join wd "inputs/climate") pat_token jobs_download
          (py_eq_str time_step "24H")
      else ret tt);;;
     compute_slope_aspect ex_os_system dem_path wd) ex_world_nodata = (Ok sa, w1) /\
    compute_topographic_curvature dem_path wd 1000 None w1
    = (Ok (curvature_path_of wd),
       (terrain_stage ex_os_system ex_get_era5 (JObj ex_config) ex_world_nodata).2) /\
    ("dem.tif", "/wd", JNum 1, JNum (-9999))
    = (dem_path, wd, jobs_downscaling, default JNull (ex_config !! "dem_nodata")) /\
    (path_exists (curvature_path_of wd) w1 = false ->
     exists r out,
       files w1 !! dem_path = Some (RasterFile r) /\
       masked_dem (band1 r) None = band1 r /\
       curvature_array (band1 r) (transform r) 1000 None = Ok out /\
       files (terrain_stage ex_os_system ex_get_era5 (JObj ex_config) ex_world_nodata).2
         !! curvature_path_of wd
       = Some (RasterFile (mkRaster out (transform r) (crs r)))).
Proof.
  apply (terrain_stage_curvature_unmasked ex_os_system ex_get_era5 ex_config
           ex_world_nodata ("dem.tif", "/wd", JNum 1, JNum (-9999))).
  vm_compute. reflexivity.
Defined.
